(** * reverse-proxy-agent: the supervisor core, embedded and verified

    A shallow embedding of the parts of the repository that the supervisor
    specification talks about:

    - [Android]      the Kotlin [Backoff] class of the Android tunnel manager
                     (IEEE doubles are the kernel's primitive floats);
    - [GoTime]       Go's [time.Time] / [time.Duration] arithmetic as far as
                     the supervisor uses it;
    - [StateMachine] the three-state connection state machine;
    - [Supervisor]   [Runner] of package supervisor (the copy with a
                     per-spawn wait task), as state passing with an effect
                     trace;
    - [Legacy]       [Start] and [Stop] of the older copy of the same package;
    - [Grace]        a timed transition system for the success-grace task;
    - [Monitor]      the polling network watcher and its fingerprint;
    - [GoStrings]    the functions of Go's [strings] package that the
                     configuration code calls;
    - [Config]       package config: the defaults, the validation and the
                     normal form of the forward lists;
    - [Forwards]     the forwards of a running agent or client, and the
                     IPC handlers that change them;
    - [Logging]      the ring of recent log lines;
    - [SleepMonitor] the polling sleep watcher;
    - [TCPCheck]     the TCP probe of the supervisor;
    - [AndroidTunnel], [AndroidKeys]
                     the restart gate of the Android tunnel manager and
                     the OpenSSH form of its public key;
    - [MonitorMore], [SupervisorMore]
                     vocabulary for statements about the network watcher
                     and the supervisor loop.

    The theorems follow the definitions, in [AndroidFacts],
    [SupervisorFacts], [MonitorFacts] and [GraceFacts], and then in
    [ConfigFacts], [ForwardsFacts], [LoggingFacts], [SleepMonitorFacts],
    [MonitorMoreFacts], [TCPCheckFacts], [AndroidTunnelFacts],
    [AndroidMoreFacts], [AndroidKeysFacts] and [SupervisorMoreFacts]. *)

From Stdlib Require Import ZArith List String Ascii Bool Lia.
From Stdlib Require Import Sorted Permutation.
From Stdlib Require Import PrimFloat FloatOps SpecFloat FloatAxioms.
Import ListNotations.

Local Open Scope Z_scope.

(* ================================================================== *)
(** * Android: [private class Backoff] (SshTunnelManager.kt)           *)
(* ================================================================== *)

Module Android.

(** Kotlin [Long] bounds. *)
Definition Long_MIN : Z := - 2 ^ 63.
Definition Long_MAX : Z := 2 ^ 63 - 1.

(** [Long.toDouble()]: the nearest double, ties to even. *)
Definition toDouble (z : Z) : float :=
  SF2Prim (binary_normalize prec emax z 0 false).

(** [Double.toLong()]: NaN gives 0, otherwise round toward zero and
    saturate at the [Long] bounds. *)
Definition toLong (f : float) : Z :=
  match Prim2SF f with
  | S754_nan => 0
  | S754_zero _ => 0
  | S754_infinity s => if s then Long_MIN else Long_MAX
  | S754_finite s m e =>
      let mag := Z.shiftl (Zpos m) e in
      let v := if s then - mag else mag in
      Z.max Long_MIN (Z.min Long_MAX v)
  end.

(** The constructor parameters and the one mutable field. *)
Record Backoff : Type := mkBackoff {
  minDelayMs : Z;
  maxDelayMs : Z;
  factor : float;
  jitter : float;
  currentDelay : Z
}.

(** [Backoff(min, max, factor, jitter)]: [currentDelay = minDelayMs]. *)
Definition newBackoff (mn mx : Z) (fa ji : float) : Backoff :=
  mkBackoff mn mx fa ji mn.

(** [applyJitter(value)].  [rand] is the sample that
    [Random.nextDouble(minVal, maxVal)] returns; that call throws when the
    range is empty ([None]). *)
Definition applyJitter (b : Backoff) (value : Z) (rand : float) : option Z :=
  if (jitter b <=? 0)%float then Some value
  else
    let delta := (toDouble value * jitter b)%float in
    let minVal := (toDouble value - delta)%float in
    let maxVal := (toDouble value + delta)%float in
    if (minVal <? maxVal)%float
    then Some (Z.max (toLong rand) 0)
    else None.

(** [nextDelayMs()]. *)
Definition nextDelayMs (b : Backoff) (rand : float) : option (Z * Backoff) :=
  match applyJitter b (currentDelay b) rand with
  | None => None
  | Some delay =>
      let next :=
        Z.min (maxDelayMs b)
              (toLong (toDouble (currentDelay b) * factor b)%float) in
      Some (delay,
            mkBackoff (minDelayMs b) (maxDelayMs b) (factor b) (jitter b) next)
  end.

(** [reset()]. *)
Definition reset (b : Backoff) : Backoff :=
  mkBackoff (minDelayMs b) (maxDelayMs b) (factor b) (jitter b) (minDelayMs b).

(** [n] successive calls of [nextDelayMs()], the [k]-th one drawing
    [rands k]: the delays returned and the object afterwards. *)
Fixpoint calls (n : nat) (rands : nat -> float) (b : Backoff)
  : option (list Z * Backoff) :=
  match n with
  | O => Some ([], b)
  | S n' =>
      match nextDelayMs b (rands O) with
      | None => None
      | Some (d, b') =>
          match calls n' (fun k => rands (S k)) b' with
          | None => None
          | Some (ds, b'') => Some (d :: ds, b'')
          end
      end
  end.

(** The scenario's object: [Backoff(2000, 30000, 2.0, 0.0)]. *)
Definition scenario : Backoff := newBackoff 2000 30000 2%float 0%float.

(** The same object once the stored delay has reached the maximum. *)
Definition saturated : Backoff := mkBackoff 2000 30000 2%float 0%float 30000.

End Android.

(* ================================================================== *)
(** * Go's [time] package, as far as the supervisor uses it             *)
(* ================================================================== *)

Module GoTime.

(** A [time.Duration] is an [int64] count of nanoseconds. *)
Definition Duration := Z.
Definition minDuration : Duration := - 2 ^ 63.
Definition maxDuration : Duration := 2 ^ 63 - 1.

(** Two's-complement wrap-around of [int64] (and of [int] on the 64-bit
    targets the program is built for). *)
Definition wrap64 (z : Z) : Z := (z + 2 ^ 63) mod 2 ^ 64 - 2 ^ 63.

Definition Nanosecond : Duration := 1.
Definition Millisecond : Duration := 1000000.
Definition Second : Duration := 1000000000.

(** [time.Duration(n) * unit]. *)
Definition scale (n : Z) (unit : Duration) : Duration := wrap64 (n * unit).

(** A [time.Time] is an instant, counted here in nanoseconds from the zero
    [Time] (January 1, year 1, 00:00:00 UTC); the struct's zero value is
    instant 0. *)
Definition Time := Z.
Definition zeroTime : Time := 0.

(** [t.IsZero()]. *)
Definition IsZero (t : Time) : bool := t =? 0.

(** [t.Sub(u)]: the difference, saturated to the [Duration] range. *)
Definition Sub (t u : Time) : Duration :=
  Z.max minDuration (Z.min maxDuration (t - u)).

(** [t.Unix()]: seconds since January 1, 1970 UTC. *)
Definition unixEpoch : Z := 62135596800.
Definition Unix (t : Time) : Z := t / Second - unixEpoch.

(** [d.Round(m)] (half away from zero) and [d.Milliseconds()]. *)
Definition Round (d m : Duration) : Duration :=
  if m <=? 0 then d
  else
    let r := Z.rem d m in
    if d <? 0 then
      let r := - r in
      if r + r <? m then d + r
      else if minDuration <=? d - m + r then d - m + r else minDuration
    else
      if r + r <? m then d - r
      else if d + m - r <=? maxDuration then d + m - r else maxDuration.

Definition Milliseconds (d : Duration) : Z := Z.quot d Millisecond.

End GoTime.

(* ================================================================== *)
(** * Package state: the connection state machine                      *)
(* ================================================================== *)

Module StateMachine.

Inductive State : Type := StateStopped | StateConnecting | StateConnected.

Definition State_eqb (a b : State) : bool :=
  match a, b with
  | StateStopped, StateStopped
  | StateConnecting, StateConnecting
  | StateConnected, StateConnected => true
  | _, _ => false
  end.

(** Modelled from the spec: package [state] is not among the sources.  The
    legal transitions are exactly Stopped->Connecting, Connecting->Connected,
    Connecting->Stopped and Connected->Stopped; "anything else fails with an
    invalid-transition error". *)
Definition legal (from to : State) : bool :=
  match from, to with
  | StateStopped, StateConnecting
  | StateConnecting, StateConnected
  | StateConnecting, StateStopped
  | StateConnected, StateStopped => true
  | _, _ => false
  end.

Definition invalid_transition : string := "invalid state transition".

(** Modelled from the spec: [sm.Transition(next)] moves the machine when
    the transition is legal and otherwise leaves it alone and returns an
    error.  A new machine is in [StateStopped]. *)
Definition Transition (sm next : State) : State * option string :=
  if legal sm next then (next, None) else (sm, Some invalid_transition).

Definition NewStateMachine : State := StateStopped.

End StateMachine.

(* ================================================================== *)
(** * Package supervisor: data                                         *)
(* ================================================================== *)

Module Supervisor.

Import GoTime StateMachine.
Local Open Scope string_scope.
Local Open Scope list_scope.
Local Open Scope Z_scope.

(** Go's [error] values are represented by their message. *)
Definition error := string.

(** What [cmd.Wait()] can return besides [nil]: an [*exec.ExitError] with
    its exit code, or some other error. *)
Inductive WaitErr : Type :=
| ExitError (code : Z)
| OtherError (msg : string).

(** An [*exec.Cmd]: the pointer's identity and its [Process] field, which
    is [nil] until [cmd.Start()] has succeeded. *)
Record Cmd : Type := mkCmd { cmd_id : nat; Process : option nat }.

Definition Cmd_eqb (a b : Cmd) : bool := Nat.eqb (cmd_id a) (cmd_id b).

(** Pointer comparison [r.cmd == cmd] against a possibly-nil field. *)
Definition same_cmd (field : option Cmd) (c : Cmd) : bool :=
  match field with
  | Some c' => Cmd_eqb c' c
  | None => false
  end.

(** A [chan struct{}] / [chan error], by identity. *)
Definition Chan := nat.

(** The signals the supervisor sends with [Process.Signal];
    [Process.Kill()] is an effect of its own. *)
Inductive Signal : Type :=
| Interrupt   (* os.Interrupt *)
| SIGTERM.    (* syscall.SIGTERM *)

(** Modelled from the spec: [restart.Policy] is not among the sources; it
    is the enumeration {Always, OnFailure}. *)
Inductive Policy : Type := PolicyAlways | PolicyOnFailure.

(** Values of the [map[string]any] passed to [logger.Event]. *)
Inductive Any : Type :=
| AStr (s : string)
| AInt (z : Z).

(** [statefile.Snapshot], the fields the runner fills in. *)
Record Snapshot : Type := mkSnapshot {
  LastExit : string;
  LastClass : string;
  LastTrigger : string;
  LastSuccessUnix : Z
}.

(** Modelled from the spec: [sshutil.LineBuffer] is not among the sources;
    it is the bounded ring of the last N lines of stderr. *)
Record LineBuffer : Type := mkLineBuffer { capacity : nat; Lines : list string }.

Definition NewLineBuffer (n : nat) : LineBuffer := mkLineBuffer n [].

Definition Add (b : LineBuffer) (line : string) : LineBuffer :=
  let all := Lines b ++ [line] in
  mkLineBuffer (capacity b) (skipn (List.length all - capacity b) all).

(** Everything the runner does to the world outside its own fields, in
    program order. *)
Inductive Effect : Type :=
| EBuild                                   (* build() *)
| ESpawn (c : Cmd)                         (* cmd.Start() returned nil *)
| EGoWait (c : Cmd) (ch : Chan)            (* go: cmd.Wait(), then signal ch *)
| ESignal (c : Cmd) (s : Signal)           (* cmd.Process.Signal(s) *)
| EKill (c : Cmd)                          (* cmd.Process.Kill() *)
| EAwait (ch : Chan) (bound : Duration) (fired : bool)
                                           (* select: <-ch or <-time.After(bound) *)
| ERecv (ch : Chan)                        (* <-ch *)
| EGrace (c : Cmd)                         (* go: the success-grace task for c *)
| ELog (level event : string) (fields : list (string * Any))
                                           (* logger.Event(level, event, fields) *)
| ESnapshot (s : Snapshot)                 (* stateWriter(snap) *)
| EBackoffNext (d : Duration)              (* r.backoff.Next() returned d *)
| EBackoffReset                            (* r.backoff.Reset() *)
| ESleep (d : Duration).                   (* time.Sleep(d) or an expired timer *)

(** [type Runner struct].  [backoff] lives outside (its methods are
    effects); the mutex, [stopOnce] and the TCP-probe fields carry no
    information the embedded methods read. *)
Record Runner : Type := mkRunner {
  sm : State;
  cmd : option Cmd;
  waitDone : option Chan;
  waitErr : option WaitErr;
  logger : bool;                 (* r.logger != nil *)
  stopCh : bool;                 (* stopCh has been closed *)
  restartCount : Z;
  lastExit : string;
  policy : Policy;
  errLines : option LineBuffer;
  lastSuccess : Time;
  lastClass : string;
  lastTrigger : Time;
  startSuccessCount : Z;
  startFailureCount : Z;
  exitSuccessCount : Z;
  exitFailureCount : Z;
  lastTriggerReason : string;
  stateWriter : bool             (* r.stateWriter != nil *)
}.

(** [New(policy, backoff)]. *)
Definition New (p : Policy) : Runner :=
  mkRunner NewStateMachine None None None false false 0 "" p None
           zeroTime "" zeroTime 0 0 0 0 "" false.

(** Field assignments. *)
Definition set_sm (v : State) (r : Runner) : Runner :=
  mkRunner v (cmd r) (waitDone r) (waitErr r) (logger r) (stopCh r)
    (restartCount r) (lastExit r) (policy r) (errLines r) (lastSuccess r)
    (lastClass r) (lastTrigger r) (startSuccessCount r) (startFailureCount r)
    (exitSuccessCount r) (exitFailureCount r) (lastTriggerReason r)
    (stateWriter r).

Definition set_child (c : option Cmd) (w : option Chan) (e : option WaitErr)
  (r : Runner) : Runner :=
  mkRunner (sm r) c w e (logger r) (stopCh r)
    (restartCount r) (lastExit r) (policy r) (errLines r) (lastSuccess r)
    (lastClass r) (lastTrigger r) (startSuccessCount r) (startFailureCount r)
    (exitSuccessCount r) (exitFailureCount r) (lastTriggerReason r)
    (stateWriter r).

Definition set_waitErr (e : option WaitErr) (r : Runner) : Runner :=
  set_child (cmd r) (waitDone r) e r.

Definition set_logger (v : bool) (r : Runner) : Runner :=
  mkRunner (sm r) (cmd r) (waitDone r) (waitErr r) v (stopCh r)
    (restartCount r) (lastExit r) (policy r) (errLines r) (lastSuccess r)
    (lastClass r) (lastTrigger r) (startSuccessCount r) (startFailureCount r)
    (exitSuccessCount r) (exitFailureCount r) (lastTriggerReason r)
    (stateWriter r).

Definition set_stopCh (v : bool) (r : Runner) : Runner :=
  mkRunner (sm r) (cmd r) (waitDone r) (waitErr r) (logger r) v
    (restartCount r) (lastExit r) (policy r) (errLines r) (lastSuccess r)
    (lastClass r) (lastTrigger r) (startSuccessCount r) (startFailureCount r)
    (exitSuccessCount r) (exitFailureCount r) (lastTriggerReason r)
    (stateWriter r).

Definition set_restartCount (v : Z) (r : Runner) : Runner :=
  mkRunner (sm r) (cmd r) (waitDone r) (waitErr r) (logger r) (stopCh r)
    v (lastExit r) (policy r) (errLines r) (lastSuccess r)
    (lastClass r) (lastTrigger r) (startSuccessCount r) (startFailureCount r)
    (exitSuccessCount r) (exitFailureCount r) (lastTriggerReason r)
    (stateWriter r).

Definition set_lastExit (v : string) (r : Runner) : Runner :=
  mkRunner (sm r) (cmd r) (waitDone r) (waitErr r) (logger r) (stopCh r)
    (restartCount r) v (policy r) (errLines r) (lastSuccess r)
    (lastClass r) (lastTrigger r) (startSuccessCount r) (startFailureCount r)
    (exitSuccessCount r) (exitFailureCount r) (lastTriggerReason r)
    (stateWriter r).

Definition set_errLines (v : option LineBuffer) (r : Runner) : Runner :=
  mkRunner (sm r) (cmd r) (waitDone r) (waitErr r) (logger r) (stopCh r)
    (restartCount r) (lastExit r) (policy r) v (lastSuccess r)
    (lastClass r) (lastTrigger r) (startSuccessCount r) (startFailureCount r)
    (exitSuccessCount r) (exitFailureCount r) (lastTriggerReason r)
    (stateWriter r).

Definition set_lastSuccess (v : Time) (r : Runner) : Runner :=
  mkRunner (sm r) (cmd r) (waitDone r) (waitErr r) (logger r) (stopCh r)
    (restartCount r) (lastExit r) (policy r) (errLines r) v
    (lastClass r) (lastTrigger r) (startSuccessCount r) (startFailureCount r)
    (exitSuccessCount r) (exitFailureCount r) (lastTriggerReason r)
    (stateWriter r).

Definition set_lastClass (v : string) (r : Runner) : Runner :=
  mkRunner (sm r) (cmd r) (waitDone r) (waitErr r) (logger r) (stopCh r)
    (restartCount r) (lastExit r) (policy r) (errLines r) (lastSuccess r)
    v (lastTrigger r) (startSuccessCount r) (startFailureCount r)
    (exitSuccessCount r) (exitFailureCount r) (lastTriggerReason r)
    (stateWriter r).

Definition set_lastTrigger (v : Time) (r : Runner) : Runner :=
  mkRunner (sm r) (cmd r) (waitDone r) (waitErr r) (logger r) (stopCh r)
    (restartCount r) (lastExit r) (policy r) (errLines r) (lastSuccess r)
    (lastClass r) v (startSuccessCount r) (startFailureCount r)
    (exitSuccessCount r) (exitFailureCount r) (lastTriggerReason r)
    (stateWriter r).

Definition set_counters (ss sf es ef : Z) (r : Runner) : Runner :=
  mkRunner (sm r) (cmd r) (waitDone r) (waitErr r) (logger r) (stopCh r)
    (restartCount r) (lastExit r) (policy r) (errLines r) (lastSuccess r)
    (lastClass r) (lastTrigger r) ss sf es ef (lastTriggerReason r)
    (stateWriter r).

Definition set_lastTriggerReason (v : string) (r : Runner) : Runner :=
  mkRunner (sm r) (cmd r) (waitDone r) (waitErr r) (logger r) (stopCh r)
    (restartCount r) (lastExit r) (policy r) (errLines r) (lastSuccess r)
    (lastClass r) (lastTrigger r) (startSuccessCount r) (startFailureCount r)
    (exitSuccessCount r) (exitFailureCount r) v (stateWriter r).

Definition set_stateWriter (v : bool) (r : Runner) : Runner :=
  mkRunner (sm r) (cmd r) (waitDone r) (waitErr r) (logger r) (stopCh r)
    (restartCount r) (lastExit r) (policy r) (errLines r) (lastSuccess r)
    (lastClass r) (lastTrigger r) (startSuccessCount r) (startFailureCount r)
    (exitSuccessCount r) (exitFailureCount r) (lastTriggerReason r) v.

(** ** The runner monad: state passing with an effect trace *)

Definition M (A : Type) : Type := Runner -> A * Runner * list Effect.

Definition ret {A} (a : A) : M A := fun r => (a, r, []).

Definition bind {A B} (m : M A) (k : A -> M B) : M B :=
  fun r =>
    let '(a, r1, t1) := m r in
    let '(b, r2, t2) := k a r1 in
    (b, r2, t1 ++ t2).

Definition get : M Runner := fun r => (r, r, []).
Definition modify (f : Runner -> Runner) : M unit := fun r => (tt, f r, []).
Definition emit (e : Effect) : M unit := fun r => (tt, r, [e]).

Definition value {A} (x : A * Runner * list Effect) : A := fst (fst x).
Definition final {A} (x : A * Runner * list Effect) : Runner := snd (fst x).
Definition trace {A} (x : A * Runner * list Effect) : list Effect := snd x.

Notation "x <- m ;; k" := (bind m (fun x => k))
  (at level 61, m at next level, right associativity).
Notation "m ;; k" := (bind m (fun _ => k))
  (at level 61, right associativity).

(** ** Small methods *)

(** [r.sm.Transition(next)]. *)
Definition transition (next : State) : M (option error) :=
  fun r => let '(s, e) := Transition (sm r) next in (e, set_sm s r, []).

(** [++] on an [int]. *)
Definition incr (n : Z) : Z := wrap64 (n + 1).

Definition recordStartSuccess : M unit :=
  modify (fun r => set_counters (incr (startSuccessCount r)) (startFailureCount r)
                                (exitSuccessCount r) (exitFailureCount r) r).

Definition recordStartFailure : M unit :=
  modify (fun r => set_counters (startSuccessCount r) (incr (startFailureCount r))
                                (exitSuccessCount r) (exitFailureCount r) r).

Definition recordExitSuccess : M unit :=
  modify (fun r => set_counters (startSuccessCount r) (startFailureCount r)
                                (incr (exitSuccessCount r)) (exitFailureCount r) r).

Definition recordExitFailure : M unit :=
  modify (fun r => set_counters (startSuccessCount r) (startFailureCount r)
                                (exitSuccessCount r) (incr (exitFailureCount r)) r).

Definition snapshotLocked (r : Runner) : Snapshot :=
  mkSnapshot (lastExit r) (lastClass r) (lastTriggerReason r)
             (if IsZero (lastSuccess r) then 0 else Unix (lastSuccess r)).

Definition writeSnapshot (writer : bool) (snap : Snapshot) : M unit :=
  if writer then emit (ESnapshot snap) else ret tt.

Definition recordExit (reason : string) : M unit :=
  modify (set_lastExit reason) ;;
  r <- get ;;
  writeSnapshot (stateWriter r) (snapshotLocked r).

Definition setLastClass (class : string) : M unit :=
  modify (set_lastClass class) ;;
  r <- get ;;
  writeSnapshot (stateWriter r) (snapshotLocked r).

Definition setLastTriggerReason (reason : string) : M unit :=
  modify (set_lastTriggerReason reason) ;;
  r <- get ;;
  writeSnapshot (stateWriter r) (snapshotLocked r).

Definition setLogger (l : bool) : M unit := modify (set_logger l).

(** [SetStateWriter(writer)]. *)
Definition SetStateWriter (writer : bool) : M unit :=
  modify (set_stateWriter writer).

(** [terminateProcess()]: SIGTERM to the current child, if any. *)
Definition terminateProcess : M unit :=
  r <- get ;;
  match cmd r with
  | Some c =>
      match Process c with
      | Some _ => emit (ESignal c SIGTERM)
      | None => ret tt
      end
  | None => ret tt
  end.

(** [scheduleSuccessMark(cmd)] starts the grace task; [successMark] is what
    that task does once [time.Sleep(successGracePeriod)] has returned, [now]
    being the [time.Now()] it reads. *)
Definition successGracePeriod : Duration := scale 2 Second.

Definition scheduleSuccessMark (c : Cmd) : M unit := emit (EGrace c).

Definition successMark (c : Cmd) (now : Time) : M unit :=
  r <- get ;;
  if negb (same_cmd (cmd r) c) || negb (State_eqb (sm r) StateConnected)
  then ret tt
  else
    modify (set_lastSuccess now) ;;
    r' <- get ;;
    writeSnapshot (stateWriter r') (snapshotLocked r').

(** The nested [select] used by [Start] and [Stop]: wait for the
    completion channel for 3 s; on timeout kill and wait 1 s more.
    [fired3] and [fired1] say whether the channel fired in time. *)
Definition boundedReap (ch : Chan) (c : Cmd) (fired3 fired1 : bool) : M unit :=
  emit (EAwait ch (scale 3 Second) fired3) ;;
  if fired3 then ret tt
  else
    emit (EKill c) ;;
    emit (EAwait ch (scale 1 Second) fired1).

(** ** [Start] *)

(** What the world answers during one call of [Start]. *)
Record StartEnv : Type := mkStartEnv {
  build : Cmd + error;          (* build() *)
  StdoutPipe : option error;    (* error of cmd.StdoutPipe() *)
  StderrPipe : option error;    (* error of cmd.StderrPipe() *)
  cmdStart : nat + error;       (* cmd.Start(): the pid, or an error *)
  newChan : Chan;               (* make(chan struct{}) *)
  racing : list State;          (* Transition calls of other goroutines that
                                   land between Start's two transitions *)
  reaped3 : bool;               (* waitDone fires within 3 s of SIGTERM *)
  reaped1 : bool                (* waitDone fires within 1 s of the kill *)
}.

(** Transitions made by other goroutines; their errors are theirs. *)
Fixpoint interfere (l : list State) : M unit :=
  match l with
  | [] => ret tt
  | s :: l' => transition s ;; interfere l'
  end.

(** The three identical failure exits of [Start]. *)
Definition failStart (err : error) : M (option error) :=
  transition StateStopped ;;
  recordStartFailure ;;
  ret (Some err).

Definition Start (env : StartEnv) : M (option error) :=
  e <- transition StateConnecting ;;
  match e with
  | Some err => ret (Some err)
  | None =>
    emit EBuild ;;
    match build env with
    | inr err => failStart err
    | inl c0 =>
      match StdoutPipe env with
      | Some err => failStart err
      | None =>
        match StderrPipe env with
        | Some err => failStart err
        | None =>
          match cmdStart env with
          | inr err => failStart err
          | inl pid =>
            let c := mkCmd (cmd_id c0) (Some pid) in
            let ch := newChan env in
            emit (ESpawn c) ;;
            modify (fun r => set_errLines (Some (NewLineBuffer 10))
                               (set_child (Some c) (Some ch) None r)) ;;
            emit (EGoWait c ch) ;;
            interfere (racing env) ;;
            e <- transition StateConnected ;;
            match e with
            | Some err =>
                terminateProcess ;;
                boundedReap ch c (reaped3 env) (reaped1 env) ;;
                modify (fun r => if same_cmd (cmd r) c
                                 then set_child None None None r else r) ;;
                ret (Some err)
            | None =>
                recordStartSuccess ;;
                scheduleSuccessMark c ;;
                ret None
            end
          end
        end
      end
    end
  end.

(** ** [Stop] *)

Definition Stop (fired3 fired1 : bool) : M (option error) :=
  r <- get ;;
  match cmd r with
  | Some c =>
      match Process c with
      | Some _ =>
          emit (ESignal c Interrupt) ;;
          match waitDone r with
          | Some ch => boundedReap ch c fired3 fired1
          | None => ret tt
          end
      | None => ret tt
      end
  | None => ret tt
  end ;;
  transition StateStopped.

(** ** The debounce gate and the trigger paths *)

(** [allowTrigger(window)]; [now] is the [time.Now()] it reads. *)
Definition allowTrigger (window : Duration) (now : Time) : M bool :=
  if window <=? 0 then ret true
  else
    r <- get ;;
    if negb (IsZero (lastTrigger r)) && (Sub now (lastTrigger r) <? window)
    then ret false
    else modify (set_lastTrigger now) ;; ret true.

(** [logger.Event(...)] behind an [if logger != nil]. *)
Definition logIf (lg : bool) (level event : string)
  (fields : list (string * Any)) : M unit :=
  if lg then emit (ELog level event fields) else ret tt.

(** [triggerRestart(logger, reason, debounceMs)]: the path of the sleep and
    network monitors and of [RequestRestart]. *)
Definition triggerRestart (lg : bool) (reason : string) (debounceMs : Z)
  (now : Time) : M unit :=
  r <- get ;;
  if negb (State_eqb (sm r) StateConnected) then ret tt
  else
    setLastTriggerReason reason ;;
    ok <- allowTrigger (scale debounceMs Millisecond) now ;;
    if negb ok then
      logIf lg "INFO" "restart_skipped"
            [("reason", AStr reason); ("detail", AStr "debounced")]
    else
      logIf lg "INFO" "restart_triggered" [("reason", AStr reason)] ;;
      terminateProcess.

(** [RequestRestart(reason, debounceMs)]. *)
Definition RequestRestart (reason : string) (debounceMs : Z) (now : Time)
  : M unit :=
  r <- get ;;
  triggerRestart (logger r) reason debounceMs now.

(** One tick of [periodicRestartLoop]: the body of [case <-ticker.C]. *)
Definition periodicTick (debounceMs : Z) (now : Time) : M unit :=
  r <- get ;;
  if negb (State_eqb (sm r) StateConnected) then ret tt
  else
    ok <- allowTrigger (scale debounceMs Millisecond) now ;;
    if negb ok then
      emit (ELog "INFO" "restart_skipped"
                 [("reason", AStr "periodic"); ("detail", AStr "debounced")])
    else
      setLastTriggerReason "periodic" ;;
      emit (ELog "INFO" "restart_triggered" [("reason", AStr "periodic")]) ;;
      terminateProcess.

(** A trigger as the event sources deliver it. *)
Inductive Trigger : Type :=
| Monitor (reason : string)      (* sleep or network monitor callback *)
| Request (reason : string)      (* RequestRestart from the IPC adapter *)
| Periodic.                      (* a tick of the periodic timer *)

Definition reasonOf (t : Trigger) : string :=
  match t with
  | Monitor reason => reason
  | Request reason => reason
  | Periodic => "periodic"
  end.

(** Dispatch of a trigger inside a running [RunWithLogger] (whose logger
    is not nil). *)
Definition deliver (t : Trigger) (debounceMs : Z) (now : Time) : M unit :=
  match t with
  | Monitor reason => triggerRestart true reason debounceMs now
  | Request reason => RequestRestart reason debounceMs now
  | Periodic => periodicTick debounceMs now
  end.

(** ** The restart decision and the main loop *)

Definition isAuthOrHostkey (class : string) : bool :=
  String.eqb class "auth" || String.eqb class "hostkey".

Definition shouldRestart (r : Runner) (exitCode : Z) (err : option WaitErr)
  (class : string) : bool :=
  if isAuthOrHostkey class then false
  else
    match policy r with
    | PolicyOnFailure =>
        match err with Some _ => true | None => negb (exitCode =? 0) end
    | _ => true
    end.

(** The select on [stopCh]: [requested] says that [RequestStop] has closed
    the channel since it was last looked at. *)
Definition pollStop (requested : bool) : M bool :=
  (if requested then modify (set_stopCh true) else ret tt) ;;
  r <- get ;;
  ret (stopCh r).

(** [sleepWithBackoff(logger)].  [delay] is what [r.backoff.Next()]
    returns. *)
Definition sleepWithBackoff (delay : Duration) (stop : bool)
  (fired3 fired1 : bool) : M (option error) :=
  emit (EBackoffNext delay) ;;
  if delay <=? 0 then ret None
  else
    emit (ELog "INFO" "restart_scheduled"
               [("delay_ms", AInt (Milliseconds (Round delay Millisecond)))]) ;;
    stopped <- pollStop stop ;;
    if stopped then
      emit (ELog "INFO" "stop_during_backoff" []) ;;
      Stop fired3 fired1
    else
      emit (ESleep delay) ;;
      ret None.

(** [stderrSummary(lines)]. *)
Definition stderrSummary (lines : option LineBuffer) : string :=
  match lines with
  | None => ""
  | Some b =>
      let list := Lines b in
      match list with
      | [] => ""
      | _ =>
          let summary :=
            String.concat " | " (skipn (List.length list - 2) list) in
          if (200 <? String.length summary)%nat
          then substring 0 200 summary
          else summary
      end
  end.

(** [supervisor.Options], without the monitor configuration. *)
Record Options : Type := mkOptions {
  Kind : string;
  Summary : string;              (* what opts.Summary() returns *)
  PeriodicRestartSec : Z;
  DebounceMs : Z;
  BuildInfo : list (string * Any)
}.

Definition eventName (opts : Options) (suffix : string) : string :=
  if String.eqb (Kind opts) "" then suffix
  else (Kind opts ++ "_" ++ suffix)%string.

(** What the world answers during one turn of the loop. *)
Record IterEnv : Type := mkIterEnv {
  stop_requested : bool;         (* RequestStop ran before the loop head *)
  stop_reap : bool * bool;       (* the two bounded waits, should Stop run *)
  start_env : StartEnv;
  child_stderr : list string;    (* stderr lines drained until the exit *)
  child_exit : option WaitErr;   (* what cmd.Wait() returned *)
  backoff_delay : Duration;      (* r.backoff.Next() *)
  stop_in_backoff : bool         (* RequestStop ran during the backoff sleep *)
}.

(** How one turn of the [for] loop ends. *)
Inductive Flow : Type :=
| Continue
| Return (e : option error).

(** The wait task started by [Start], at the moment the child is reaped. *)
Definition waitTask (c : Cmd) (ch : Chan) (err : option WaitErr) : M unit :=
  modify (fun r =>
    if same_cmd (cmd r) c &&
       match waitDone r with Some ch' => Nat.eqb ch' ch | None => false end
    then set_waitErr err r else r).

(** The stderr drain task: every line goes into the ring. *)
Definition drain (lines : list string) : M unit :=
  modify (fun r =>
    set_errLines (option_map (fun b => fold_left Add lines b) (errLines r)) r).

(** The exit code the loop derives from what [cmd.Wait()] returned: 0 for
    [nil], the code of an [*exec.ExitError], and -1 otherwise. *)
Definition exitCodeOf (err : option WaitErr) : Z :=
  match err with
  | Some (ExitError code) => code
  | Some (OtherError _) => -1
  | None => 0
  end.

Section Loop.

(** Collaborators from packages that are not among the sources:
    [sshutil.ClassifyExit], [sshutil.FormatExit] and [Policy.Name]. *)
Variable ClassifyExit : option LineBuffer -> Z -> option WaitErr -> string.
Variable FormatExit : Z -> option WaitErr -> string.
Variable PolicyName : Policy -> string.

(** The part of the loop body that follows [<-waitDone]. *)
Definition handleExit (env : IterEnv) : M Flow :=
  r <- get ;;
  let err := waitErr r in
  let exitCode := exitCodeOf err in
  match err with
  | Some _ => recordExitFailure
  | None => recordExitSuccess
  end ;;
  r <- get ;;
  let class := ClassifyExit (errLines r) exitCode err in
  setLastClass class ;;
  let exitMsg :=
    if negb (String.eqb class "clean")
    then (FormatExit exitCode err ++ " (" ++ class ++ ")")%string
    else FormatExit exitCode err in
  recordExit exitMsg ;;
  r <- get ;;
  match err with
  | Some _ =>
      let summary := stderrSummary (errLines r) in
      if negb (String.eqb summary "") then
        emit (ELog "ERROR" "ssh_exited"
                   [("exit", AStr exitMsg); ("class", AStr class);
                    ("stderr", AStr summary)])
      else
        emit (ELog "ERROR" "ssh_exited"
                   [("exit", AStr exitMsg); ("class", AStr class)])
  | None =>
      emit (ELog "INFO" "ssh_exited"
                 [("exit", AStr exitMsg); ("class", AStr class)])
  end ;;
  transition StateStopped ;;
  modify (set_child None None None) ;;
  r <- get ;;
  if negb (shouldRestart r exitCode err class) then
    emit (ELog "INFO" "restart_policy_stop"
               [("policy", AStr (PolicyName (policy r)));
                ("class", AStr class)]) ;;
    ret (Return None)
  else if isAuthOrHostkey class then
    emit (ELog "ERROR" "restart_policy_stop"
               [("policy", AStr (PolicyName (policy r)));
                ("class", AStr class);
                ("reason", AStr "manual intervention required")]) ;;
    ret (Return None)
  else
    match err with
    | None => emit EBackoffReset
    | Some _ => ret tt
    end ;;
    modify (fun r => set_restartCount (incr (restartCount r)) r) ;;
    e <- sleepWithBackoff (backoff_delay env) (stop_in_backoff env)
                          (fst (stop_reap env)) (snd (stop_reap env)) ;;
    match e with
    | Some err' => ret (Return (Some err'))
    | None => ret Continue
    end.

(** The class the loop computes for the child of a turn: the classifier on
    the ring the drain task has filled, the exit code and the wait error. *)
Definition classOf (env : IterEnv) : string :=
  ClassifyExit (Some (fold_left Add (child_stderr env) (NewLineBuffer 10)))
               (exitCodeOf (child_exit env)) (child_exit env).

(** The one [restart_policy_stop] event that the first test of the
    restart decision logs. *)
Definition policyStop (r : Runner) (class : string) : Effect :=
  ELog "INFO" "restart_policy_stop"
       [("policy", AStr (PolicyName (policy r))); ("class", AStr class)].

(** One turn of the [for] loop of [RunWithLogger]. *)
Definition iteration (opts : Options) (env : IterEnv) : M Flow :=
  stopped <- pollStop (stop_requested env) ;;
  if stopped then
    emit (ELog "INFO" (eventName opts "stop_requested") []) ;;
    e <- Stop (fst (stop_reap env)) (snd (stop_reap env)) ;;
    ret (Return e)
  else
    e <- Start (start_env env) ;;
    match e with
    | Some err =>
        recordExit ("start failed: " ++ err)%string ;;
        setLastTriggerReason "start failed" ;;
        emit (ELog "ERROR" "ssh_start_failed" [("error", AStr err)]) ;;
        modify (fun r => set_restartCount (incr (restartCount r)) r) ;;
        e' <- sleepWithBackoff (backoff_delay env) (stop_in_backoff env)
                               (fst (stop_reap env)) (snd (stop_reap env)) ;;
        match e' with
        | Some err' => ret (Return (Some err'))
        | None => ret Continue
        end
    | None =>
        emit (ELog "INFO" "ssh_started" [("summary", AStr (Summary opts))]) ;;
        r <- get ;;
        match cmd r, waitDone r with
        | Some c, Some ch =>
            drain (child_stderr env) ;;
            waitTask c ch (child_exit env) ;;
            emit (ERecv ch) ;;
            handleExit env
        | _, _ =>
            recordExit "ssh command not started" ;;
            emit (ELog "ERROR" "ssh_start_failed"
                       [("error", AStr "ssh command not started")]) ;;
            transition StateStopped ;;
            emit (ESleep (scale 2 Second)) ;;
            ret Continue
        end
    end.

(** The [for] loop over a script of answers, one per turn.  [None]: the
    script ran out while the loop was still going. *)
Fixpoint loop (opts : Options) (script : list IterEnv)
  : M (option (option error)) :=
  match script with
  | [] => ret None
  | env :: rest =>
      f <- iteration opts env ;;
      match f with
      | Continue => loop opts rest
      | Return e => ret (Some e)
      end
  end.

(** [RunWithLogger(logger, build, opts)]: the prologue, the loop, and the
    deferred calls that run when it returns. *)
Definition RunWithLogger (opts : Options) (script : list IterEnv)
  : M (option (option error)) :=
  emit (ELog "INFO" (eventName opts "start")
             [("summary", AStr (Summary opts))]) ;;
  match BuildInfo opts with
  | [] => ret tt
  | _ => emit (ELog "INFO" (eventName opts "build_info") (BuildInfo opts))
  end ;;
  setLogger true ;;
  res <- loop opts script ;;
  match res with
  | Some e =>
      setLogger false ;;
      emit (ELog "INFO" (eventName opts "stop") []) ;;
      ret (Some e)
  | None => ret None
  end.

End Loop.

(** In the turn answered by [env] a child is spawned and runs until it
    exits: no stop is pending at the loop head and [Start] returns nil. *)
Definition childRuns (env : IterEnv) (r : Runner) : Prop :=
  stopCh r = false /\ stop_requested env = false /\
  value (Start (start_env env) r) = None.

(** The closed forms of [Start]'s two ways out after the state machine
    has let it in: a failure before the spawn, and the trace of the
    bounded reap. *)
Definition failed (err : error) (r : Runner)
  : option error * Runner * list Effect :=
  (Some err,
   final (recordStartFailure (set_sm StateStopped (set_sm StateConnecting r))),
   [EBuild]).

Definition reapTrace (ch : Chan) (c : Cmd) (f3 f1 : bool) : list Effect :=
  EAwait ch (scale 3 Second) f3 ::
  if f3 then [] else [EKill c; EAwait ch (scale 1 Second) f1].

(** A [Start] whose build, pipes and spawn succeed while another
    goroutine's [Stop] moves the state machine to Stopped; the child
    exits on the first signal. *)
Definition racedEnv : StartEnv :=
  mkStartEnv (inl (mkCmd 1%nat None)) None None (inl 4242%nat) 1%nat
             [StateStopped] true false.

(** Symbolic execution: the outcome [x] of a continuation after the
    effects [t] of what ran before it. *)
Definition prepend {A} (t : list Effect) (x : A * Runner * list Effect)
  : A * Runner * list Effect :=
  (value x, final x, t ++ trace x).

(** The events [RunWithLogger] logs before it enters the loop. *)
Definition prologue (opts : Options) : list Effect :=
  ELog "INFO" (eventName opts "start") [("summary", AStr (Summary opts))] ::
  match BuildInfo opts with
  | [] => []
  | _ => [ELog "INFO" (eventName opts "build_info") (BuildInfo opts)]
  end.

(** Stand-ins for the collaborators in examples: exit code 255 is an
    authentication failure, 0 is clean; exits print as their code's sign;
    policies print their name. *)
Definition sampleClassify (lines : option LineBuffer) (code : Z)
  (err : option WaitErr) : string :=
  if code =? 255 then "auth" else if code =? 0 then "clean" else "unknown".

Definition sampleFormat (code : Z) (err : option WaitErr) : string :=
  if code =? 0 then "exit 0" else "exit non-zero".

Definition sampleName (p : Policy) : string :=
  match p with PolicyAlways => "always" | PolicyOnFailure => "on-failure" end.

Definition sampleOptions : Options := mkOptions "agent" "tunnel" 0 2000 [].

(** A [Start] that nothing disturbs, and a turn in which the child is
    spawned, prints a line and exits with code 255. *)
Definition quietEnv : StartEnv :=
  mkStartEnv (inl (mkCmd 1%nat None)) None None (inl 4242%nat) 1%nat
             [] true false.

Definition deniedTurn : IterEnv :=
  mkIterEnv false (true, false)
            (mkStartEnv (inl (mkCmd 2%nat None)) None None (inl 4243%nat)
                        2%nat [] true false)
            ["Permission denied (publickey)."]
            (Some (ExitError 255)) 2000000000 false.

(** A turn in which the child is spawned and exits with code 1 after the
    server has refused the connection; the backoff then runs its course. *)
Definition refusedTurn : IterEnv :=
  mkIterEnv false (true, false) quietEnv
            ["connect to host foo port 22: Connection refused"]
            (Some (ExitError 1)) 2000000000 false.

(** How many children a trace has spawned. *)
Definition isSpawn (e : Effect) : bool :=
  match e with ESpawn _ => true | _ => false end.

Definition spawns (t : list Effect) : nat := List.length (filter isSpawn t).

(** The two events of the debounce gate. *)
Definition skipped (reason : string) : Effect :=
  ELog "INFO" "restart_skipped"
       [("reason", AStr reason); ("detail", AStr "debounced")].

Definition triggered (reason : string) : Effect :=
  ELog "INFO" "restart_triggered" [("reason", AStr reason)].

(** A trigger went through the gate / was dropped by it, as the log
    shows it. *)
Definition accepted (t : Trigger) (tr : list Effect) : Prop :=
  In (triggered (reasonOf t)) tr /\ ~ In (skipped (reasonOf t)) tr.

Definition dropped (t : Trigger) (tr : list Effect) : Prop :=
  In (skipped (reasonOf t)) tr /\ ~ In (triggered (reasonOf t)) tr.

(** The snapshot a setter hands to the state writer, if there is one. *)
Definition snapshotOf (r : Runner) : list Effect :=
  if stateWriter r then [ESnapshot (snapshotLocked r)] else [].

(** Signals and kills of a trace. *)
Definition isSignal (e : Effect) : bool :=
  match e with ESignal _ _ | EKill _ => true | _ => false end.

(** What [terminateProcess] sends when the runner's child is [c]. *)
Definition termination (r : Runner) : list Effect :=
  match cmd r with
  | Some c =>
      match Process c with
      | Some _ => [ESignal c SIGTERM]
      | None => []
      end
  | None => []
  end.

(** The state machine after the transitions of other goroutines. *)
Definition raced (s : State) (l : list State) : State :=
  fold_left (fun s next => fst (Transition s next)) l s.

(** A runner in the middle of a session: Connected, with child [c] whose
    completion channel is [ch], inside [RunWithLogger]. *)
Definition session (p : Policy) (c : Cmd) (ch : Chan) : Runner :=
  set_logger true
    (set_errLines (Some (NewLineBuffer 10))
       (set_child (Some c) (Some ch) None (set_sm StateConnected (New p)))).

(** A sample child and a fresh session with it. *)
Definition child0 : Cmd := mkCmd 1%nat (Some 4242%nat).
Definition session0 : Runner := session PolicyAlways child0 1%nat.

(** The same session in the older copy, which has no completion
    channel. *)
Definition legacySession : Runner :=
  set_child (Some child0) None None (set_sm StateConnected (New PolicyAlways)).

(** A session that last accepted a trigger at [t], on a wake-up. *)
Definition afterWake (t : Time) : Runner :=
  set_lastTrigger t
    (set_lastTriggerReason "wake" session0).

(** The [restart_policy_stop] events of a trace, by level. *)
Definition isPolicyStop (level : string) (e : Effect) : bool :=
  match e with
  | ELog l ev _ => String.eqb l level && String.eqb ev "restart_policy_stop"
  | _ => false
  end.

End Supervisor.

(* ================================================================== *)
(** * The older copy of package supervisor: [Start] and [Stop]          *)
(* ================================================================== *)

(** The repository holds a second, older [supervisor.go] whose [Runner]
    has no [waitDone]/[waitErr] fields; its [Start] and [Stop] differ from
    the ones above and are embedded here on the same record, leaving those
    two fields alone. *)
Module Legacy.

Import GoTime StateMachine Supervisor.
Local Open Scope string_scope.
Local Open Scope list_scope.
Local Open Scope Z_scope.

Definition Start (env : StartEnv) : M (option error) :=
  e <- transition StateConnecting ;;
  match e with
  | Some err => ret (Some err)
  | None =>
    emit EBuild ;;
    match build env with
    | inr err => failStart err
    | inl c0 =>
      match StdoutPipe env with
      | Some err => failStart err
      | None =>
        match StderrPipe env with
        | Some err => failStart err
        | None =>
          match cmdStart env with
          | inr err => failStart err
          | inl pid =>
            let c := mkCmd (cmd_id c0) (Some pid) in
            emit (ESpawn c) ;;
            modify (fun r => set_errLines (Some (NewLineBuffer 10))
                               (set_child (Some c) (waitDone r) (waitErr r) r)) ;;
            interfere (racing env) ;;
            e <- transition StateConnected ;;
            match e with
            | Some err => ret (Some err)
            | None =>
                recordStartSuccess ;;
                scheduleSuccessMark c ;;
                ret None
            end
          end
        end
      end
    end
  end.

(** [done] is the channel [Stop] makes for its own [cmd.Wait()] goroutine;
    [fired3] says whether that goroutine delivers within 3 s. *)
Definition Stop (done : Chan) (fired3 : bool) : M (option error) :=
  r <- get ;;
  match cmd r with
  | Some c =>
      match Process c with
      | Some _ =>
          emit (ESignal c Interrupt) ;;
          emit (EGoWait c done) ;;
          emit (EAwait done (scale 3 Second) fired3) ;;
          if fired3 then ret tt else emit (EKill c)
      | None => ret tt
      end
  | None => ret tt
  end ;;
  transition StateStopped.

End Legacy.

(* ================================================================== *)
(** * The success-grace task among the other goroutines                *)
(* ================================================================== *)

(** A timed transition system: the goroutine that runs [RunWithLogger]
    (the driver) advances through [Start] and the exit handling one
    shared-memory access at a time, while [Stop] calls, trigger deliveries,
    the clock, the wait task that reaps the child and the grace tasks
    interleave freely. *)
Module Grace.

Import GoTime StateMachine Supervisor.
Local Open Scope Z_scope.

(** Where the driver is. *)
Inductive PC : Type :=
| Idle                    (* outside Start and outside the exit handling *)
| Entered                 (* Start: Transition(Connecting) has succeeded *)
| Spawned (c : Cmd)       (* Start: r.cmd = c is assigned *)
| Marking (c : Cmd)       (* Start: Transition(Connected) has succeeded *)
| Waiting (c : Cmd)       (* Start has returned nil *)
| Exited (c : Cmd).       (* loop: Transition(Stopped) done, r.cmd not yet nil *)

(** A sleeping grace task: the child it captured and the instant before
    which [time.Sleep(successGracePeriod)] cannot return. *)
Definition Task : Type := (Cmd * Time)%type.

Record Sys : Type := mkSys {
  clock : Time;
  runner : Runner;
  tasks : list Task;
  pc : PC;
  fresh : nat                 (* identities below this one are in use *)
}.

Definition init (p : Policy) (t0 : Time) : Sys :=
  mkSys t0 (New p) [] Idle 0.

(** The runner after a monadic action. *)
Definition after {A} (m : M A) (r : Runner) : Runner := final (m r).

(** Fields that only the driver and the grace tasks write. *)
Definition keeps (f : Runner -> Runner) : Prop :=
  forall r, sm (f r) = sm r /\ cmd (f r) = cmd r /\
            lastSuccess (f r) = lastSuccess r.

Inductive step : Sys -> Sys -> Prop :=
| s_tick : forall s d,
    0 <= d ->
    step s (mkSys (clock s + d) (runner s) (tasks s) (pc s) (fresh s))
| s_enter : forall s,                         (* Start: Transition(Connecting) *)
    pc s = Idle ->
    value (transition StateConnecting (runner s)) = None ->
    step s (mkSys (clock s) (after (transition StateConnecting) (runner s))
                  (tasks s) Entered (fresh s))
| s_fail : forall s err,                      (* Start: build/pipe/start error *)
    pc s = Entered ->
    step s (mkSys (clock s) (after (failStart err) (runner s))
                  (tasks s) Idle (fresh s))
| s_spawn : forall s pid ch,                  (* Start: r.cmd = cmd *)
    pc s = Entered ->
    let c := mkCmd (fresh s) (Some pid) in
    step s (mkSys (clock s)
                  (set_errLines (Some (NewLineBuffer 10))
                     (set_child (Some c) (Some ch) None (runner s)))
                  (tasks s) (Spawned c) (S (fresh s)))
| s_connect : forall s c,                     (* Start: Transition(Connected) *)
    pc s = Spawned c ->
    value (transition StateConnected (runner s)) = None ->
    step s (mkSys (clock s) (after (transition StateConnected) (runner s))
                  (tasks s) (Marking c) (fresh s))
| s_rollback : forall s c,                    (* Start: rejected, child dropped *)
    pc s = Spawned c ->
    value (transition StateConnected (runner s)) <> None ->
    step s (mkSys (clock s)
                  (if same_cmd (cmd (runner s)) c
                   then set_child None None None (runner s) else runner s)
                  (tasks s) Idle (fresh s))
| s_rollback_legacy : forall s c,             (* older Start: rejected, return *)
    pc s = Spawned c ->
    value (transition StateConnected (runner s)) <> None ->
    step s (mkSys (clock s) (runner s) (tasks s) Idle (fresh s))
| s_schedule : forall s c,                    (* Start: scheduleSuccessMark *)
    pc s = Marking c ->
    step s (mkSys (clock s) (after recordStartSuccess (runner s))
                  ((c, clock s + successGracePeriod) :: tasks s)
                  (Waiting c) (fresh s))
| s_exit : forall s c,                        (* loop: Transition(Stopped) *)
    pc s = Waiting c ->
    step s (mkSys (clock s) (after (transition StateStopped) (runner s))
                  (tasks s) (Exited c) (fresh s))
| s_clear : forall s c,                       (* loop: r.cmd = nil *)
    pc s = Exited c ->
    step s (mkSys (clock s) (set_child None None None (runner s))
                  (tasks s) Idle (fresh s))
| s_stop : forall s,                          (* any Stop(): Transition(Stopped) *)
    step s (mkSys (clock s) (after (transition StateStopped) (runner s))
                  (tasks s) (pc s) (fresh s))
| s_other : forall s f,                       (* triggers, counters, records *)
    keeps f ->
    step s (mkSys (clock s) (f (runner s)) (tasks s) (pc s) (fresh s))
| s_reap : forall s c ch err,                 (* a wait task: cmd.Wait() returned *)
    step s (mkSys (clock s) (after (waitTask c ch err) (runner s))
                  (tasks s) (pc s) (fresh s))
| s_fire : forall s pre c due post,           (* a grace task wakes up *)
    tasks s = pre ++ (c, due) :: post ->
    due <= clock s ->
    step s (mkSys (clock s) (after (successMark c (clock s)) (runner s))
                  (pre ++ post) (pc s) (fresh s)).

(** [run s past]: [s] is reachable, and [past] lists the states it went
    through, the latest first. *)
Inductive run (p : Policy) (t0 : Time) : Sys -> list Sys -> Prop :=
| run_init : run p t0 (init p t0) []
| run_step : forall s past s',
    run p t0 s past -> step s s' -> run p t0 s' (s :: past).

(** The state machine shows Connected and [c] is the current child. *)
Definition connectedWith (c : Cmd) (s : Sys) : Prop :=
  sm (runner s) = StateConnected /\ cmd (runner s) = Some c.

(** Along [now :: past] the runner has been Connected with child [c] at
    every state since some state [x] whose clock was at most [limit]. *)
Definition connectedSince (c : Cmd) (limit : Time) (l : list Sys) : Prop :=
  exists recent x older,
    l = recent ++ x :: older /\
    clock x <= limit /\
    Forall (connectedWith c) (recent ++ [x]).

(** ** The invariant of the runs *)

(** A sleeping task is sound: its child is an allocated one and, whenever
    a child of that identity is the current one and the machine shows
    Connected, it is that very child and has been so since the task was
    put to sleep. *)
Definition taskSound (s : Sys) (past : list Sys) (t : Task) : Prop :=
  (cmd_id (fst t) < fresh s)%nat /\
  forall c', cmd (runner s) = Some c' -> cmd_id c' = cmd_id (fst t) ->
             sm (runner s) = StateConnected ->
             c' = fst t /\
             connectedSince (fst t) (snd t - successGracePeriod) (s :: past).

Definition driverSound (s : Sys) : Prop :=
  match pc s with
  | Spawned c =>
      cmd (runner s) = Some c /\
      forall t, In t (tasks s) -> cmd_id (fst t) <> cmd_id c
  | Marking c => cmd (runner s) = Some c
  | _ => True
  end.

Definition Inv (s : Sys) (past : list Sys) : Prop :=
  (forall c', cmd (runner s) = Some c' -> (cmd_id c' < fresh s)%nat) /\
  Forall (taskSound s past) (tasks s) /\
  driverSound s.

(** A run in which the first child stays up: enter, spawn, connect,
    schedule, two seconds pass, the grace task fires. *)
Definition demoChild : Cmd := mkCmd 0%nat (Some 4242%nat).

Definition d0 : Sys := init PolicyAlways (1000 * Second).

Definition d1 : Sys :=
  mkSys (clock d0) (after (transition StateConnecting) (runner d0))
        [] Entered 0%nat.

Definition d2 : Sys :=
  mkSys (clock d0)
        (set_errLines (Some (NewLineBuffer 10))
           (set_child (Some demoChild) (Some 1%nat) None (runner d1)))
        [] (Spawned demoChild) 1%nat.

Definition d3 : Sys :=
  mkSys (clock d0) (after (transition StateConnected) (runner d2))
        [] (Marking demoChild) 1%nat.

Definition d4 : Sys :=
  mkSys (clock d0) (after recordStartSuccess (runner d3))
        [(demoChild, clock d0 + successGracePeriod)] (Waiting demoChild) 1%nat.

Definition d5 : Sys :=
  mkSys (clock d0 + successGracePeriod) (runner d4) (tasks d4) (pc d4) 1%nat.

Definition d6 : Sys :=
  mkSys (clock d5) (after (successMark demoChild (clock d5)) (runner d5))
        [] (pc d5) 1%nat.

(** A run in which the first child does not stay up: armed as above, the
    child exits with status 255 one millisecond before the grace period
    ends and the wait task records it; the driver, woken by the closed
    channel, is still before its [Transition(Stopped)] when the grace task
    fires. *)
Definition x5 : Sys :=
  mkSys (clock d4 + 1999 * Millisecond) (runner d4) (tasks d4) (pc d4) 1%nat.

Definition x6 : Sys :=
  mkSys (clock x5)
        (after (waitTask demoChild 1%nat (Some (ExitError 255))) (runner x5))
        (tasks x5) (pc x5) 1%nat.

Definition x7 : Sys :=
  mkSys (clock x6 + 1 * Millisecond) (runner x6) (tasks x6) (pc x6) 1%nat.

Definition x8 : Sys :=
  mkSys (clock x7) (after (successMark demoChild (clock x7)) (runner x7))
        [] (pc x7) 1%nat.

End Grace.

(* ================================================================== *)
(** * Package monitor: the polling network watcher                     *)
(* ================================================================== *)

Module Monitor.

Local Open Scope string_scope.
Local Open Scope list_scope.
Local Open Scope Z_scope.

(** [net.Flags] bits. *)
Definition FlagUp : Z := 1.
Definition FlagBroadcast : Z := 2.
Definition FlagLoopback : Z := 4.
Definition FlagPointToPoint : Z := 8.
Definition FlagMulticast : Z := 16.
Definition FlagRunning : Z := 32.

(** A [net.Interface] together with what [iface.Addrs()] answers: the
    addresses as [addr.String()] prints them, or [None] for an error. *)
Record Interface : Type := mkInterface {
  Name : string;
  Flags : Z;
  Addrs : option (list string)
}.

(** [sort.Strings]: the ascending arrangement of the slice under Go's
    byte-wise string order.  Equal strings are indistinguishable, so the
    result does not depend on the algorithm; insertion computes it. *)
Fixpoint insertString (s : string) (l : list string) : list string :=
  match l with
  | [] => [s]
  | x :: l' => if String.leb s x then s :: l else x :: insertString s l'
  end.

Definition sortStrings (l : list string) : list string :=
  fold_right insertString [] l.

(** The body of the [for _, iface := range ifaces] loop. *)
Definition visit (entries : list string) (iface : Interface) : list string :=
  if Z.land (Flags iface) FlagUp =? 0 then entries
  else if negb (Z.land (Flags iface) FlagLoopback =? 0) then entries
  else
    match Addrs iface with
    | None => entries
    | Some addrs =>
        fold_left
          (fun acc addr => acc ++ [(Name iface ++ "|" ++ addr)%string])
          addrs entries
    end.

(** [networkFingerprint()].  [ifaces] is what [net.Interfaces()] answers,
    [None] for an error. *)
Definition networkFingerprint (ifaces : option (list Interface))
  : option string :=
  match ifaces with
  | None => None
  | Some l =>
      let entries := fold_left visit l [] in
      Some (String.concat "," (sortStrings entries))
  end.

(** What the watcher does besides remembering [prev]. *)
Inductive Output : Type :=
| LogError (msg : string)
| LogInfo (msg : string)
| OnEvent (reason : string).

(** [prev, _ := networkFingerprint()]: an error leaves the empty string. *)
Definition firstFingerprint (poll : option string) : string :=
  match poll with
  | Some fp => fp
  | None => ""
  end.

(** One [case <-ticker.C] of [networkWatcher]: the new [prev] and the
    outputs (the text of a poll's error is not kept). *)
Definition tick (prev : string) (poll : option string)
  : string * list Output :=
  match poll with
  | None => (prev, [LogError "network fingerprint failed"])
  | Some next =>
      if negb (String.eqb next prev)
      then (next, [LogInfo "network change detected";
                   OnEvent "network change"])
      else (prev, [])
  end.

(** The watcher over the polls of successive ticks: the outputs of each
    tick, in order. *)
Fixpoint ticks (prev : string) (polls : list (option string))
  : list (list Output) :=
  match polls with
  | [] => []
  | p :: rest => snd (tick prev p) :: ticks (fst (tick prev p)) rest
  end.

(** [networkWatcher] from its first poll on. *)
Definition networkWatcher (first : option string)
  (polls : list (option string)) : list (list Output) :=
  ticks (firstFingerprint first) polls.

(** The triggers among some outputs. *)
Definition triggers (out : list Output) : list string :=
  flat_map (fun o => match o with OnEvent reason => [reason] | _ => [] end) out.

(** ** The fingerprint in the specification's words *)

Definition isUp (i : Interface) : bool := Z.testbit (Flags i) 0.
Definition isLoopback (i : Interface) : bool := Z.testbit (Flags i) 2.

(** The ["<interface-name>|<address>"] pairs of all up, non-loopback
    interfaces, an interface whose address lookup fails contributing
    none. *)
Definition pairs (ifaces : list Interface) : list string :=
  flat_map
    (fun i =>
       match Addrs i with
       | Some addrs => map (fun a => (Name i ++ "|" ++ a)%string) addrs
       | None => []
       end)
    (filter (fun i => isUp i && negb (isLoopback i)) ifaces).

(** Ascending in the lexicographic order of strings. *)
Definition ascending (l : list string) : Prop :=
  StronglySorted (fun a b => String.leb a b = true) l.

(** How many fingerprints of a sequence differ from their predecessor. *)
Fixpoint changes (prev : string) (fps : list string) : nat :=
  match fps with
  | [] => O
  | fp :: rest =>
      ((if String.eqb fp prev then 0 else 1) + changes fp rest)%nat
  end.

(** The scenario's interfaces. *)
Definition eth0 : Interface :=
  mkInterface "eth0" (Z.lor FlagUp (Z.lor FlagBroadcast FlagMulticast))
              (Some ["10.0.0.2/24"]).
Definition lo : Interface :=
  mkInterface "lo" (Z.lor FlagUp FlagLoopback) (Some ["127.0.0.1/8"]).
Definition en1_down : Interface :=
  mkInterface "en1" (Z.lor FlagBroadcast FlagMulticast)
              (Some ["192.168.1.2/24"]).
Definition en1_up : Interface :=
  mkInterface "en1" (Z.lor FlagUp (Z.lor FlagBroadcast FlagMulticast))
              (Some ["192.168.1.2/24"]).

End Monitor.

(* ================================================================== *)
(** * Go's [strings] package, as far as the configuration uses it      *)
(* ================================================================== *)

Module GoStrings.

Local Open Scope string_scope.
Local Open Scope list_scope.

(** [strings.IndexAny(s, chars)] for ASCII [chars]: the index of the
    first byte of [s] that is one of [chars], or [None] for -1. *)
Fixpoint IndexAny (s : string) (chars : list ascii) : option nat :=
  match s with
  | EmptyString => None
  | String c rest =>
      if existsb (Ascii.eqb c) chars then Some O
      else option_map S (IndexAny rest chars)
  end.

(** The ASCII instances of [strings.TrimSpace] and [strings.ToLower]:
    what the two functions do on strings without bytes above 0x7F (both
    have a fast path for them). *)
Definition isAsciiSpace (c : ascii) : bool :=
  match N_of_ascii c with
  | 9 | 10 | 11 | 12 | 13 | 32 => true
  | _ => false
  end%N.

Fixpoint trimLeft (s : string) : string :=
  match s with
  | EmptyString => ""
  | String c rest => if isAsciiSpace c then trimLeft rest else s
  end.

Fixpoint trimRight (s : string) : string :=
  match s with
  | EmptyString => ""
  | String c rest =>
      match trimRight rest with
      | EmptyString => if isAsciiSpace c then "" else String c ""
      | rest' => String c rest'
      end
  end.

Definition asciiTrimSpace (s : string) : string := trimRight (trimLeft s).

Definition lowerByte (c : ascii) : ascii :=
  let n := N_of_ascii c in
  if ((65 <=? n) && (n <=? 90))%N then ascii_of_N (n + 32) else c.

Fixpoint asciiToLower (s : string) : string :=
  match s with
  | EmptyString => ""
  | String c rest => String (lowerByte c) (asciiToLower rest)
  end.

End GoStrings.

(* ================================================================== *)
(** * Package config                                                   *)
(* ================================================================== *)

Module Config.

Import GoStrings.
Local Open Scope string_scope.
Local Open Scope list_scope.
Local Open Scope Z_scope.

Record RestartConfig : Type := mkRestartConfig {
  MinDelayMs : Z;
  MaxDelayMs : Z;
  Factor : float;
  Jitter : float;
  DebounceMs : Z
}.

Module AgentConfig.
Record t : Type := mk {
  Name : string;
  LaunchdLabel : string;
  RestartPolicy : string;
  Restart : RestartConfig;
  PeriodicRestartSec : Z;
  SleepCheckSec : Z;
  SleepGapSec : Z;
  NetworkPollSec : Z;
  PreventSleep : bool
}.
End AgentConfig.

Module ClientConfig.
Record t : Type := mk {
  Name : string;
  LaunchdLabel : string;
  RestartPolicy : string;
  Restart : RestartConfig;
  PeriodicRestartSec : Z;
  SleepCheckSec : Z;
  SleepGapSec : Z;
  NetworkPollSec : Z;
  LocalForwards : list string;
  PreventSleep : bool
}.
End ClientConfig.

Record SSHConfig : Type := mkSSHConfig {
  User : string;
  Host : string;
  Port : Z;
  RemoteForwards : list string;
  IdentityFile : string;
  Options : list string;
  CheckSec : Z
}.

Record LoggingConfig : Type := mkLoggingConfig {
  Level : string;
  Path : string
}.

Record Config : Type := mkConfig {
  Agent : AgentConfig.t;
  Client : ClientConfig.t;
  SSH : SSHConfig;
  Logging : LoggingConfig;
  ClientLogging : LoggingConfig
}.

(** The errors of the package, by the message that [errors.New] or
    [fmt.Errorf] builds; the arguments are the values formatted into it. *)
Inductive Error : Type :=
| ErrConfigNil                         (* config is nil *)
| ErrHostRequired                      (* ssh.host is required *)
| ErrUserRequired                      (* ssh.user is required *)
| ErrPort (got : Z)                    (* ssh.port must be > 0 (got %d) *)
| ErrCheckSec (got : Z)                (* ssh.check_sec must be >= 0 (got %d) *)
| ErrRemoteForwardsRequired            (* ssh.remote_forwards is required *)
| ErrLocalForwardsRequired             (* client.local_forwards is required *)
| ErrPolicy (label policy : string)    (* %s.restart_policy must be always or on-failure (got %q) *)
| ErrDelaySign (label : string)        (* %s.restart min/max delay must be >= 0 *)
| ErrDelayOrder (label : string)       (* %s.restart min delay must be <= max delay *)
| ErrFactor (label : string)           (* %s.restart factor must be >= 1.0 *)
| ErrJitter (label : string)           (* %s.restart jitter must be between 0 and 1 *)
| ErrDebounce (label : string)         (* %s.restart debounce_ms must be >= 0 *)
| ErrPeriodic (label : string)         (* %s.periodic_restart_sec must be >= 0 *)
| ErrSleepCheck (label : string)       (* %s.sleep_check_sec must be >= 0 *)
| ErrSleepGap (label : string)         (* %s.sleep_gap_sec must be >= 0 *)
| ErrNetworkPoll (label : string).     (* %s.network_poll_sec must be >= 0 *)

(** The idioms of [applyDefaults]: [if x == "" { x = d }],
    [if x == 0 { x = d }] on an [int] and on a [float64]. *)
Definition orString (x d : string) : string :=
  if String.eqb x "" then d else x.

Definition orInt (x d : Z) : Z := if x =? 0 then d else x.

Definition orFloat (x d : float) : float :=
  if (x =? 0)%float then d else x.

Section Strings.

(** [strings.TrimSpace] and [strings.ToLower] of the Go standard library;
    their Unicode tables are not reproduced here. *)
Variable TrimSpace : string -> string.
Variable ToLower : string -> string.

(** [optionKey(value)]. *)
Definition optionKey (value : string) : string :=
  let trimmed := TrimSpace value in
  if String.eqb trimmed "" then ""
  else
    match IndexAny trimmed [" "%char; "="%char] with
    | Some idx => ToLower (substring 0 idx trimmed)
    | None => ToLower trimmed
    end.

(** [ensureSSHOption(options, value)]: the slice afterwards. *)
Definition ensureSSHOption (options : list string) (value : string)
  : list string :=
  let key := optionKey value in
  if String.eqb key "" then options
  else if existsb (fun opt => String.eqb (optionKey opt) key) options
  then options
  else options ++ [value].

Definition defaultRestart (r : RestartConfig) : RestartConfig :=
  mkRestartConfig
    (orInt (MinDelayMs r) 2000)
    (orInt (MaxDelayMs r) 30000)
    (orFloat (Factor r) 2)
    (orFloat (Jitter r) 0x1.999999999999ap-3)
    (orInt (DebounceMs r) 2000).

(** [applyDefaults(cfg)]: the configuration afterwards.  A nil
    [SSH.Options] and an empty one are both the empty list here. *)
Definition applyDefaults (cfg : Config) : Config :=
  let a := Agent cfg in
  let c := Client cfg in
  let s := SSH cfg in
  mkConfig
    (AgentConfig.mk
       (orString (AgentConfig.Name a) "rpa-agent")
       (orString (AgentConfig.LaunchdLabel a) "com.rpa.agent")
       (orString (AgentConfig.RestartPolicy a) "always")
       (defaultRestart (AgentConfig.Restart a))
       (if AgentConfig.PeriodicRestartSec a <? 0 then 0
        else AgentConfig.PeriodicRestartSec a)
       (orInt (AgentConfig.SleepCheckSec a) 5)
       (orInt (AgentConfig.SleepGapSec a) 30)
       (orInt (AgentConfig.NetworkPollSec a) 5)
       (AgentConfig.PreventSleep a))
    (ClientConfig.mk
       (orString (ClientConfig.Name c) "rpa-client")
       (orString (ClientConfig.LaunchdLabel c) "com.rpa.client")
       (orString (ClientConfig.RestartPolicy c) "always")
       (defaultRestart (ClientConfig.Restart c))
       (if ClientConfig.PeriodicRestartSec c <? 0 then 0
        else ClientConfig.PeriodicRestartSec c)
       (orInt (ClientConfig.SleepCheckSec c) 5)
       (orInt (ClientConfig.SleepGapSec c) 30)
       (orInt (ClientConfig.NetworkPollSec c) 5)
       (ClientConfig.LocalForwards c)
       (ClientConfig.PreventSleep c))
    (mkSSHConfig
       (User s) (Host s)
       (orInt (Port s) 22)
       (RemoteForwards s)
       (IdentityFile s)
       (ensureSSHOption
          (ensureSSHOption
             (ensureSSHOption (Options s) "ServerAliveInterval=30")
             "ServerAliveCountMax=3")
          "StrictHostKeyChecking=accept-new")
       (orInt (CheckSec s) 5))
    (mkLoggingConfig
       (orString (Level (Logging cfg)) "info")
       (orString (Path (Logging cfg)) "~/.rpa/logs/agent.log"))
    (mkLoggingConfig
       (orString (Level (ClientLogging cfg)) "info")
       (orString (Path (ClientLogging cfg)) "~/.rpa/logs/client.log")).

(** [ApplyDefaults(cfg)], [cfg] possibly nil. *)
Definition ApplyDefaults (cfg : option Config) : option Config :=
  option_map applyDefaults cfg.

(** The closure [add] with its captured [out] and [seen]; every value
    of [seen] is in [out] and conversely, so [out] stands for both. *)
Definition add (out : list string) (value : string) : list string :=
  let trimmed := TrimSpace value in
  if String.eqb trimmed "" then out
  else if existsb (String.eqb trimmed) out then out
  else out ++ [trimmed].

(** The loop shared by the four functions below. *)
Definition normalize (values : list string) : list string :=
  fold_left add values [].

(** [NormalizeRemoteForwards(cfg)] and [NormalizeLocalForwards(cfg)]. *)
Definition NormalizeRemoteForwards (cfg : option Config) : list string :=
  match cfg with
  | None => []
  | Some c => normalize (RemoteForwards (SSH c))
  end.

Definition NormalizeLocalForwards (cfg : option Config) : list string :=
  match cfg with
  | None => []
  | Some c => normalize (ClientConfig.LocalForwards (Client c))
  end.

(** [SetRemoteForwards(cfg, forwards)] and [SetLocalForwards]. *)
Definition withRemoteForwards (c : Config) (l : list string) : Config :=
  let s := SSH c in
  mkConfig (Agent c) (Client c)
    (mkSSHConfig (User s) (Host s) (Port s) l (IdentityFile s)
                 (Options s) (CheckSec s))
    (Logging c) (ClientLogging c).

Definition withLocalForwards (c : Config) (l : list string) : Config :=
  let k := Client c in
  mkConfig (Agent c)
    (ClientConfig.mk
       (ClientConfig.Name k) (ClientConfig.LaunchdLabel k)
       (ClientConfig.RestartPolicy k) (ClientConfig.Restart k)
       (ClientConfig.PeriodicRestartSec k) (ClientConfig.SleepCheckSec k)
       (ClientConfig.SleepGapSec k) (ClientConfig.NetworkPollSec k)
       l (ClientConfig.PreventSleep k))
    (SSH c) (Logging c) (ClientLogging c).

(** The bodies after the nil guard, and the functions themselves: on a
    nil [cfg] they do nothing. *)
Definition setRemoteForwards (c : Config) (forwards : list string) : Config :=
  withRemoteForwards c (normalize forwards).

Definition setLocalForwards (c : Config) (forwards : list string) : Config :=
  withLocalForwards c (normalize forwards).

Definition SetRemoteForwards (cfg : option Config) (forwards : list string)
  : option Config :=
  option_map (fun c => setRemoteForwards c forwards) cfg.

Definition SetLocalForwards (cfg : option Config) (forwards : list string)
  : option Config :=
  option_map (fun c => setLocalForwards c forwards) cfg.

(** [mergeLocalForwards(single, list)]. *)
Definition mergeLocalForwards (single : string) (forwards : list string)
  : list string :=
  (if negb (String.eqb (TrimSpace single) "") then [single] else [])
  ++ forwards.

(** [validateCommon(cfg)]. *)
Definition validateCommon (cfg : option Config) : option Error :=
  match cfg with
  | None => Some ErrConfigNil
  | Some c =>
      if String.eqb (TrimSpace (Host (SSH c))) "" then Some ErrHostRequired
      else if String.eqb (TrimSpace (User (SSH c))) "" then Some ErrUserRequired
      else if Port (SSH c) <=? 0 then Some (ErrPort (Port (SSH c)))
      else if CheckSec (SSH c) <? 0 then Some (ErrCheckSec (CheckSec (SSH c)))
      else None
  end.

(** [validateSupervisor(policy, restartCfg, periodic, sleepCheck,
    sleepGap, networkPoll, label)]. *)
Definition validateSupervisor (policy : string) (restartCfg : RestartConfig)
  (periodic sleepCheck sleepGap networkPoll : Z) (label : string)
  : option Error :=
  if negb (String.eqb (ToLower policy) "always" ||
           String.eqb (ToLower policy) "on-failure")
  then Some (ErrPolicy label policy)
  else if (MinDelayMs restartCfg <? 0) || (MaxDelayMs restartCfg <? 0)
  then Some (ErrDelaySign label)
  else if (0 <? MaxDelayMs restartCfg) &&
          (MaxDelayMs restartCfg <? MinDelayMs restartCfg)
  then Some (ErrDelayOrder label)
  else if (Factor restartCfg <? 1)%float then Some (ErrFactor label)
  else if (Jitter restartCfg <? 0)%float || (1 <? Jitter restartCfg)%float
  then Some (ErrJitter label)
  else if DebounceMs restartCfg <? 0 then Some (ErrDebounce label)
  else if periodic <? 0 then Some (ErrPeriodic label)
  else if sleepCheck <? 0 then Some (ErrSleepCheck label)
  else if sleepGap <? 0 then Some (ErrSleepGap label)
  else if networkPoll <? 0 then Some (ErrNetworkPoll label)
  else None.

(** [ValidateAgent(cfg)] and [ValidateClient(cfg)]. *)
Definition ValidateAgent (cfg : option Config) : option Error :=
  match validateCommon cfg with
  | Some err => Some err
  | None =>
      match NormalizeRemoteForwards cfg, cfg with
      | [], _ => Some ErrRemoteForwardsRequired
      | _, None => Some ErrConfigNil     (* not reached: nil was rejected *)
      | _, Some c =>
          let a := Agent c in
          validateSupervisor
            (AgentConfig.RestartPolicy a) (AgentConfig.Restart a)
            (AgentConfig.PeriodicRestartSec a) (AgentConfig.SleepCheckSec a)
            (AgentConfig.SleepGapSec a) (AgentConfig.NetworkPollSec a) "agent"
      end
  end.

Definition ValidateClient (cfg : option Config) : option Error :=
  match validateCommon cfg with
  | Some err => Some err
  | None =>
      match NormalizeLocalForwards cfg, cfg with
      | [], _ => Some ErrLocalForwardsRequired
      | _, None => Some ErrConfigNil     (* not reached: nil was rejected *)
      | _, Some c =>
          let k := Client c in
          validateSupervisor
            (ClientConfig.RestartPolicy k) (ClientConfig.Restart k)
            (ClientConfig.PeriodicRestartSec k) (ClientConfig.SleepCheckSec k)
            (ClientConfig.SleepGapSec k) (ClientConfig.NetworkPollSec k)
            "client"
      end
  end.

(** The key of [value] is among the keys of [opts], or is empty (an
    option without a key is never added). *)
Definition hasKey (key : string) (opts : list string) : bool :=
  String.eqb key "" || existsb (fun opt => String.eqb (optionKey opt) key) opts.

End Strings.

(** The three options that [applyDefaults] ensures, in its order. *)
Definition defaultOptions : list string :=
  ["ServerAliveInterval=30"; "ServerAliveCountMax=3";
   "StrictHostKeyChecking=accept-new"].

(** A configuration as a user writes it: nothing but the server, one
    forward each way (the remote one twice, with stray blanks) and one
    option of their own. *)
Definition sampleConfig : Config :=
  mkConfig
    (AgentConfig.mk "" "" "" (mkRestartConfig 0 0 0 0 0) 0 0 0 0 false)
    (ClientConfig.mk "" "" "" (mkRestartConfig 0 0 0 0 0) 0 0 0 0
       ["127.0.0.1:8080:localhost:80"] false)
    (mkSSHConfig "tunnel" "example.com" 0
       [" 0.0.0.0:2222:localhost:22 "; "0.0.0.0:2222:localhost:22"] ""
       ["serveraliveinterval 15"] 0)
    (mkLoggingConfig "" "") (mkLoggingConfig "" "").

End Config.

(* ================================================================== *)
(** * Packages agent and client: the forwards at run time              *)
(* ================================================================== *)

Module Forwards.

Import Config.
Local Open Scope string_scope.
Local Open Scope list_scope.
Local Open Scope Z_scope.

(** What an [Agent] or a [Client] asks of its runner. *)
Inductive Call : Type :=
| CallRestart (reason : string) (debounceMs : Z)
                                  (* runner.RequestRestart(reason, debounceMs) *)
| CallStop.                       (* runner.RequestStop() *)

(** The loop [for _, existing := range current] of the two [Remove]
    methods: the entries kept, and whether one was dropped. *)
Definition without (trimmed : string) (current : list string)
  : list string * bool :=
  fold_left
    (fun acc existing =>
       if String.eqb existing trimmed then (fst acc, true)
       else (fst acc ++ [existing], snd acc))
    current ([], false).

Section Strings.

Variable TrimSpace : string -> string.

Local Notation "'NormalizeRemoteForwards'" :=
  (Config.NormalizeRemoteForwards TrimSpace).
Local Notation "'NormalizeLocalForwards'" :=
  (Config.NormalizeLocalForwards TrimSpace).
Local Notation "'setRemoteForwards'" := (Config.setRemoteForwards TrimSpace).
Local Notation "'setLocalForwards'" := (Config.setLocalForwards TrimSpace).

(** ** [Agent] (package agent); [cfg] is what [a.cfg] points to *)

(** [a.RequestRestart(reason)] and [a.RequestStop()]. *)
Definition agentRestart (cfg : Config) (reason : string) : Call :=
  CallRestart reason (DebounceMs (AgentConfig.Restart (Agent cfg))).

(** [a.AddRemoteForward(forward)]: the two results, the configuration
    afterwards and the calls on the runner. *)
Definition AddRemoteForward (forward : string) (cfg : Config)
  : (bool * option string) * Config * list Call :=
  let trimmed := TrimSpace forward in
  if String.eqb trimmed "" then
    ((false, Some "remote forward is required"), cfg, [])
  else
    let current := NormalizeRemoteForwards (Some cfg) in
    if existsb (fun existing => String.eqb existing trimmed) current then
      ((false, None), cfg, [])
    else
      let cfg' := setRemoteForwards cfg (current ++ [trimmed]) in
      ((true, None), cfg', [agentRestart cfg' "remote forward added"]).

(** [a.RemoveRemoteForward(forward)]. *)
Definition RemoveRemoteForward (forward : string) (cfg : Config)
  : (bool * option string) * Config * list Call :=
  let trimmed := TrimSpace forward in
  if String.eqb trimmed "" then
    ((false, Some "remote forward is required"), cfg, [])
  else
    let current := NormalizeRemoteForwards (Some cfg) in
    let '(next, removed) := without trimmed current in
    if negb removed then ((false, None), cfg, [])
    else if (List.length next =? 0)%nat then
      ((false, Some "at least one remote forward is required"), cfg, [])
    else
      let cfg' := setRemoteForwards cfg next in
      ((true, None), cfg', [agentRestart cfg' "remote forward removed"]).

(** [a.ClearRemoteForwards()]. *)
Definition ClearRemoteForwards (cfg : Config) : bool * Config * list Call :=
  let current := NormalizeRemoteForwards (Some cfg) in
  if (List.length current =? 0)%nat then (false, cfg, [])
  else (true, setRemoteForwards cfg [], [CallStop]).

(** [a.RemoteForwards()]. *)
Definition RemoteForwards (cfg : Config) : list string :=
  NormalizeRemoteForwards (Some cfg).

(** ** [Client] (package client) *)

Definition clientRestart (cfg : Config) (reason : string) : Call :=
  CallRestart reason (DebounceMs (ClientConfig.Restart (Client cfg))).

(** [c.EnsureLocalForward(forward)]. *)
Definition EnsureLocalForward (forward : string) (cfg : Config)
  : bool * Config * list Call :=
  let trimmed := TrimSpace forward in
  if String.eqb trimmed "" then (false, cfg, [])
  else
    let current := NormalizeLocalForwards (Some cfg) in
    if existsb (fun existing => String.eqb existing trimmed) current then
      (false, cfg, [])
    else (true, setLocalForwards cfg (current ++ [trimmed]), []).

(** [c.RemoveLocalForward(forward)]. *)
Definition RemoveLocalForward (forward : string) (cfg : Config)
  : (bool * option string) * Config * list Call :=
  let trimmed := TrimSpace forward in
  if String.eqb trimmed "" then
    ((false, Some "local forward is required"), cfg, [])
  else
    let current := NormalizeLocalForwards (Some cfg) in
    let '(next, removed) := without trimmed current in
    if negb removed then ((false, None), cfg, [])
    else if (List.length next =? 0)%nat then
      ((false, Some "at least one local forward is required"), cfg, [])
    else
      let cfg' := setLocalForwards cfg next in
      ((true, None), cfg', [clientRestart cfg' "local forward removed"]).

(** [c.ClearLocalForwards()]. *)
Definition ClearLocalForwards (cfg : Config) : bool * Config * list Call :=
  let current := NormalizeLocalForwards (Some cfg) in
  if (List.length current =? 0)%nat then (false, cfg, [])
  else (true, setLocalForwards cfg [], [CallStop]).

(** [c.LocalForwards()]. *)
Definition LocalForwards (cfg : Config) : list string :=
  NormalizeLocalForwards (Some cfg).

(** ** The IPC servers' handlers for the forwards *)

(** [type response struct]. *)
Record response : Type := mkResponse {
  OK : bool;
  Message : string;
  Data : list (string * string);
  Logs : list string
}.

(** [fmt.Sprintf("%t", b)]. *)
Definition fmtBool (b : bool) : string := if b then "true" else "false".

(** [args[key]] on a [map[string]string] that may be nil: the empty
    string when the key is missing. *)
Definition arg (args : option (list (string * string))) (key : string)
  : string :=
  match args with
  | None => ""
  | Some l =>
      match find (fun kv => String.eqb (fst kv) key) l with
      | Some kv => snd kv
      | None => ""
      end
  end.

(** Package agent/ipc: [handleAddForward], [handleRemoveForward],
    [handleClearForwards]: the response written, the configuration
    afterwards and the calls on the runner. *)
Definition handleAddForward (args : option (list (string * string)))
  (cfg : Config) : response * Config * list Call :=
  let forward := arg args "remote_forward" in
  let '((added, err), cfg', calls) := AddRemoteForward forward cfg in
  match err with
  | Some msg => (mkResponse false msg [] [], cfg', calls)
  | None =>
      (mkResponse true
         (if added then "remote forward added"
          else "remote forward already present")
         [("added", fmtBool added)] [],
       cfg', calls)
  end.

Definition handleRemoveForward (args : option (list (string * string)))
  (cfg : Config) : response * Config * list Call :=
  let forward := arg args "remote_forward" in
  let '((removed, err), cfg', calls) := RemoveRemoteForward forward cfg in
  match err with
  | Some msg => (mkResponse false msg [] [], cfg', calls)
  | None =>
      (mkResponse true
         (if removed then "remote forward removed"
          else "remote forward not found")
         [("removed", fmtBool removed)] [],
       cfg', calls)
  end.

Definition handleClearForwards (cfg : Config)
  : response * Config * list Call :=
  let '(cleared, cfg', calls) := ClearRemoteForwards cfg in
  (mkResponse true
     (if cleared then "remote forwards cleared; stopping agent"
      else "no remote forwards to clear")
     [("cleared", fmtBool cleared)] [],
   cfg', calls).

(** Package client/ipc: [handleAddLocalForward],
    [handleRemoveLocalForward], [handleClearLocalForwards]. *)
Definition handleAddLocalForward (args : option (list (string * string)))
  (cfg : Config) : response * Config * list Call :=
  let forward := TrimSpace (arg args "local_forward") in
  if String.eqb forward "" then
    (mkResponse false "local_forward is required" [] [], cfg, [])
  else
    let '(added, cfg', calls) := EnsureLocalForward forward cfg in
    (mkResponse true
       (if added then "local forward added"
        else "local forward already present")
       [("added", fmtBool added)] [],
     cfg',
     calls ++ (if added then [clientRestart cfg' "client_add"] else [])).

Definition handleRemoveLocalForward (args : option (list (string * string)))
  (cfg : Config) : response * Config * list Call :=
  let forward := arg args "local_forward" in
  let '((removed, err), cfg', calls) := RemoveLocalForward forward cfg in
  match err with
  | Some msg => (mkResponse false msg [] [], cfg', calls)
  | None =>
      (mkResponse true
         (if removed then "local forward removed"
          else "local forward not found")
         [("removed", fmtBool removed)] [],
       cfg', calls)
  end.

Definition handleClearLocalForwards (cfg : Config)
  : response * Config * list Call :=
  let '(cleared, cfg', calls) := ClearLocalForwards cfg in
  (mkResponse true
     (if cleared then "local forwards cleared; stopping client"
      else "no local forwards to clear")
     [("cleared", fmtBool cleared)] [],
   cfg', calls).

(** A list in normal form: no duplicates, no blanks, everything trimmed. *)
Definition normal (l : list string) : Prop :=
  NoDup l /\ forall x, In x l -> x <> "" /\ TrimSpace x = x.

(** A request that changes the forwards of a running agent. *)
Inductive Op : Type :=
| OpAdd (forward : string)
| OpRemove (forward : string).

Definition applyOp (cfg : Config) (op : Op) : Config :=
  match op with
  | OpAdd f => snd (fst (AddRemoteForward f cfg))
  | OpRemove f => snd (fst (RemoveRemoteForward f cfg))
  end.

End Strings.

End Forwards.

(* ================================================================== *)
(** * Package logging: the ring of recent lines                        *)
(* ================================================================== *)

Module Logging.

Local Open Scope string_scope.
Local Open Scope list_scope.
Local Open Scope Z_scope.

(** [type LogBuffer struct], without its mutex. *)
Record LogBuffer : Type := mkLogBuffer {
  size : Z;
  lines : list string
}.

Definition newRingBuffer (size : Z) : LogBuffer := mkLogBuffer size [].

Definition NewLogBuffer : LogBuffer := newRingBuffer 200.

(** [r.Add(line)].  On a full ring the lines move down by one
    ([copy(r.lines, r.lines[1:])]) and the last slot takes the new line;
    on a ring that holds no line (its size is not positive) the slice
    expression [r.lines[1:]] is out of bounds and the program panics
    ([None]). *)
Definition Add (r : LogBuffer) (line : string) : option LogBuffer :=
  if size r <=? Z.of_nat (List.length (lines r)) then
    match lines r with
    | [] => None
    | _ :: rest => Some (mkLogBuffer (size r) (rest ++ [line]))
    end
  else Some (mkLogBuffer (size r) (lines r ++ [line])).

(** [r.List()]: a copy of the lines. *)
Definition List (r : LogBuffer) : list string := lines r.

(** Successive calls of [Add]. *)
Fixpoint AddAll (r : LogBuffer) (ls : list string) : option LogBuffer :=
  match ls with
  | [] => Some r
  | line :: rest =>
      match Add r line with
      | None => None
      | Some r' => AddAll r' rest
      end
  end.

End Logging.

(* ================================================================== *)
(** * Package monitor: the polling sleep watcher                       *)
(* ================================================================== *)

Module SleepMonitor.

Import GoTime.
Local Open Scope string_scope.
Local Open Scope list_scope.
Local Open Scope Z_scope.

(** [monitor.Config], as the agent and the client fill it in. *)
Record Config : Type := mkConfig {
  SleepCheckSec : Z;
  SleepGapSec : Z;
  NetworkPollSec : Z
}.

(** What the watcher does besides remembering [last]. *)
Inductive Output : Type :=
| Info (msg : string)                     (* logger.Info(msg) *)
| InfoGap (d : Duration)                  (* logger.Info("wake detected (gap=%s)", d) *)
| OnEvent (reason : string).              (* onEvent(reason) *)

(** [d.Truncate(m)]. *)
Definition Truncate (d m : Duration) : Duration :=
  if m <=? 0 then d else d - Z.rem d m.

(** The gap in force: [if gap <= 0 { gap = interval * 2 }]. *)
Definition gapOf (interval gap : Duration) : Duration :=
  if gap <=? 0 then wrap64 (interval * 2) else gap.

(** One [case <-ticker.C]: [now] is the [time.Now()] it reads. *)
Definition tick (gap : Duration) (last now : Time) : list Output :=
  if gap <? Sub now last
  then [InfoGap (Truncate (Sub now last) Second); OnEvent "wake"]
  else [].

(** The loop over the readings of successive ticks. *)
Fixpoint ticks (gap : Duration) (last : Time) (nows : list Time)
  : list (list Output) :=
  match nows with
  | [] => []
  | now :: rest => tick gap last now :: ticks gap now rest
  end.

(** [sleepWatcher(ctx, logger, interval, gap, onEvent)]: [start] is the
    first [time.Now()], [nows] the readings at the ticks that arrive
    before the context is done. *)
Definition sleepWatcher (interval gap : Duration) (start : Time)
  (nows : list Time) : list (list Output) :=
  if interval <=? 0 then []
  else ticks (gapOf interval gap) start nows.

(** [StartSleepMonitor(ctx, cfg, logger, onEvent)] of the build without
    cgo: what is logged first, and the watcher's outputs tick by tick. *)
Definition StartSleepMonitor (cfg : Config) (start : Time) (nows : list Time)
  : list Output * list (list Output) :=
  if SleepCheckSec cfg <=? 0 then ([], [])
  else
    ([Info "sleep monitor: using polling fallback (cgo disabled)"],
     sleepWatcher (scale (SleepCheckSec cfg) Second)
                  (scale (SleepGapSec cfg) Second) start nows).

End SleepMonitor.

(* ================================================================== *)
(** * Package supervisor: the TCP probe                                *)
(* ================================================================== *)

Module TCPCheck.

Import GoTime StateMachine.
Local Open Scope string_scope.
Local Open Scope list_scope.
Local Open Scope Z_scope.

(** The three fields of [Runner] that the probe owns. *)
Record Status : Type := mkStatus {
  tcpCheckStatus : string;
  tcpCheckError : string;
  lastTCPCheck : Time
}.

(** As [New] leaves them. *)
Definition initial : Status := mkStatus "unknown" "" zeroTime.

(** [recordTCPCheck(err)]: [err] is the error's text, [None] for nil. *)
Definition recordTCPCheck (err : option string) (now : Time) (s : Status)
  : Status :=
  match err with
  | Some msg => mkStatus "failed" msg now
  | None => mkStatus "ok" "" now
  end.

(** One tick of [tcpCheckLoop]: the state the machine shows, what
    [tcpCheck(addr)] would return and the [time.Now()] of the record. *)
Record Tick : Type := mkTick {
  shown : State;
  probe : option string;
  at_ : Time
}.

Definition tcpCheckTick (s : Status) (t : Tick) : Status :=
  if negb (State_eqb (shown t) StateConnected) then s
  else recordTCPCheck (probe t) (at_ t) s.

(** [tcpCheckLoop(ctx, interval, addr)] over the ticks that arrive. *)
Definition tcpCheckLoop (interval : Duration) (ticks : list Tick) (s : Status)
  : Status :=
  if interval <=? 0 then s else fold_left tcpCheckTick ticks s.

(** [r.TCPCheckStatus()]. *)
Definition TCPCheckStatus (s : Status) : string * string * Time :=
  (tcpCheckStatus s, tcpCheckError s, lastTCPCheck s).

(** The last tick at which the machine showed Connected. *)
Fixpoint lastProbe (ticks : list Tick) : option Tick :=
  match ticks with
  | [] => None
  | t :: rest =>
      match lastProbe rest with
      | Some t' => Some t'
      | None => if State_eqb (shown t) StateConnected then Some t else None
      end
  end.

End TCPCheck.

(* ================================================================== *)
(** * Android: [SshTunnelManager.requestRestart]                       *)
(* ================================================================== *)

Module AndroidTunnel.

Import Android.
Local Open Scope string_scope.
Local Open Scope list_scope.
Local Open Scope Z_scope.

(** Arithmetic on Kotlin's [Long] wraps. *)
Definition wrapLong (z : Z) : Z := (z + 2 ^ 63) mod 2 ^ 64 - 2 ^ 63.

(** The fields of [SshTunnelManager] that [requestRestart] touches;
    [connected] says that [client] is not null. *)
Record Manager : Type := mkManager {
  connected : bool;
  restartRequested : bool;
  debounceMs : Z;
  lastTriggerAtMs : Z
}.

(** As the constructor leaves them. *)
Definition newManager : Manager := mkManager false false 2000 0.

Inductive Effect : Type :=
| Log (level message : string)         (* logCallback(level, message) *)
| OnLastTrigger (reason : string)      (* MetricsStore.onLastTrigger(reason) *)
| Disconnect.                          (* client.disconnect() *)

(** [requestRestart(reason)]; [now] is [System.currentTimeMillis()]. *)
Definition requestRestart (reason : string) (now : Z) (m : Manager)
  : Manager * list Effect :=
  if wrapLong (now - lastTriggerAtMs m) <? debounceMs m then
    (m, [Log "INFO" "restart skipped: debounced"])
  else
    (mkManager (connected m) true (debounceMs m) now,
     OnLastTrigger reason :: (if connected m then [Disconnect] else [])).

End AndroidTunnel.

(* ================================================================== *)
(** * Android: the OpenSSH form of the public key ([KeyStore])         *)
(* ================================================================== *)

Module AndroidKeys.

Local Open Scope string_scope.
Local Open Scope list_scope.
Local Open Scope Z_scope.

(** A Kotlin [Byte] is a signed 8-bit integer, an [Int] a signed 32-bit
    one. *)
Definition toByte (x : Z) : Z := (x + 128) mod 256 - 128.

(** [x ushr n] on an [Int]. *)
Definition ushr (x : Z) (n : Z) : Z := Z.shiftr (x mod 2 ^ 32) n.

(** [writeString(out, value)]: what [out] holds afterwards. *)
Definition writeString (out : list Z) (value : list Z) : list Z :=
  let len := Z.of_nat (List.length value) in
  out ++ [toByte (ushr len 24); toByte (ushr len 16);
          toByte (ushr len 8); toByte len] ++ value.

(** [type.toByteArray(Charsets.US_ASCII)]: a character outside ASCII
    becomes a question mark. *)
Definition asciiBytes (s : string) : list Z :=
  map (fun c => let n := Z.of_N (N_of_ascii c) in if n <? 128 then n else 63)
      (list_ascii_of_string s).

(** [buildSshPayload(type, vararg fields)]. *)
Definition buildSshPayload (type : string) (fields : list (list Z)) : list Z :=
  fold_left writeString fields (writeString [] (asciiBytes type)).

(** [extractEd25519PublicKey(encoded)]; [None] is the
    [IllegalArgumentException]. *)
Definition extractEd25519PublicKey (encoded : list Z) : option (list Z) :=
  let size := List.length encoded in
  if negb (size =? 0)%nat && (32 <=? Z.of_nat size - 1)
  then Some (skipn (size - 32) encoded)
  else None.

(** The payload that [toOpenSshPublicKey] encodes in Base64 for an
    Ed25519 key. *)
Definition ed25519Payload (encoded : list Z) : option (list Z) :=
  match extractEd25519PublicKey encoded with
  | Some raw => Some (buildSshPayload "ssh-ed25519" [raw])
  | None => None
  end.

End AndroidKeys.

(* ================================================================== *)
(** * Statements about the network watcher and the loop                *)
(* ================================================================== *)

Module MonitorMore.

Import Monitor.
Local Open Scope string_scope.
Local Open Scope list_scope.

(** The fingerprints of the polls that succeeded, in order. *)
Definition successes (polls : list (option string)) : list string :=
  flat_map (fun p => match p with Some fp => [fp] | None => [] end) polls.

(** The errors a sequence of outputs logs. *)
Definition errors (out : list Output) : nat :=
  List.length
    (filter (fun o => match o with LogError _ => true | _ => false end) out).

End MonitorMore.

Module SupervisorMore.

Import GoTime StateMachine Supervisor.
Local Open Scope string_scope.
Local Open Scope list_scope.
Local Open Scope Z_scope.

(** Whether the exit handling of the loop returns instead of going on:
    the class is terminal, or the policy is on-failure and [cmd.Wait()]
    returned nil. *)
Definition stops (r : Runner) (class : string) : bool :=
  isAuthOrHostkey class ||
  match policy r, waitErr r with
  | PolicyOnFailure, None => true
  | _, _ => false
  end.

(** What [sleepWithBackoff] leaves in the trace when no stop arrives
    while it sleeps. *)
Definition backoffTrace (delay : Duration) : list Effect :=
  EBackoffNext delay ::
  if delay <=? 0 then []
  else [ELog "INFO" "restart_scheduled"
             [("delay_ms", AInt (Milliseconds (Round delay Millisecond)))];
        ESleep delay].

(** The runner after the exit has been counted. *)
Definition exitCounters (r : Runner) : Runner :=
  match waitErr r with
  | Some _ => final (recordExitFailure r)
  | None => final (recordExitSuccess r)
  end.

(** The four counters of the metrics. *)
Definition counters (r : Runner) : Z * Z * Z * Z :=
  (startSuccessCount r, startFailureCount r, exitSuccessCount r,
   exitFailureCount r).

(** Successful starts that have not been matched by a counted exit, as
    an [int]. *)
Definition balance (r : Runner) : Z :=
  wrap64 (startSuccessCount r - exitSuccessCount r - exitFailureCount r).

(** The trace of a turn from the spawn to the moment the child is
    reaped. *)
Definition startedTrace (opts : Options) (c : Cmd) (ch : Chan) : list Effect :=
  [EBuild; ESpawn c; EGoWait c ch; EGrace c;
   ELog "INFO" "ssh_started" [("summary", AStr (Summary opts))];
   ERecv ch].

Section Class.

Variable ClassifyExit : option LineBuffer -> Z -> option WaitErr -> string.

(** [stops], in terms of what the world answers in a turn. *)
Definition turnStops (env : IterEnv) (r : Runner) : bool :=
  isAuthOrHostkey (classOf ClassifyExit env) ||
  match policy r, child_exit env with
  | PolicyOnFailure, None => true
  | _, _ => false
  end.

End Class.

(** Turns for examples: a child that exits cleanly, a [Start] that
    another goroutine's [Stop] makes fail after the spawn, and a turn at
    whose head a stop has been requested. *)
Definition cleanTurn : IterEnv :=
  mkIterEnv false (true, false) quietEnv [] None 2000000000 false.

Definition rolledBackTurn : IterEnv :=
  mkIterEnv false (true, false) racedEnv [] None 2000000000 false.

Definition stopTurn : IterEnv :=
  mkIterEnv true (true, false) quietEnv [] None 2000000000 false.

End SupervisorMore.

(* ================================================================== *)
(** * Theorems                                                         *)
(* ================================================================== *)

(** ** The backoff trajectory *)

Module AndroidFacts.

Import Android.

(** Calls compose: [n + m] calls are [n] calls followed by [m] calls. *)
Lemma calls_add (n m : nat) : forall rands b,
  calls (n + m) rands b =
  match calls n rands b with
  | None => None
  | Some (ds, b') =>
      match calls m (fun k => rands (n + k)%nat) b' with
      | None => None
      | Some (ds', b'') => Some (ds ++ ds', b'')
      end
  end.
Proof.
  induction n as [|n IH]; intros rands b; simpl.
  - destruct (calls m _ b) as [[ds' b'']|]; reflexivity.
  - destruct (nextDelayMs b (rands O)) as [[d b1]|]; [|reflexivity].
    rewrite IH.
    destruct (calls n _ b1) as [[ds b2]|]; [|reflexivity].
    destruct (calls m _ b2) as [[ds' b3]|]; reflexivity.
Qed.

Lemma saturated_next (rand : float) :
  nextDelayMs saturated rand = Some (30000, saturated).
Proof. vm_compute. reflexivity. Qed.

Lemma saturated_calls (k : nat) : forall rands,
  calls k rands saturated = Some (repeat 30000 k, saturated).
Proof.
  induction k as [|k IH]; intros rands; cbn [calls].
  - reflexivity.
  - rewrite saturated_next, IH. reflexivity.
Qed.

Lemma scenario_four (rands : nat -> float) :
  calls 4 rands scenario = Some ([2000; 4000; 8000; 16000], saturated).
Proof. vm_compute. reflexivity. Qed.

(** Whatever has been called before, the stored parameters stay. *)
Lemma calls_params (n : nat) : forall rands b ds b',
  calls n rands b = Some (ds, b') ->
  minDelayMs b' = minDelayMs b /\ maxDelayMs b' = maxDelayMs b /\
  factor b' = factor b /\ jitter b' = jitter b.
Proof.
  induction n as [|n IH]; intros rands b ds b' H; simpl in H.
  - inversion H; subst. repeat split.
  - unfold nextDelayMs in H.
    destruct (applyJitter b (currentDelay b) (rands O)) as [d|]; [|discriminate].
    match type of H with
    | context [calls n ?rs ?b1] =>
        destruct (calls n rs b1) as [[ds1 b2]|] eqn:E; [|discriminate]
    end.
    inversion H; subst.
    apply IH in E. simpl in E. exact E.
Qed.

(** C5.  With [min=2000, max=30000, factor=2.0, jitter=0] successive calls
    of the backoff's next-delay method return 2000, 4000, 8000, 16000 and
    then 30000 for ever (every call from the fifth on); and after a reset,
    whenever it happens, the next call returns 2000 again. *)
Theorem backoff_trajectory :
  forall (rands : nat -> float),
    (forall k : nat,
        calls (4 + k) rands scenario =
        Some ([2000; 4000; 8000; 16000] ++ repeat 30000 k, saturated)) /\
    calls 6 rands scenario =
      Some ([2000; 4000; 8000; 16000; 30000; 30000], saturated) /\
    (forall (n : nat) (rand : float),
        exists ds b,
          calls n rands scenario = Some (ds, b) /\
          option_map fst (nextDelayMs (reset b) rand) = Some 2000).
Proof.
  intros rands.
  assert (A : forall k : nat,
             calls (4 + k) rands scenario =
             Some ([2000; 4000; 8000; 16000] ++ repeat 30000 k, saturated)).
  { intros k. rewrite calls_add, scenario_four, saturated_calls. reflexivity. }
  split; [exact A|]. split; [exact (A 2%nat)|].
  intros n rand.
  assert (B : exists ds b, calls n rands scenario = Some (ds, b)).
  { destruct (Nat.le_gt_cases 4 n) as [Hn|Hn].
    - replace n with (4 + (n - 4))%nat by lia. rewrite A. eauto.
    - do 4 (destruct n as [|n]; [vm_compute; eauto|]). lia. }
  destruct B as (ds & b & E). exists ds, b. split; [exact E|].
  destruct (calls_params _ _ _ _ _ E) as (Hmin & Hmax & Hf & Hj).
  unfold reset, nextDelayMs, applyJitter. simpl.
  rewrite Hj, Hmin. reflexivity.
Qed.

End AndroidFacts.

(** ** The supervisor: debounce gate and trigger paths *)

Module SupervisorFacts.

Import GoTime StateMachine Supervisor.
Local Open Scope string_scope.
Local Open Scope list_scope.
Local Open Scope Z_scope.

(** A wrapped product is an [int64], so saturation in [Sub] never decides
    a comparison with a positive window. *)
Lemma wrap64_range (z : Z) : minDuration <= wrap64 z <= maxDuration.
Proof.
  unfold wrap64, minDuration, maxDuration.
  pose proof (Z.mod_pos_bound (z + 2 ^ 63) (2 ^ 64) ltac:(lia)). lia.
Qed.

Lemma Sub_ltb (now last w : Z) :
  0 < w -> w <= maxDuration ->
  (Sub now last <? w) = (now - last <? w).
Proof.
  intros H0 H1. unfold Sub, minDuration, maxDuration in *.
  destruct (Z.ltb_spec (now - last) w);
    destruct (Z.ltb_spec
                (Z.max (- 2 ^ 63) (Z.min (2 ^ 63 - 1) (now - last))) w);
    try reflexivity; lia.
Qed.

(** The three outcomes of the gate. *)
Lemma allow_disabled (w : Duration) (now : Time) (r : Runner) :
  w <= 0 -> allowTrigger w now r = (true, r, []).
Proof.
  intros H. unfold allowTrigger. destruct (Z.leb_spec w 0); [reflexivity|lia].
Qed.

Lemma allow_drop (w : Duration) (now : Time) (r : Runner) :
  0 < w -> w <= maxDuration ->
  lastTrigger r <> zeroTime -> now - lastTrigger r < w ->
  allowTrigger w now r = (false, r, []).
Proof.
  intros H0 H1 Hz Hlt. unfold allowTrigger.
  destruct (Z.leb_spec w 0); [lia|].
  unfold bind, get, ret, modify.
  rewrite Sub_ltb by assumption.
  unfold IsZero, zeroTime in *.
  destruct (Z.eqb_spec (lastTrigger r) 0); [contradiction|].
  destruct (Z.ltb_spec (now - lastTrigger r) w); [reflexivity|lia].
Qed.

Lemma allow_pass (w : Duration) (now : Time) (r : Runner) :
  0 < w -> w <= maxDuration ->
  lastTrigger r = zeroTime \/ w <= now - lastTrigger r ->
  allowTrigger w now r = (true, set_lastTrigger now r, []).
Proof.
  intros H0 H1 Hc. unfold allowTrigger.
  destruct (Z.leb_spec w 0); [lia|].
  unfold bind, get, ret, modify.
  rewrite Sub_ltb by assumption.
  unfold IsZero, zeroTime in *.
  destruct (Z.eqb_spec (lastTrigger r) 0); simpl; [reflexivity|].
  destruct (Z.ltb_spec (now - lastTrigger r) w); [lia|reflexivity].
Qed.

(** Closed forms of the small methods. *)
Lemma terminate_eq (r : Runner) : terminateProcess r = (tt, r, termination r).
Proof.
  unfold terminateProcess, termination, bind, get, emit, ret.
  destruct (cmd r) as [c|]; [destruct (Process c)|]; reflexivity.
Qed.

Lemma setLastTriggerReason_eq reason r :
  setLastTriggerReason reason r =
  (tt, set_lastTriggerReason reason r,
   snapshotOf (set_lastTriggerReason reason r)).
Proof.
  unfold setLastTriggerReason, snapshotOf, bind, modify, get, writeSnapshot,
    emit, ret. simpl.
  destruct (stateWriter r); reflexivity.
Qed.

(** The gate has no effect outside the runner. *)
Lemma allow_trace w now r : trace (allowTrigger w now r) = [].
Proof.
  unfold allowTrigger, bind, get, ret, modify, trace.
  destruct (w <=? 0); [reflexivity|].
  destruct (negb (IsZero (lastTrigger r)) && (Sub now (lastTrigger r) <? w)); reflexivity.
Qed.

Lemma allow_split w now r :
  allowTrigger w now r = (value (allowTrigger w now r), final (allowTrigger w now r), []).
Proof.
  pose proof (allow_trace w now r) as H.
  destruct (allowTrigger w now r) as [[ok r2] t].
  unfold trace, value, final in *. simpl in *. subst. reflexivity.
Qed.

(** The two trigger paths on a Connected runner, in terms of the gate's
    answer. *)
Lemma triggerRestart_eq lg reason ms now r :
  sm r = StateConnected ->
  triggerRestart lg reason ms now r =
  let r1 := set_lastTriggerReason reason r in
  let a := allowTrigger (scale ms Millisecond) now r1 in
  (tt, final a, snapshotOf r1 ++
     if value a
     then (if lg then [triggered reason] else []) ++ termination (final a)
     else (if lg then [skipped reason] else [])).
Proof.
  intros H. unfold triggerRestart, bind, get.
  rewrite H. cbn [negb State_eqb]. cbv beta.
  rewrite setLastTriggerReason_eq. cbv zeta.
  pose proof (allow_trace (scale ms Millisecond) now
                (set_lastTriggerReason reason r)) as T.
  destruct (allowTrigger _ now _) as [[ok r2] t].
  cbn [trace value final fst snd] in *. subst t.
  destruct ok; cbn [negb]; unfold logIf;
    destruct lg; unfold emit, ret, triggered, skipped; cbv beta iota;
    rewrite ?terminate_eq; cbn [app]; rewrite ?app_nil_r; reflexivity.
Qed.

Lemma periodicTick_eq ms now r :
  sm r = StateConnected ->
  periodicTick ms now r =
  let a := allowTrigger (scale ms Millisecond) now r in
  if value a then
    let r2 := set_lastTriggerReason "periodic" (final a) in
    (tt, r2, snapshotOf r2 ++ [triggered "periodic"] ++ termination r2)
  else (tt, final a, [skipped "periodic"]).
Proof.
  intros H. unfold periodicTick, bind, get.
  rewrite H. cbn [negb State_eqb]. cbv beta zeta.
  pose proof (allow_trace (scale ms Millisecond) now r) as T.
  destruct (allowTrigger _ now _) as [[ok r2] t].
  cbn [trace value final fst snd] in *. subst t.
  destruct ok; cbn [negb].
  - rewrite setLastTriggerReason_eq. unfold emit. cbv beta iota.
    rewrite terminate_eq. reflexivity.
  - unfold emit. reflexivity.
Qed.

Ltac solve_in :=
  cbn [In app]; first [ left; reflexivity | right; solve_in ].
Ltac solve_notin :=
  cbn [In app]; intros Hin;
  repeat (destruct Hin as [Hin|Hin]; [discriminate Hin|]); exact Hin.

Ltac finish_gate r upd ok :=
  unfold accepted, dropped, snapshotOf, termination, triggered, skipped;
  destruct upd, ok;
  cbn [final trace fst snd sm logger cmd lastTrigger stateWriter reasonOf
       set_lastTrigger set_lastTriggerReason];
  destruct (stateWriter r); destruct (cmd r) as [c|];
  try destruct (Process c);
  cbn [app filter isSignal];
  repeat split; try assumption; try reflexivity; try solve_in; try solve_notin.

(** Whatever the kind of trigger: if the gate answers [ok] and updates
    [lastTrigger] or not ([upd]), this is what the delivery does. *)
Lemma deliver_gate (t : Trigger) (ms : Z) (now : Time) (r : Runner)
  (ok upd : bool) :
  sm r = StateConnected -> logger r = true ->
  (forall r', lastTrigger r' = lastTrigger r ->
      allowTrigger (scale ms Millisecond) now r' =
      (ok, if upd then set_lastTrigger now r' else r', [])) ->
  let out := deliver t ms now r in
  sm (final out) = StateConnected /\ logger (final out) = true /\
  cmd (final out) = cmd r /\
  lastTrigger (final out) = (if upd then now else lastTrigger r) /\
  (if ok
   then accepted t (trace out) /\ filter isSignal (trace out) = termination r
   else dropped t (trace out) /\ filter isSignal (trace out) = []).
Proof.
  intros Hsm Hlg E out. subst out.
  assert (Et : forall lg reason, triggerRestart lg reason ms now r =
     (tt,
      (if upd then set_lastTrigger now (set_lastTriggerReason reason r)
       else set_lastTriggerReason reason r),
      snapshotOf (set_lastTriggerReason reason r) ++
            if ok then (if lg then [triggered reason] else []) ++ termination r
            else (if lg then [skipped reason] else []))).
  { intros lg reason. rewrite triggerRestart_eq by exact Hsm. cbv zeta.
    rewrite E by reflexivity. cbn [value final fst snd].
    destruct upd; reflexivity. }
  destruct t as [reason|reason|]; cbn [deliver].
  - rewrite Et. finish_gate r upd ok.
  - unfold RequestRestart, bind, get. rewrite Hlg. rewrite Et.
    finish_gate r upd ok.
  - rewrite periodicTick_eq by exact Hsm. cbv zeta. rewrite E by reflexivity.
    cbn [value final fst snd]. finish_gate r upd ok.
Qed.

(** C4.  Every restart trigger that reaches the gate of a Connected runner
    (with its logger attached): if [now - lastTrigger < window] (a trigger
    has been accepted before, and the window is positive) it is dropped,
    nothing is signalled, and a [restart_skipped] event with detail
    "debounced" is logged; otherwise [lastTrigger] becomes [now] and the
    trigger proceeds to terminate the child; a window [<= 0] lets every
    trigger through.  With a window of 2000 ms, triggers at t, t + 500 ms
    and t + 2500 ms are accepted, dropped and accepted. *)
Theorem debounce_gate :
  forall (t : Trigger) (debounceMs : Z) (now : Time) (r : Runner),
    sm r = StateConnected ->
    logger r = true ->
    (0 < scale debounceMs Millisecond ->
     lastTrigger r <> zeroTime ->
     now - lastTrigger r < scale debounceMs Millisecond ->
       dropped t (trace (deliver t debounceMs now r)) /\
       filter isSignal (trace (deliver t debounceMs now r)) = [] /\
       lastTrigger (final (deliver t debounceMs now r)) = lastTrigger r) /\
    (0 < scale debounceMs Millisecond ->
     lastTrigger r = zeroTime \/
     scale debounceMs Millisecond <= now - lastTrigger r ->
       accepted t (trace (deliver t debounceMs now r)) /\
       filter isSignal (trace (deliver t debounceMs now r)) = termination r /\
       lastTrigger (final (deliver t debounceMs now r)) = now) /\
    (scale debounceMs Millisecond <= 0 ->
       accepted t (trace (deliver t debounceMs now r)) /\
       filter isSignal (trace (deliver t debounceMs now r)) = termination r /\
       lastTrigger (final (deliver t debounceMs now r)) = lastTrigger r) /\
    (debounceMs = 2000 -> lastTrigger r = zeroTime -> now <> zeroTime ->
     forall t2 t3 : Trigger,
       let o1 := deliver t 2000 now r in
       let o2 := deliver t2 2000 (now + 500 * Millisecond) (final o1) in
       let o3 := deliver t3 2000 (now + 2500 * Millisecond) (final o2) in
       accepted t (trace o1) /\ dropped t2 (trace o2) /\
       accepted t3 (trace o3)).
Proof.
  intros t debounceMs now r Hsm Hlg.
  pose proof (wrap64_range (debounceMs * Millisecond)) as [_ Hmax].
  fold (scale debounceMs Millisecond) in Hmax.
  split; [|split; [|split]].
  - intros Hpos Hset Hlt.
    destruct (deliver_gate t debounceMs now r false false Hsm Hlg)
      as (_ & _ & _ & Hlast & Hd & Hs).
    { intros r' E. apply allow_drop; rewrite ?E; assumption. }
    repeat split; try apply Hd; assumption.
  - intros Hpos Hc.
    destruct (deliver_gate t debounceMs now r true true Hsm Hlg)
      as (_ & _ & _ & Hlast & Ha & Hs).
    { intros r' E. apply allow_pass; rewrite ?E; assumption. }
    repeat split; try apply Ha; assumption.
  - intros Hoff.
    destruct (deliver_gate t debounceMs now r true false Hsm Hlg)
      as (_ & _ & _ & Hlast & Ha & Hs).
    { intros r' E. apply allow_disabled; assumption. }
    repeat split; try apply Ha; assumption.
  - intros -> Hzero Hnow t2 t3.
    assert (W : scale 2000 Millisecond = 2000000000) by reflexivity.
    destruct (deliver_gate t 2000 now r true true Hsm Hlg)
      as (Hsm1 & Hlg1 & _ & Hlast1 & Ha1 & _).
    { intros r' E. apply allow_pass; rewrite ?E, ?W; try left;
        unfold maxDuration; try assumption; lia. }
    destruct (deliver_gate t2 2000 (now + 500 * Millisecond)
                (final (deliver t 2000 now r)) false false Hsm1 Hlg1)
      as (Hsm2 & Hlg2 & _ & Hlast2 & Hd2 & _).
    { intros r' E. apply allow_drop; rewrite ?E, ?W, ?Hlast1;
        unfold maxDuration, Millisecond; try assumption; lia. }
    destruct (deliver_gate t3 2000 (now + 2500 * Millisecond)
                (final (deliver t2 2000 (now + 500 * Millisecond)
                          (final (deliver t 2000 now r)))) true true Hsm2 Hlg2)
      as (_ & _ & _ & _ & Ha3 & _).
    { intros r' E. apply allow_pass; rewrite ?E, ?W, ?Hlast2, ?Hlast1;
        unfold maxDuration, Millisecond; try right; lia. }
    cbv zeta. repeat split; first [apply Ha1 | apply Hd2 | apply Ha3].
Qed.

(** The theorem at the scenario's numbers: a fresh session, window
    2000 ms, a wake-up now and a network change 500 ms later. *)
Lemma debounce_gate_witness :
  accepted (Monitor "wake")
    (trace (deliver (Monitor "wake") 2000 (1000 * Second)
                    session0)) /\
  dropped (Monitor "network change")
    (trace (deliver (Monitor "network change") 2000
              (1000 * Second + 500 * Millisecond)
              (final (deliver (Monitor "wake") 2000 (1000 * Second)
                        session0)))).
Proof.
  destruct (debounce_gate (Monitor "wake") 2000 (1000 * Second)
              session0
              eq_refl eq_refl) as (_ & _ & _ & S4).
  destruct (S4 eq_refl eq_refl ltac:(discriminate)
               (Monitor "network change") Periodic) as (A & D & _).
  split; [exact A | exact D].
Defined.

(** C10.  When no trigger has been accepted yet ([lastTrigger] is the zero
    time) the gate answers yes whatever the window is, and so the first
    trigger of a supervisor's lifetime is accepted, never logged as
    debounced, for every debounce value. *)
Theorem first_trigger_passes :
  forall (r : Runner) (now : Time),
    lastTrigger r = zeroTime ->
    (forall window : Duration, value (allowTrigger window now r) = true) /\
    (forall (t : Trigger) (debounceMs : Z),
        sm r = StateConnected -> logger r = true ->
        accepted t (trace (deliver t debounceMs now r)) /\
        ~ In (skipped (reasonOf t)) (trace (deliver t debounceMs now r))).
Proof.
  intros r now Hz. split.
  - intros window. unfold allowTrigger.
    destruct (window <=? 0); [reflexivity|].
    unfold bind, get, modify, ret, value. rewrite Hz. reflexivity.
  - intros t debounceMs Hsm Hlg.
    pose proof (wrap64_range (debounceMs * Millisecond)) as [_ Hmax].
    fold (scale debounceMs Millisecond) in Hmax.
    destruct (Z.le_gt_cases (scale debounceMs Millisecond) 0) as [Hoff|Hpos].
    + destruct (deliver_gate t debounceMs now r true false Hsm Hlg)
        as (_ & _ & _ & _ & Ha & _).
      { intros r' E. apply allow_disabled; assumption. }
      split; [exact Ha | apply Ha].
    + destruct (deliver_gate t debounceMs now r true true Hsm Hlg)
        as (_ & _ & _ & _ & Ha & _).
      { intros r' E. apply allow_pass; rewrite ?E; try left; try assumption; lia. }
      split; [exact Ha | apply Ha].
Qed.

(** The theorem on a fresh session, for a window of 292 years. *)
Lemma first_trigger_passes_witness :
  value (allowTrigger maxDuration (1000 * Second)
           session0) = true.
Proof.
  apply (first_trigger_passes session0
           (1000 * Second) eq_refl).
Defined.

(** The monitor and request path records the reason before it asks the
    gate, whatever the gate answers. *)
Lemma triggerRestart_records_reason lg reason ms now r :
  sm r = StateConnected ->
  lastTriggerReason (final (triggerRestart lg reason ms now r)) = reason.
Proof.
  intros Hsm. rewrite triggerRestart_eq by exact Hsm. cbv zeta.
  cbn [final fst snd]. unfold allowTrigger.
  destruct (_ <=? 0); [reflexivity|].
  unfold bind, get, modify, ret.
  destruct (negb _ && _); reflexivity.
Qed.

(** The periodic path asks the gate first: a dropped tick leaves the
    recorded reason as it was. *)
Lemma periodicTick_dropped_keeps_reason ms now r :
  sm r = StateConnected ->
  value (allowTrigger (scale ms Millisecond) now r) = false ->
  lastTriggerReason (final (periodicTick ms now r)) = lastTriggerReason r.
Proof.
  intros Hsm Hv. rewrite periodicTick_eq by exact Hsm. cbv zeta.
  rewrite Hv. cbn [final fst snd].
  revert Hv. unfold allowTrigger.
  destruct (_ <=? 0); [discriminate|].
  unfold bind, get, modify, ret.
  destruct (negb _ && _); [reflexivity|discriminate].
Qed.

(** C7.  A periodic tick that the gate drops does not update
    [lastTriggerReason]: in a Connected session whose last accepted trigger
    was a wake-up 500 ms ago (window 2000 ms) the reason still reads "wake"
    after the tick, although the tick is logged as skipped; a network
    change delivered at the same instant is dropped too and does leave its
    reason. *)
Theorem periodic_drop_loses_reason :
  dropped Periodic
    (trace (deliver Periodic 2000 (1000 * Second + 500 * Millisecond)
                    (afterWake (1000 * Second)))) /\
  lastTriggerReason
    (final (deliver Periodic 2000 (1000 * Second + 500 * Millisecond)
                    (afterWake (1000 * Second)))) = "wake" /\
  dropped (Monitor "network change")
    (trace (deliver (Monitor "network change") 2000
                    (1000 * Second + 500 * Millisecond)
                    (afterWake (1000 * Second)))) /\
  lastTriggerReason
    (final (deliver (Monitor "network change") 2000
                    (1000 * Second + 500 * Millisecond)
                    (afterWake (1000 * Second)))) = "network change".
Proof.
  unfold dropped. vm_compute.
  repeat split; try reflexivity; try solve_in; try solve_notin.
Qed.


(** ** The supervisor: [Start], [Stop] and the main loop *)

(** Closed forms of [transition], of the interference and of [Start]. *)
Lemma transition_eq next r :
  transition next r =
  (snd (Transition (sm r) next), set_sm (fst (Transition (sm r) next)) r, []).
Proof. unfold transition. destruct (Transition (sm r) next). reflexivity. Qed.

Lemma interfere_eq l : forall r,
  interfere l r = (tt, set_sm (raced (sm r) l) r, []).
Proof.
  induction l as [|s l IH]; intros r; cbn [interfere raced fold_left].
  - unfold ret. destruct r; reflexivity.
  - unfold bind. rewrite transition_eq, IH. reflexivity.
Qed.

Lemma boundedReap_eq ch c f3 f1 r :
  boundedReap ch c f3 f1 r = (tt, r, reapTrace ch c f3 f1).
Proof. unfold boundedReap, reapTrace, bind, emit, ret. destruct f3; reflexivity. Qed.

Ltac start_fails :=
  unfold bind, emit, ret, recordStartFailure, modify, transition, final;
  cbn; reflexivity.

Lemma Start_eq env r :
  Start env r =
  if legal (sm r) StateConnecting then
    match build env, StdoutPipe env, StderrPipe env, cmdStart env with
    | inr err, _, _, _ => failed err r
    | inl _, Some err, _, _ => failed err r
    | inl _, None, Some err, _ => failed err r
    | inl _, None, None, inr err => failed err r
    | inl c0, None, None, inl pid =>
        let c := mkCmd (cmd_id c0) (Some pid) in
        let ch := newChan env in
        let r1 := set_errLines (Some (NewLineBuffer 10))
                    (set_child (Some c) (Some ch) None r) in
        let s := raced StateConnecting (racing env) in
        if legal s StateConnected then
          (None, final (recordStartSuccess (set_sm StateConnected r1)),
           [EBuild; ESpawn c; EGoWait c ch; EGrace c])
        else
          (Some invalid_transition, set_child None None None (set_sm s r1),
           [EBuild; ESpawn c; EGoWait c ch; ESignal c SIGTERM] ++
           reapTrace ch c (reaped3 env) (reaped1 env))
    end
  else (Some invalid_transition, r, []).
Proof.
  unfold Start. unfold bind at 1. rewrite transition_eq. unfold Transition.
  destruct (legal (sm r) StateConnecting) eqn:L; cbn [fst snd].
  2:{ unfold ret. destruct r; reflexivity. }
  unfold failed, failStart.
  destruct (build env) as [c0|err].
  2:{ start_fails. }
  destruct (StdoutPipe env) as [err|].
  { start_fails. }
  destruct (StderrPipe env) as [err|].
  { start_fails. }
  destruct (cmdStart env) as [pid|err].
  2:{ start_fails. }
  cbv zeta.
  unfold bind, emit, modify. cbv beta iota. rewrite interfere_eq.
  rewrite transition_eq. cbn [sm set_sm set_errLines set_child fst snd].
  unfold Transition.
  destruct (legal (raced StateConnecting (racing env)) StateConnected) eqn:L2;
    cbn [fst snd].
  - unfold recordStartSuccess, scheduleSuccessMark, modify, emit, ret, final.
    cbn. reflexivity.
  - rewrite terminate_eq. rewrite boundedReap_eq. unfold ret, termination.
    cbn [cmd set_sm set_errLines set_child Process same_cmd Cmd_eqb cmd_id].
    unfold Cmd_eqb. cbn [cmd_id]. rewrite Nat.eqb_refl. cbn [app].
    rewrite !app_nil_r. reflexivity.
Qed.

Lemma Stop_eq f3 f1 r :
  Stop f3 f1 r =
  (snd (Transition (sm r) StateStopped),
   set_sm (fst (Transition (sm r) StateStopped)) r,
   match cmd r with
   | Some c =>
       match Process c with
       | Some _ =>
           ESignal c Interrupt ::
           match waitDone r with
           | Some ch => reapTrace ch c f3 f1
           | None => []
           end
       | None => []
       end
   | None => []
   end).
Proof.
  unfold Stop, bind, get, emit, ret.
  destruct (cmd r) as [c|];
    [destruct (Process c) as [pid|]; [destruct (waitDone r) as [ch|]|]|];
    rewrite ?boundedReap_eq, transition_eq; cbn [app]; rewrite ?app_nil_r; reflexivity.
Qed.

Lemma Stop_ends_Stopped f3 f1 r : sm (final (Stop f3 f1 r)) = StateStopped.
Proof.
  rewrite Stop_eq. cbn [final fst snd sm set_sm]. unfold Transition.
  destruct (sm r); reflexivity.
Qed.


(** Symbolic execution of the runner monad, one [bind] at a time. *)
Lemma bind_step {A B} (m : M A) (k : A -> M B) r a r1 t1 :
  m r = (a, r1, t1) -> bind m k r = prepend t1 (k a r1).
Proof.
  intros E. unfold bind, prepend, value, final, trace. rewrite E.
  destruct (k a r1) as [[b r2] t2]. reflexivity.
Qed.

Lemma setLastClass_eq class r :
  setLastClass class r = (tt, set_lastClass class r, snapshotOf (set_lastClass class r)).
Proof.
  unfold setLastClass, snapshotOf, bind, modify, get, writeSnapshot, emit, ret.
  cbn [stateWriter set_lastClass]. destruct (stateWriter r); reflexivity.
Qed.

Lemma recordExit_eq reason r :
  recordExit reason r = (tt, set_lastExit reason r, snapshotOf (set_lastExit reason r)).
Proof.
  unfold recordExit, snapshotOf, bind, modify, get, writeSnapshot, emit, ret.
  cbn [stateWriter set_lastExit]. destruct (stateWriter r); reflexivity.
Qed.

Ltac mstep :=
  match goal with
  | |- context [bind ?m ?k ?r] =>
      erewrite (bind_step m k r)
        by first [ apply transition_eq | apply setLastClass_eq
                 | apply recordExit_eq | apply setLastTriggerReason_eq
                 | apply interfere_eq | apply terminate_eq
                 | apply boundedReap_eq | apply Stop_eq | reflexivity ]
  end; cbv beta.

Lemma filter_snapshotOf p r :
  (forall s, p (ESnapshot s) = false) -> filter p (snapshotOf r) = [].
Proof.
  intros H. unfold snapshotOf.
  destruct (stateWriter r); cbn; rewrite ?H; reflexivity.
Qed.

Lemma value_prepend {A} t (x : A * Runner * list Effect) :
  value (prepend t x) = value x.
Proof. reflexivity. Qed.

Lemma final_prepend {A} t (x : A * Runner * list Effect) :
  final (prepend t x) = final x.
Proof. reflexivity. Qed.

Lemma trace_prepend {A} t (x : A * Runner * list Effect) :
  trace (prepend t x) = t ++ trace x.
Proof. reflexivity. Qed.

Ltac mdone :=
  rewrite ?value_prepend, ?final_prepend, ?trace_prepend;
  unfold ret, emit; cbn [value final trace fst snd app].


(** C2 (as amended).  In the copy of the supervisor that has the wait
    task: when the state machine rejects the move to Connected after the
    child has been spawned, [Start] sends SIGTERM (not the interrupt
    signal) to that child, waits on its completion channel for 3 s, kills
    it and waits 1 s more if the channel has not fired, forgets the child
    and returns the transition error. *)
Theorem start_rollback_reaps :
  forall (env : StartEnv) (r : Runner) (c0 : Cmd) (pid : nat),
    legal (sm r) StateConnecting = true ->
    build env = inl c0 ->
    StdoutPipe env = None ->
    StderrPipe env = None ->
    cmdStart env = inl pid ->
    legal (raced StateConnecting (racing env)) StateConnected = false ->
    trace (Start env r) =
      [EBuild;
       ESpawn (mkCmd (cmd_id c0) (Some pid));
       EGoWait (mkCmd (cmd_id c0) (Some pid)) (newChan env);
       ESignal (mkCmd (cmd_id c0) (Some pid)) SIGTERM;
       EAwait (newChan env) (3 * Second) (reaped3 env)] ++
      (if reaped3 env then []
       else [EKill (mkCmd (cmd_id c0) (Some pid));
             EAwait (newChan env) (1 * Second) (reaped1 env)]) /\
    value (Start env r) = Some invalid_transition /\
    cmd (final (Start env r)) = None /\
    waitDone (final (Start env r)) = None.
Proof.
  intros env r c0 pid L Hb Ho He Hs L2.
  rewrite Start_eq, L, Hb, Ho, He, Hs. cbv zeta. rewrite L2.
  cbn [trace value final fst snd cmd waitDone set_child].
  unfold reapTrace. repeat split.
Qed.

(** The theorem where another goroutine's [Stop] has moved the machine to
    Stopped while [Start] was spawning. *)
Lemma start_rollback_reaps_witness :
  trace (Start racedEnv (New PolicyAlways)) =
    [EBuild; ESpawn child0; EGoWait child0 1%nat; ESignal child0 SIGTERM;
     EAwait 1%nat (3 * Second) true] /\
  value (Start racedEnv (New PolicyAlways)) = Some invalid_transition.
Proof.
  destruct (start_rollback_reaps racedEnv (New PolicyAlways)
              (mkCmd 1%nat None) 4242%nat
              eq_refl eq_refl eq_refl eq_refl eq_refl eq_refl)
    as (Ht & Hv & _).
  split; [exact Ht | exact Hv].
Defined.

(** C2 as stated fails: in that same call the child is spawned, the move
    to Connected is rejected, and no interrupt is sent to the child. *)
Lemma rejected_start_sends_no_interrupt :
  value (Start racedEnv (New PolicyAlways)) = Some invalid_transition /\
  In (ESpawn child0) (trace (Start racedEnv (New PolicyAlways))) /\
  ~ In (ESignal child0 Interrupt) (trace (Start racedEnv (New PolicyAlways))).
Proof.
  vm_compute. repeat split; try solve_in; try solve_notin.
Qed.

(** The older [Start] returns the error at once: the child it has just
    spawned is neither signalled nor awaited, and stays in [r.cmd]. *)
Lemma legacy_start_rejected_leaks :
  trace (Legacy.Start racedEnv (New PolicyAlways)) = [EBuild; ESpawn child0] /\
  value (Legacy.Start racedEnv (New PolicyAlways)) = Some invalid_transition /\
  cmd (final (Legacy.Start racedEnv (New PolicyAlways))) = Some child0.
Proof. vm_compute. repeat split. Qed.

(** [Stop] with a child: interrupt, the bounded reap on the channel the
    wait task of this spawn closes, and the machine ends in Stopped. *)
Lemma Stop_reaps_on_shared_channel f3 f1 r c pid ch :
  cmd r = Some c -> Process c = Some pid -> waitDone r = Some ch ->
  trace (Stop f3 f1 r) =
    ESignal c Interrupt :: EAwait ch (3 * Second) f3 ::
    (if f3 then [] else [EKill c; EAwait ch (1 * Second) f1]) /\
  sm (final (Stop f3 f1 r)) = StateStopped.
Proof.
  intros Hc Hp Hw. split; [|apply Stop_ends_Stopped].
  rewrite Stop_eq, Hc, Hp, Hw. reflexivity.
Qed.

(** C3.  The older [Stop], called on a Connected session whose child does
    not exit within 3 s of the interrupt: it starts a second [cmd.Wait()]
    on a channel of its own (number 7 here), kills the child on the
    timeout and transitions at once; there is no shared completion
    channel and no wait after the kill. *)
Theorem legacy_stop_waits_privately_once :
  trace (Legacy.Stop 7%nat false legacySession) =
    [ESignal child0 Interrupt; EGoWait child0 7%nat;
     EAwait 7%nat (3 * Second) false; EKill child0] /\
  waitDone legacySession = None /\
  (forall ch fired,
      ~ In (EAwait ch (1 * Second) fired)
           (trace (Legacy.Stop 7%nat false legacySession))) /\
  sm (final (Legacy.Stop 7%nat false legacySession)) = StateStopped.
Proof.
  vm_compute. repeat split. intros ch fired Hin.
  repeat (destruct Hin as [Hin|Hin]; [discriminate Hin|]). exact Hin.
Qed.

Section LoopFacts.

Variable ClassifyExit : option LineBuffer -> Z -> option WaitErr -> string.
Variable FormatExit : Z -> option WaitErr -> string.
Variable PolicyName : Policy -> string.

Local Notation "'handleExit'" :=
  (Supervisor.handleExit ClassifyExit FormatExit PolicyName).
Local Notation "'iteration'" :=
  (Supervisor.iteration ClassifyExit FormatExit PolicyName).
Local Notation "'loop'" :=
  (Supervisor.loop ClassifyExit FormatExit PolicyName).
Local Notation "'RunWithLogger'" :=
  (Supervisor.RunWithLogger ClassifyExit FormatExit PolicyName).
Local Notation "'classOf'" := (Supervisor.classOf ClassifyExit).

Local Notation "'policyStop'" := (Supervisor.policyStop PolicyName).

(** The exit handling when the class is terminal: it returns, and its
    trace is two snapshots, the [ssh_exited] event and one INFO
    [restart_policy_stop] event. *)
Lemma handleExit_terminal env r :
  isAuthOrHostkey
    (ClassifyExit (errLines r) (exitCodeOf (waitErr r)) (waitErr r)) = true ->
  value (handleExit env r) = Return None /\
  exists s1 s2 lvl fields,
    trace (handleExit env r) =
    snapshotOf s1 ++ snapshotOf s2 ++
    [ELog lvl "ssh_exited" fields;
     policyStop r (ClassifyExit (errLines r) (exitCodeOf (waitErr r)) (waitErr r))].
Proof.
  intros H. unfold Supervisor.handleExit, Supervisor.policyStop.
  set (class := ClassifyExit (errLines r) (exitCodeOf (waitErr r)) (waitErr r)) in *.
  mstep.
  destruct (waitErr r) as [e|] eqn:E.
  - mstep. mstep. cbn [errLines set_counters]. fold class.
    mstep. mstep. mstep.
    match goal with
    | |- context [stderrSummary ?x] =>
        destruct (negb (String.eqb (stderrSummary x) ""))
    end;
      mstep; mstep; mstep; mstep;
      unfold shouldRestart; rewrite H; cbn [negb];
      mstep; mdone;
      cbn [policy set_child set_sm set_lastExit set_lastClass set_counters];
      (split; [reflexivity | do 4 eexists; reflexivity]).
  - mstep. mstep. cbn [errLines set_counters]. fold class.
    mstep. mstep. mstep. mstep. mstep. mstep.
    unfold shouldRestart; rewrite H; cbn [negb].
    mstep; mdone.
    cbn [policy set_child set_sm set_lastExit set_lastClass set_counters].
    split; [reflexivity | do 4 eexists; reflexivity].
Qed.

(** What a successful [Start] leaves behind. *)
Lemma Start_success env r :
  value (Start env r) = None ->
  exists c0 pid,
    Start env r =
    (None,
     final (recordStartSuccess
              (set_sm StateConnected
                 (set_errLines (Some (NewLineBuffer 10))
                    (set_child (Some (mkCmd (cmd_id c0) (Some pid)))
                               (Some (newChan env)) None r)))),
     [EBuild; ESpawn (mkCmd (cmd_id c0) (Some pid));
      EGoWait (mkCmd (cmd_id c0) (Some pid)) (newChan env);
      EGrace (mkCmd (cmd_id c0) (Some pid))]).
Proof.
  rewrite Start_eq. unfold failed.
  destruct (legal (sm r) StateConnecting); [|discriminate].
  destruct (build env) as [c0|]; [|discriminate].
  destruct (StdoutPipe env); [discriminate|].
  destruct (StderrPipe env); [discriminate|].
  destruct (cmdStart env) as [pid|]; [|discriminate].
  cbv zeta.
  destruct (legal (raced StateConnecting (racing env)) StateConnected); [|discriminate].
  intros _. exists c0, pid. reflexivity.
Qed.

Lemma waitTask_eq c ch err r :
  cmd r = Some c -> waitDone r = Some ch ->
  waitTask c ch err r = (tt, set_waitErr err r, []).
Proof.
  intros Hc Hw. unfold waitTask, modify, same_cmd, Cmd_eqb.
  rewrite Hc, Hw, !Nat.eqb_refl. reflexivity.
Qed.

(** A whole turn whose child exits with a terminal class. *)
Lemma iteration_terminal opts env r :
  childRuns env r ->
  isAuthOrHostkey (classOf env) = true ->
  value (iteration opts env r) = Return None /\
  exists c ch s1 s2 lvl fields,
    trace (iteration opts env r) =
    [EBuild; ESpawn c; EGoWait c ch; EGrace c;
     ELog "INFO" "ssh_started" [("summary", AStr (Summary opts))];
     ERecv ch] ++
    snapshotOf s1 ++ snapshotOf s2 ++
    [ELog lvl "ssh_exited" fields; policyStop r (classOf env)].
Proof.
  intros (Hs & Hq & HS) H.
  destruct (Start_success _ _ HS) as (c0 & pid & ES).
  unfold Supervisor.iteration. rewrite Hq.
  mstep. rewrite Hs. cbv beta iota.
  erewrite bind_step by exact ES. cbv beta iota.
  mstep. mstep.
  cbn [cmd waitDone recordStartSuccess modify final fst snd set_counters
       set_sm set_errLines set_child].
  mstep.
  erewrite bind_step by (apply waitTask_eq; reflexivity). cbv beta iota.
  mstep.
  match goal with |- context [Supervisor.handleExit _ _ _ env ?rX] =>
    destruct (handleExit_terminal env rX H) as (Hv & s1 & s2 & lvl & fields & Ht)
  end.
  rewrite !value_prepend, !trace_prepend, Hv, Ht.
  split; [reflexivity|].
  do 6 eexists. cbn [app]. reflexivity.
Qed.


Lemma prepend_nil {A} (x : A * Runner * list Effect) : prepend [] x = x.
Proof. destruct x as [[a r] t]. reflexivity. Qed.

Lemma prepend_prepend {A} t1 t2 (x : A * Runner * list Effect) :
  prepend t1 (prepend t2 x) = prepend (t1 ++ t2) x.
Proof.
  unfold prepend. cbn [value final trace fst snd].
  rewrite app_assoc. reflexivity.
Qed.

Lemma bind_split {A B} (m : M A) (k : A -> M B) r :
  bind m k r = prepend (trace (m r)) (k (value (m r)) (final (m r))).
Proof. apply bind_step. destruct (m r) as [[a r1] t1]. reflexivity. Qed.

Lemma loop_cons opts env rest r :
  loop opts (env :: rest) r =
  prepend (trace (iteration opts env r))
    (match value (iteration opts env r) with
     | Continue => loop opts rest (final (iteration opts env r))
     | Return e => (Some e, final (iteration opts env r), [])
     end).
Proof.
  cbn [Supervisor.loop]. rewrite bind_split.
  destruct (value (iteration opts env r)); reflexivity.
Qed.

(** While the loop has not returned, the turns of a script compose. *)
Lemma loop_app opts pre rest : forall r,
  value (loop opts pre r) = None ->
  loop opts (pre ++ rest) r =
  prepend (trace (loop opts pre r)) (loop opts rest (final (loop opts pre r))).
Proof.
  induction pre as [|env pre IH]; intros r H.
  - cbn. rewrite prepend_nil. reflexivity.
  - cbn [app]. rewrite !loop_cons in *.
    rewrite value_prepend in H. rewrite final_prepend, trace_prepend.
    destruct (value (iteration opts env r)) as [|e].
    + rewrite IH by exact H. rewrite prepend_prepend. reflexivity.
    + discriminate H.
Qed.

(** A turn that ends the loop makes the rest of the script irrelevant. *)
Lemma loop_returns opts env rest r e :
  value (iteration opts env r) = Return e ->
  loop opts (env :: rest) r =
  (Some e, final (iteration opts env r), trace (iteration opts env r)).
Proof.
  intros H. rewrite loop_cons, H. unfold prepend.
  cbn [value final trace fst snd]. rewrite app_nil_r. reflexivity.
Qed.

Lemma RunWithLogger_eq opts script r :
  RunWithLogger opts script r =
  prepend (prologue opts)
    (match value (loop opts script (set_logger true r)) with
     | Some e =>
         (Some e, set_logger false (final (loop opts script (set_logger true r))),
          trace (loop opts script (set_logger true r)) ++
          [ELog "INFO" (eventName opts "stop") []])
     | None => loop opts script (set_logger true r)
     end).
Proof.
  unfold Supervisor.RunWithLogger, prologue.
  mstep.
  rewrite (bind_step _ _ _ tt r
             match BuildInfo opts with
             | [] => []
             | _ => [ELog "INFO" (eventName opts "build_info") (BuildInfo opts)]
             end)
    by (destruct (BuildInfo opts); reflexivity).
  mstep.
  rewrite bind_split.
  rewrite !prepend_prepend.
  destruct (value (loop opts script (set_logger true r))) as [e|] eqn:V.
  - mstep. mstep. rewrite !prepend_prepend. unfold ret, prepend.
    cbn [value final trace fst snd setLogger modify]. 
    rewrite !app_nil_r, <- !app_assoc. cbn [app]. reflexivity.
  - unfold ret, prepend. cbn [value final trace fst snd].
    rewrite !app_nil_r, <- !app_assoc. cbn [app].
    destruct (loop opts script (set_logger true r)) as [[v r1] t1].
    cbn [value fst] in V. subst v. reflexivity.
Qed.

Lemma spawns_app t1 t2 : spawns (t1 ++ t2) = (spawns t1 + spawns t2)%nat.
Proof. unfold spawns. rewrite filter_app, length_app. reflexivity. Qed.

Lemma spawns_snapshotOf r : spawns (snapshotOf r) = 0%nat.
Proof. unfold spawns. rewrite filter_snapshotOf; reflexivity. Qed.

(** C1.  Whatever the restart policy: if, in some turn of the loop, the
    child that was spawned exits and the exit is classified [auth] or
    [hostkey], then [RunWithLogger] returns (nil) in that turn: what the
    script holds for later turns plays no part, and the exited child is the
    last one spawned. *)
Theorem auth_hostkey_terminal :
  forall (opts : Options) (pre : list IterEnv) (env : IterEnv)
         (post : list IterEnv) (r : Runner),
    value (loop opts pre (set_logger true r)) = None ->
    childRuns env (final (loop opts pre (set_logger true r))) ->
    isAuthOrHostkey (classOf env) = true ->
    value (RunWithLogger opts (pre ++ env :: post) r) = Some None /\
    RunWithLogger opts (pre ++ env :: post) r =
      RunWithLogger opts (pre ++ [env]) r /\
    spawns (trace (RunWithLogger opts (pre ++ env :: post) r)) =
      S (spawns (trace (RunWithLogger opts pre r))).
Proof.
  intros opts pre env post r Hgo Hrun Hclass.
  destruct (iteration_terminal opts env _ Hrun Hclass)
    as (Hv & c & ch & s1 & s2 & lvl & fields & Ht).
  assert (E : forall rest,
             loop opts (pre ++ env :: rest) (set_logger true r) =
             prepend (trace (loop opts pre (set_logger true r)))
               (Some None,
                final (iteration opts env (final (loop opts pre (set_logger true r)))),
                trace (iteration opts env (final (loop opts pre (set_logger true r)))))).
  { intros rest. rewrite loop_app by exact Hgo.
    rewrite (loop_returns _ _ _ _ _ Hv). reflexivity. }
  rewrite !RunWithLogger_eq, !E, Hgo.
  rewrite !value_prepend. cbn [value fst].
  split; [reflexivity|]. split; [reflexivity|].
  rewrite !trace_prepend, !final_prepend. cbn [trace snd final fst].
  rewrite Ht, !spawns_app, !spawns_snapshotOf.
  unfold Supervisor.policyStop.
  cbn [spawns filter isSpawn List.length]. lia.
Qed.

(** The second test of the restart decision is never reached with a
    terminal class: [shouldRestart] has already answered no. *)
Lemma error_branch_unreachable r exitCode err class :
  shouldRestart r exitCode err class = true -> isAuthOrHostkey class = false.
Proof.
  unfold shouldRestart. destruct (isAuthOrHostkey class); [discriminate|reflexivity].
Qed.

(** C9.  On a child exit classified [auth] or [hostkey] the turn logs
    exactly one [restart_policy_stop] event, at INFO level, and none at
    ERROR level, before the loop returns. *)
Theorem terminal_stop_logged_at_info :
  forall (opts : Options) (env : IterEnv) (r : Runner),
    childRuns env r ->
    isAuthOrHostkey (classOf env) = true ->
    value (iteration opts env r) = Return None /\
    filter (isPolicyStop "ERROR") (trace (iteration opts env r)) = [] /\
    filter (isPolicyStop "INFO") (trace (iteration opts env r)) =
      [policyStop r (classOf env)].
Proof.
  intros opts env r Hrun Hclass.
  destruct (iteration_terminal opts env _ Hrun Hclass)
    as (Hv & c & ch & s1 & s2 & lvl & fields & Ht).
  split; [exact Hv|]. rewrite Ht.
  rewrite !filter_app, !(filter_snapshotOf (isPolicyStop _)) by reflexivity.
  unfold Supervisor.policyStop.
  cbn [filter isPolicyStop app].
  rewrite !(proj2 (String.eqb_neq "ssh_exited" "restart_policy_stop"))
    by discriminate.
  rewrite !andb_false_r.
  split; reflexivity.
Qed.

End LoopFacts.

(** C1 on a run under the on-failure policy whose first child is refused
    by the server, whose second child fails to authenticate, and for which
    one more turn is scripted. *)
Lemma auth_hostkey_terminal_witness :
  value (RunWithLogger sampleClassify sampleFormat sampleName sampleOptions
           ([refusedTurn] ++ deniedTurn :: [refusedTurn])
           (New PolicyOnFailure))
  = Some None.
Proof.
  apply (auth_hostkey_terminal sampleClassify sampleFormat sampleName
           sampleOptions [refusedTurn] deniedTurn [refusedTurn]
           (New PolicyOnFailure)).
  - vm_compute. reflexivity.
  - repeat split; vm_compute; reflexivity.
  - reflexivity.
Defined.

(** C9 on a turn whose child fails to authenticate. *)
Lemma terminal_stop_logged_at_info_witness :
  filter (isPolicyStop "ERROR")
    (trace (iteration sampleClassify sampleFormat sampleName sampleOptions
              deniedTurn (New PolicyAlways))) = [] /\
  filter (isPolicyStop "INFO")
    (trace (iteration sampleClassify sampleFormat sampleName sampleOptions
              deniedTurn (New PolicyAlways))) =
    [ELog "INFO" "restart_policy_stop"
          [("policy", AStr "always"); ("class", AStr "auth")]].
Proof.
  destruct (terminal_stop_logged_at_info sampleClassify sampleFormat sampleName
              sampleOptions deniedTurn (New PolicyAlways))
    as (_ & He & Hi).
  - repeat split.
  - reflexivity.
  - split; [exact He | exact Hi].
Defined.

End SupervisorFacts.

(** ** The network watcher *)

Module MonitorFacts.

Import Monitor.
Local Open Scope string_scope.
Local Open Scope list_scope.
Local Open Scope Z_scope.

(** A flag test by masking is a bit test. *)
Lemma land_pow2_eqb (a n : Z) :
  0 <= n -> (Z.land a (2 ^ n) =? 0) = negb (Z.testbit a n).
Proof.
  intros Hn. destruct (Z.testbit a n) eqn:T; cbn [negb].
  - apply Z.eqb_neq. intros E.
    assert (B : Z.testbit (Z.land a (2 ^ n)) n = true).
    { rewrite Z.land_spec, T, Z.pow2_bits_true by exact Hn. reflexivity. }
    rewrite E, Z.bits_0 in B. discriminate.
  - apply Z.eqb_eq. apply Z.bits_inj'. intros m Hm.
    rewrite Z.land_spec, Z.bits_0, Z.pow2_bits_eqb by exact Hn.
    destruct (Z.eqb_spec n m) as [->|]; [rewrite T|rewrite andb_false_r]; reflexivity.
Qed.

Lemma append_each (f : string -> string) (l : list string) : forall acc,
  fold_left (fun acc a => acc ++ [f a]) l acc = acc ++ map f l.
Proof.
  induction l as [|a l IH]; intros acc; cbn [fold_left map].
  - rewrite app_nil_r. reflexivity.
  - rewrite IH, <- app_assoc. reflexivity.
Qed.

(** The loop collects exactly the pairs of the specification, in the
    order of the interfaces. *)
Lemma visit_all (l : list Interface) : forall acc,
  fold_left visit l acc = acc ++ pairs l.
Proof.
  unfold pairs.
  induction l as [|i l IH]; intros acc; cbn [fold_left filter flat_map].
  - rewrite app_nil_r. reflexivity.
  - rewrite IH. unfold visit at 1, isUp, isLoopback.
    change FlagUp with (2 ^ 0). change FlagLoopback with (2 ^ 2).
    rewrite !land_pow2_eqb by lia.
    destruct (Z.testbit (Flags i) 0); cbn [negb andb]; [|reflexivity].
    rewrite negb_involutive.
    destruct (Z.testbit (Flags i) 2); cbn [negb flat_map]; [reflexivity|].
    destruct (Addrs i) as [addrs|]; cbn [app].
    + rewrite append_each, <- app_assoc. reflexivity.
    + reflexivity.
Qed.

(** The lexicographic order is transitive. *)
Lemma compare_trans_le : forall a b c : string,
  String.leb a b = true -> String.leb b c = true -> String.leb a c = true.
Proof.
  unfold String.leb.
  induction a as [|x a IH]; intros [|y b] [|z c]; cbn [String.compare];
    try reflexivity; try discriminate.
  unfold Ascii.compare.
  destruct (N.compare_spec (N_of_ascii x) (N_of_ascii y)) as [E1|L1|G1];
    destruct (N.compare_spec (N_of_ascii y) (N_of_ascii z)) as [E2|L2|G2];
    try discriminate; intros H1 H2.
  - rewrite E1, E2, N.compare_refl in *. eapply IH; eassumption.
  - rewrite E1. rewrite (proj2 (N.compare_lt_iff _ _) L2). reflexivity.
  - rewrite <- E2. rewrite (proj2 (N.compare_lt_iff _ _) L1). reflexivity.
  - rewrite (proj2 (N.compare_lt_iff _ _) (N.lt_trans _ _ _ L1 L2)). reflexivity.
Qed.

(** Insertion sort arranges its input in ascending order. *)
Lemma insert_perm (s : string) (l : list string) :
  Permutation (insertString s l) (s :: l).
Proof.
  induction l as [|x l IH]; cbn [insertString].
  - apply Permutation_refl.
  - destruct (String.leb s x).
    + apply Permutation_refl.
    + eapply perm_trans; [apply perm_skip, IH | apply perm_swap].
Qed.

Lemma sort_perm (l : list string) : Permutation (sortStrings l) l.
Proof.
  induction l as [|x l IH]; cbn [sortStrings fold_right].
  - apply perm_nil.
  - eapply perm_trans; [apply insert_perm | apply perm_skip, IH].
Qed.

Lemma insert_ascending (s : string) (l : list string) :
  ascending l -> ascending (insertString s l).
Proof.
  unfold ascending.
  induction l as [|x l IH]; intros H; cbn [insertString].
  - repeat constructor.
  - apply StronglySorted_inv in H as [Hl Hx].
    destruct (String.leb s x) eqn:E.
    + constructor; [constructor; assumption|].
      constructor; [exact E|].
      eapply Forall_impl; [|exact Hx].
      intros y Hy. eapply compare_trans_le; eassumption.
    + constructor; [apply IH, Hl|].
      assert (Hxs : String.leb x s = true).
      { destruct (String.leb_total s x) as [C|C]; [congruence|exact C]. }
      eapply Permutation_Forall; [apply Permutation_sym, insert_perm|].
      constructor; assumption.
Qed.

Lemma sort_ascending (l : list string) : ascending (sortStrings l).
Proof.
  induction l as [|x l IH]; cbn [sortStrings fold_right].
  - constructor.
  - apply insert_ascending, IH.
Qed.

(** An ascending arrangement of a list is unique. *)
Lemma ascending_unique : forall l1 l2 : list string,
  ascending l1 -> ascending l2 -> Permutation l1 l2 -> l1 = l2.
Proof.
  unfold ascending.
  induction l1 as [|x l1 IH]; intros l2 H1 H2 P.
  - apply Permutation_nil in P. congruence.
  - destruct l2 as [|y l2]; [apply Permutation_sym, Permutation_nil in P; discriminate|].
    apply StronglySorted_inv in H1 as [S1 F1].
    apply StronglySorted_inv in H2 as [S2 F2].
    assert (x = y).
    { assert (I1 : In x (y :: l2))
        by (eapply Permutation_in; [exact P|left; reflexivity]).
      assert (I2 : In y (x :: l1))
        by (eapply Permutation_in;
            [apply Permutation_sym, P|left; reflexivity]).
      destruct I1 as [->|I1]; [reflexivity|].
      destruct I2 as [->|I2]; [reflexivity|].
      apply String.leb_antisym.
      - rewrite Forall_forall in F1. apply F1, I2.
      - rewrite Forall_forall in F2. apply F2, I1. }
    subst y. f_equal. apply IH; try assumption.
    eapply Permutation_cons_inv. exact P.
Qed.

(** One tick, and the count over many. *)
Lemma tick_triggers prev next :
  triggers (snd (tick prev (Some next))) =
  if String.eqb next prev then [] else ["network change"].
Proof. unfold tick. destruct (String.eqb next prev); reflexivity. Qed.

Lemma tick_prev prev next : fst (tick prev (Some next)) = next.
Proof.
  unfold tick. destruct (String.eqb_spec next prev); cbn; congruence.
Qed.

Lemma watcher_counts (fps : list string) : forall prev,
  List.length (flat_map triggers (ticks prev (map Some fps))) = changes prev fps.
Proof.
  induction fps as [|fp fps IH]; intros prev; cbn [map ticks flat_map changes].
  - reflexivity.
  - rewrite length_app, tick_triggers, tick_prev, IH.
    destruct (String.eqb fp prev); reflexivity.
Qed.

(** C8.  The fingerprint is the comma-joined ascending arrangement of the
    "<interface-name>|<address>" pairs of all up, non-loopback interfaces
    (interfaces whose address lookup fails contribute nothing), and that
    arrangement is unique; a poll whose fingerprint differs from the one
    remembered emits exactly one "network change" trigger and one that
    does not differ emits none, so over successive polls there are as many
    triggers as changes; {eth0 up 10.0.0.2/24, lo up loopback, en1 down}
    gives "eth0|10.0.0.2/24", and en1 coming up gives one trigger. *)
Theorem fingerprint_and_watcher :
  (forall ifaces : list Interface,
      exists l : list string,
        networkFingerprint (Some ifaces) = Some (String.concat "," l) /\
        Permutation l (pairs ifaces) /\ ascending l /\
        (forall l', Permutation l' (pairs ifaces) -> ascending l' -> l' = l)) /\
  (forall prev next : string,
      triggers (snd (tick prev (Some next))) =
        (if String.eqb next prev then [] else ["network change"]) /\
      fst (tick prev (Some next)) = next) /\
  (forall (first : string) (fps : list string),
      List.length
        (flat_map triggers (networkWatcher (Some first) (map Some fps))) =
        changes first fps) /\
  networkFingerprint (Some [eth0; lo; en1_down]) = Some "eth0|10.0.0.2/24" /\
  networkFingerprint (Some [eth0; lo; en1_up]) =
    Some "en1|192.168.1.2/24,eth0|10.0.0.2/24" /\
  flat_map triggers
    (networkWatcher (networkFingerprint (Some [eth0; lo; en1_down]))
       [networkFingerprint (Some [eth0; lo; en1_down]);
        networkFingerprint (Some [eth0; lo; en1_up]);
        networkFingerprint (Some [eth0; lo; en1_up])]) =
    ["network change"].
Proof.
  split; [|split; [|split; [|split; [|split]]]].
  - intros ifaces. exists (sortStrings (pairs ifaces)).
    unfold networkFingerprint. rewrite visit_all. cbn [app].
    split; [reflexivity|]. split; [apply sort_perm|]. split; [apply sort_ascending|].
    intros l' P A. apply ascending_unique; [exact A|apply sort_ascending|].
    eapply perm_trans; [exact P|apply Permutation_sym, sort_perm].
  - intros prev next. split; [apply tick_triggers|apply tick_prev].
  - intros first fps. apply watcher_counts.
  - vm_compute. reflexivity.
  - vm_compute. reflexivity.
  - vm_compute. reflexivity.
Qed.

End MonitorFacts.

(** ** The success-grace task *)

Module GraceFacts.

Import GoTime StateMachine Supervisor Grace.
Local Open Scope Z_scope.

(** What the driver's and the tasks' actions do to the three fields the
    grace check reads or writes. *)
Lemma after_transition next r :
  sm (after (transition next) r) = fst (Transition (sm r) next) /\
  cmd (after (transition next) r) = cmd r /\
  lastSuccess (after (transition next) r) = lastSuccess r.
Proof.
  unfold after, transition, final. destruct (Transition (sm r) next).
  repeat split.
Qed.

Lemma to_Stopped s : fst (Transition s StateStopped) = StateStopped.
Proof. destruct s; reflexivity. Qed.

Lemma after_failStart err r :
  sm (after (failStart err) r) = StateStopped /\
  cmd (after (failStart err) r) = cmd r /\
  lastSuccess (after (failStart err) r) = lastSuccess r.
Proof.
  unfold after, failStart, bind, final, recordStartFailure, modify, ret, transition.
  destruct (Transition (sm r) StateStopped) eqn:E. cbn.
  pose proof (to_Stopped (sm r)) as T. rewrite E in T. cbn in T.
  repeat split. exact T.
Qed.

Lemma after_successMark c now r :
  sm (after (successMark c now) r) = sm r /\
  cmd (after (successMark c now) r) = cmd r /\
  (lastSuccess (after (successMark c now) r) <> lastSuccess r ->
   same_cmd (cmd r) c = true /\ sm r = StateConnected /\
   lastSuccess (after (successMark c now) r) = now).
Proof.
  unfold after, successMark, bind, get, modify, ret, final, writeSnapshot, emit.
  destruct (same_cmd (cmd r) c); cbn [negb orb].
  2:{ cbn. repeat split; congruence. }
  destruct (sm r) eqn:E; cbn [State_eqb negb]; cbn.
  1,2: repeat split; congruence.
  rewrite ?E. destruct (stateWriter r); cbn; repeat split; congruence.
Qed.

Lemma after_waitTask c ch err r :
  sm (after (waitTask c ch err) r) = sm r /\
  cmd (after (waitTask c ch err) r) = cmd r /\
  lastSuccess (after (waitTask c ch err) r) = lastSuccess r.
Proof.
  unfold after, waitTask, modify, final. cbn [fst snd].
  destruct (same_cmd (cmd r) c &&
            match waitDone r with Some ch' => Nat.eqb ch' ch | None => false end);
    repeat split.
Qed.

Lemma same_cmd_id field c :
  same_cmd field c = true -> exists c', field = Some c' /\ cmd_id c' = cmd_id c.
Proof.
  unfold same_cmd, Cmd_eqb. destruct field as [c'|]; [|discriminate].
  intros H. apply Nat.eqb_eq in H. eauto.
Qed.

(** ** [connectedSince] along a run *)

Lemma since_start c limit s l :
  connectedWith c s -> clock s <= limit -> connectedSince c limit (s :: l).
Proof.
  intros H L. exists [], s, l. repeat split; [exact L|].
  constructor; [exact H|constructor].
Qed.

Lemma since_extend c limit s l :
  connectedSince c limit l -> connectedWith c s ->
  connectedSince c limit (s :: l).
Proof.
  intros (recent & x & older & -> & L & F) H.
  exists (s :: recent), x, older. repeat split; [exact L|].
  cbn [app]. constructor; assumption.
Qed.

Lemma since_weaken c limit limit' l :
  limit <= limit' -> connectedSince c limit l -> connectedSince c limit' l.
Proof.
  intros Hle (recent & x & older & E & L & F).
  exists recent, x, older. repeat split; [exact E|lia|exact F].
Qed.

(** ** The invariant holds along every run *)

Lemma Inv_init p t0 : Inv (init p t0) [].
Proof.
  unfold Inv, init, driverSound. cbn. repeat split; [discriminate|constructor].
Qed.

(** A step that leaves [r.cmd] alone and does not enter Connected keeps
    every sleeping task sound. *)
Lemma tasks_kept s past s' :
  Forall (taskSound s past) (tasks s) ->
  (fresh s <= fresh s')%nat ->
  (forall c', cmd (runner s') = Some c' -> sm (runner s') = StateConnected ->
              cmd (runner s) = Some c' /\ sm (runner s) = StateConnected) ->
  Forall (taskSound s' (s :: past)) (tasks s).
Proof.
  intros F Hf Hk. rewrite Forall_forall in *. intros t Ht.
  destruct (F t Ht) as (Hid & Hs). split; [lia|].
  intros c' Hc Heq Hsm. destruct (Hk c' Hc Hsm) as (Hc0 & Hsm0).
  destruct (Hs c' Hc0 Heq Hsm0) as (-> & Hsince).
  split; [reflexivity|]. apply since_extend; [exact Hsince|].
  split; assumption.
Qed.

(** A step after which no sleeping task's child is current and Connected
    keeps every sleeping task sound. *)
Lemma tasks_idle s past s' :
  Forall (taskSound s past) (tasks s) ->
  (fresh s <= fresh s')%nat ->
  (forall t c', In t (tasks s) -> cmd (runner s') = Some c' ->
                cmd_id c' = cmd_id (fst t) ->
                sm (runner s') = StateConnected -> False) ->
  Forall (taskSound s' (s :: past)) (tasks s).
Proof.
  intros F Hf Hk. rewrite Forall_forall in *. intros t Ht.
  destruct (F t Ht) as (Hid & _). split; [lia|].
  intros c' Hc Heq Hsm. exfalso. eapply Hk; eassumption.
Qed.

Lemma Inv_step s past s' :
  Inv s past -> step s s' -> Inv s' (s :: past).
Proof.
  intros (Hcmd & Htasks & Hdrv) Hstep. unfold driverSound in Hdrv.
  inversion Hstep; subst; unfold Inv, driverSound; cbn [runner tasks pc fresh clock].
  - (* tick *)
    split; [exact Hcmd|]. split; [|exact Hdrv].
    apply (tasks_kept s past); [exact Htasks|cbn; lia|cbn [runner]; auto].
  - (* enter *)
    destruct (after_transition StateConnecting (runner s)) as (Hsm & Hc & _).
    assert (Hnot : sm (after (transition StateConnecting) (runner s)) <> StateConnected).
    { rewrite Hsm. revert H0. unfold value, transition, Transition.
      destruct (sm (runner s)); cbn; discriminate. }
    rewrite Hc. split; [exact Hcmd|]. split; [|exact I].
    apply (tasks_idle s past); [exact Htasks|cbn; lia|cbn [runner]].
    intros t c' _ _ _ H'. exact (Hnot H').
  - (* fail *)
    destruct (after_failStart err (runner s)) as (Hsm & Hc & _).
    rewrite Hc. split; [exact Hcmd|]. split; [|exact I].
    apply (tasks_idle s past); [exact Htasks|cbn; lia|cbn [runner]].
    intros t c' _ _ _ H'. congruence.
  - (* spawn *)
    split; [intros c' E; inversion E; subst; cbn; lia|].
    assert (Hfresh : forall t, In t (tasks s) -> cmd_id (fst t) <> fresh s).
    { intros t Ht. rewrite Forall_forall in Htasks.
      destruct (Htasks t Ht) as (Hid & _). lia. }
    split.
    + apply (tasks_idle s past); [exact Htasks|cbn; lia|cbn [runner]].
      intros t c' Ht E Hid _. inversion E; subst. cbn in Hid.
      apply (Hfresh t Ht). congruence.
    + split; [reflexivity|]. intros t Ht. cbn. apply Hfresh, Ht.
  - (* connect *)
    rewrite H in Hdrv. destruct Hdrv as (Hc0 & Hno).
    destruct (after_transition StateConnected (runner s)) as (Hsm & Hc & _).
    rewrite Hc. split; [exact Hcmd|]. split; [|exact Hc0].
    apply (tasks_idle s past); [exact Htasks|cbn; lia|cbn [runner]].
    intros t c' Ht E Hid _. rewrite Hc, Hc0 in E. inversion E; subst.
    apply (Hno t Ht). congruence.
  - (* rollback *)
    rewrite H in Hdrv. destruct Hdrv as (Hc0 & Hno).
    rewrite Hc0. unfold same_cmd, Cmd_eqb. rewrite Nat.eqb_refl. cbn [cmd set_child].
    split; [discriminate|]. split; [|exact I].
    apply (tasks_idle s past); [exact Htasks|cbn; lia|cbn [runner cmd set_child]].
    discriminate.
  - (* rollback, older copy *)
    rewrite H in Hdrv. destruct Hdrv as (Hc0 & Hno).
    split; [exact Hcmd|]. split; [|exact I].
    apply (tasks_idle s past); [exact Htasks|cbn; lia|cbn [runner]].
    intros t c' Ht E Hid _. rewrite Hc0 in E. inversion E; subst.
    apply (Hno t Ht). congruence.
  - (* schedule *)
    rewrite H in Hdrv.
    assert (Hr : sm (after recordStartSuccess (runner s)) = sm (runner s) /\
                 cmd (after recordStartSuccess (runner s)) = cmd (runner s))
      by (split; reflexivity).
    destruct Hr as (Hsm & Hc). rewrite Hc.
    split; [exact Hcmd|]. split; [|exact I].
    constructor.
    + split; cbn [fst snd runner fresh].
      * apply Hcmd, Hdrv.
      * intros c' E Hid Hconn. rewrite Hc, Hdrv in E. inversion E; subst c'.
        split; [reflexivity|].
        apply since_start;
          [split; cbn [runner]; [exact Hconn|rewrite Hc; exact Hdrv]
          |cbn [clock]; lia].
    + apply (tasks_kept s past); [exact Htasks|cbn; lia|cbn [runner]].
      intros c' E Hconn. rewrite Hc in E. rewrite Hsm in Hconn. auto.
  - (* exit *)
    destruct (after_transition StateStopped (runner s)) as (Hsm & Hc & _).
    rewrite to_Stopped in Hsm.
    rewrite Hc. split; [exact Hcmd|]. split; [|exact I].
    apply (tasks_idle s past); [exact Htasks|cbn; lia|cbn [runner]].
    intros t c' _ _ _ H'. congruence.
  - (* clear *)
    split; [discriminate|]. split; [|exact I].
    apply (tasks_idle s past); [exact Htasks|cbn; lia|cbn [runner cmd set_child]].
    discriminate.
  - (* stop *)
    destruct (after_transition StateStopped (runner s)) as (Hsm & Hc & _).
    rewrite to_Stopped in Hsm.
    rewrite Hc. split; [exact Hcmd|]. split.
    + apply (tasks_idle s past); [exact Htasks|cbn; lia|cbn [runner]].
      intros t c' _ _ _ H'. congruence.
    + destruct (pc s); try exact I; rewrite ?Hc; exact Hdrv.
  - (* other *)
    destruct (H (runner s)) as (Hsm & Hc & _).
    rewrite Hc. split; [exact Hcmd|]. split.
    + apply (tasks_kept s past); [exact Htasks|cbn; lia|cbn [runner]].
      intros c' E Hconn. rewrite Hc in E. rewrite Hsm in Hconn. auto.
    + destruct (pc s); try exact I; rewrite ?Hc; exact Hdrv.
  - (* reap *)
    destruct (after_waitTask c ch err (runner s)) as (Hsm & Hc & _).
    rewrite Hc. split; [exact Hcmd|]. split.
    + apply (tasks_kept s past); [exact Htasks|cbn; lia|cbn [runner]].
      intros c' E Hconn. rewrite Hc in E. rewrite Hsm in Hconn. auto.
    + destruct (pc s); try exact I; rewrite ?Hc; exact Hdrv.
  - (* fire *)
    destruct (after_successMark c (clock s) (runner s)) as (Hsm & Hc & _).
    rewrite Hc. split; [exact Hcmd|]. split.
    + assert (K : Forall (taskSound
                   {| clock := clock s;
                      runner := after (successMark c (clock s)) (runner s);
                      tasks := pre ++ post; pc := pc s; fresh := fresh s |}
                   (s :: past)) (tasks s)).
      { apply (tasks_kept s past); [exact Htasks|cbn; lia|cbn [runner]].
        intros c' E Hconn. rewrite Hc in E. rewrite Hsm in Hconn. auto. }
      rewrite H in K. rewrite Forall_app in *. destruct K as (K1 & K2).
      inversion K2; subst. split; assumption.
    + destruct (pc s); try exact I; rewrite ?Hc.
      * destruct Hdrv as (Hd1 & Hd2). split; [exact Hd1|].
        intros t Ht. apply Hd2. rewrite H.
        apply in_app_or in Ht. apply in_or_app.
        destruct Ht; [left|right; right]; assumption.
      * exact Hdrv.
Qed.

Lemma Inv_run p t0 s past : run p t0 s past -> Inv s past.
Proof.
  induction 1 as [|s past s' _ IH Hstep].
  - apply Inv_init.
  - eapply Inv_step; eassumption.
Qed.

(** Only a grace task writes [lastSuccess]. *)
Lemma only_fire_marks s s' :
  step s s' -> lastSuccess (runner s') <> lastSuccess (runner s) ->
  exists pre c due post,
    tasks s = pre ++ (c, due) :: post /\ due <= clock s /\
    clock s' = clock s /\
    runner s' = after (successMark c (clock s)) (runner s).
Proof.
  intros Hstep Hneq. inversion Hstep; subst; cbn [runner clock] in *;
    try (exfalso; apply Hneq; reflexivity).
  - destruct (after_transition StateConnecting (runner s)) as (_ & _ & E). congruence.
  - destruct (after_failStart err (runner s)) as (_ & _ & E). congruence.
  - destruct (after_transition StateConnected (runner s)) as (_ & _ & E). congruence.
  - exfalso. apply Hneq.
    destruct (same_cmd (cmd (runner s)) c); reflexivity.
  - destruct (after_transition StateStopped (runner s)) as (_ & _ & E). congruence.
  - destruct (after_transition StateStopped (runner s)) as (_ & _ & E). congruence.
  - destruct (H (runner s)) as (_ & _ & E). congruence.
  - destruct (after_waitTask c ch err (runner s)) as (_ & _ & E). congruence.
  - exists pre, c, due, post. repeat split; assumption.
Qed.

(** What the guard of the grace task does ensure.  Along every
    interleaving of the driver, [Stop] calls, other goroutines, the clock,
    the wait task and the grace tasks: a step changes [lastSuccess] only
    if it is the grace task of the current child [c] waking up, the
    runner has shown Connected with [c] as its child at every state since
    one that lies at least the grace period (2 s) back, and the value
    written is the current time.  A grace task whose child is no longer
    the current one (replaced, or exited and cleared), or that finds the
    machine not Connected, changes nothing.  Whether the child is still
    running is not part of it, as the run [d0 .. d4; x5 .. x8] shows. *)
Theorem success_mark_sound :
  forall (p : Policy) (t0 : Time) (s : Sys) (past : list Sys) (s' : Sys),
    run p t0 s past ->
    step s s' ->
    lastSuccess (runner s') <> lastSuccess (runner s) ->
    (exists (c : Cmd) (due : Time),
        In (c, due) (tasks s) /\ due <= clock s /\
        connectedSince c (clock s - successGracePeriod) (s :: past) /\
        lastSuccess (runner s') = clock s) /\
    (forall (c : Cmd) (now : Time) (r : Runner),
        same_cmd (cmd r) c = false \/ sm r <> StateConnected ->
        successMark c now r = (tt, r, [])).
Proof.
  intros p t0 s past s' Hrun Hstep Hneq. split.
  - destruct (only_fire_marks s s' Hstep Hneq)
      as (pre & c & due & post & Ht & Hdue & _ & Hr).
    rewrite Hr in Hneq |- *.
    destruct (after_successMark c (clock s) (runner s)) as (_ & _ & Hm).
    destruct (Hm Hneq) as (Hsame & Hconn & Hval).
    destruct (same_cmd_id _ _ Hsame) as (c' & Hc' & Hid).
    destruct (Inv_run _ _ _ _ Hrun) as (_ & Htasks & _).
    rewrite Forall_forall in Htasks.
    assert (Hin : In (c, due) (tasks s))
      by (rewrite Ht; apply in_or_app; right; left; reflexivity).
    destruct (Htasks _ Hin) as (_ & Hsound).
    destruct (Hsound c' Hc' Hid Hconn) as (_ & Hsince).
    exists c, due. repeat split; try assumption.
    eapply since_weaken; [|exact Hsince]. cbn [snd]. lia.
  - intros c now r H. unfold successMark, bind, get, ret.
    destruct H as [H|H].
    + rewrite H. reflexivity.
    + destruct (sm r); try contradiction; cbn [State_eqb negb];
        rewrite orb_true_r; reflexivity.
Qed.

(** The sample run is a run. *)
Lemma demo_run : run PolicyAlways (1000 * Second) d5 [d4; d3; d2; d1; d0].
Proof.
  apply run_step; [apply run_step; [apply run_step; [apply run_step;
    [apply run_step; [apply run_init|]|]|]|]|].
  - exact (s_enter d0 eq_refl eq_refl).
  - exact (s_spawn d1 4242%nat 1%nat eq_refl).
  - exact (s_connect d2 demoChild eq_refl eq_refl).
  - exact (s_schedule d3 demoChild eq_refl).
  - apply (s_tick d4 successGracePeriod). vm_compute. discriminate.
Defined.

(** The theorem on that run: the mark is made, and the child has been
    Connected since the state in which the task was armed. *)
Lemma success_mark_sound_witness :
  lastSuccess (runner d6) = clock d5 /\
  connectedSince demoChild (clock d5 - successGracePeriod)
                 [d5; d4; d3; d2; d1; d0].
Proof.
  destruct (success_mark_sound PolicyAlways (1000 * Second) d5
              [d4; d3; d2; d1; d0] d6) as ((c & due & Hin & _ & Hs & Hl) & _).
  - exact demo_run.
  - apply (s_fire d5 [] demoChild (clock d0 + successGracePeriod) []).
    + reflexivity.
    + vm_compute. discriminate.
  - vm_compute. discriminate.
  - split; [exact Hl|].
    destruct Hin as [E|[]]. inversion E; subst. exact Hs.
Defined.

(** The other sample run is a run too. *)
Lemma late_exit_run :
  run PolicyAlways (1000 * Second) x7 [x6; x5; d4; d3; d2; d1; d0].
Proof.
  apply run_step; [apply run_step; [apply run_step; [apply run_step;
    [apply run_step; [apply run_step; [apply run_step; [apply run_init|]|]|]|]|]|]|].
  - exact (s_enter d0 eq_refl eq_refl).
  - exact (s_spawn d1 4242%nat 1%nat eq_refl).
  - exact (s_connect d2 demoChild eq_refl eq_refl).
  - exact (s_schedule d3 demoChild eq_refl).
  - apply (s_tick d4 (1999 * Millisecond)). vm_compute. discriminate.
  - exact (s_reap x5 demoChild 1%nat (Some (ExitError 255))).
  - apply (s_tick x6 (1 * Millisecond)). vm_compute. discriminate.
Qed.

(** C6.  The grace task tests the handle and the state of the runner,
    never whether the child is still running: on a runner that shows
    Connected with the task's child it writes [lastSuccess], whatever the
    wait task has recorded.  So in the run [d0 .. d4; x5 .. x8] (a run of
    the system), in which the child is armed at 1000 s and exits with status
    255 at 1001.999 s, the wait task records the exit, and the driver has
    not yet made its [Transition(Stopped)] when the grace task wakes up
    at 1002 s, [lastSuccess] is unset before that step and set to
    1002 s by it: a child that has exited before 2 s of Connected is
    marked as a success. *)
Theorem exited_child_marked_successful :
  (forall (r : Runner) (c : Cmd) (now : Time),
      same_cmd (cmd r) c = true -> sm r = StateConnected ->
      lastSuccess (after (successMark c now) r) = now) /\
  run PolicyAlways (1000 * Second) x8 [x7; x6; x5; d4; d3; d2; d1; d0] /\
  pc d4 = Waiting demoChild /\ clock d4 = 1000 * Second /\
  clock x6 = 1000 * Second + 1999 * Millisecond /\
  waitErr (runner x6) = Some (ExitError 255) /\
  waitErr (runner x7) = Some (ExitError 255) /\
  sm (runner x7) = StateConnected /\
  lastSuccess (runner x7) = zeroTime /\
  clock x7 = 1000 * Second + successGracePeriod /\
  lastSuccess (runner x8) = 1000 * Second + successGracePeriod /\
  IsZero (lastSuccess (runner x8)) = false.
Proof.
  split.
  - intros r c now Hc Hs.
    unfold after, successMark, bind, get, modify, ret, final, writeSnapshot, emit.
    rewrite Hc, Hs. cbn [State_eqb negb orb].
    cbn [stateWriter set_lastSuccess]. destruct (stateWriter r); reflexivity.
  - split.
    + apply run_step; [exact late_exit_run|].
      apply (s_fire x7 [] demoChild (clock d0 + successGracePeriod) []).
      * reflexivity.
      * vm_compute. discriminate.
    + repeat split; vm_compute; reflexivity.
Qed.

End GraceFacts.

(** ** IEEE comparisons *)

Module FloatFacts.

Lemma SFcompare_antisym x y :
  SFcompare y x = option_map CompOpp (SFcompare x y).
Proof.
  destruct x as [s1| s1| |s1 m1 e1], y as [s2|s2| |s2 m2 e2]; cbn;
    try reflexivity;
    try (destruct s1; reflexivity); try (destruct s2; reflexivity);
    try (destruct s1, s2; reflexivity).
  f_equal. destruct s1, s2; try reflexivity.
  - rewrite (Z.compare_antisym e1 e2).
    destruct (e1 ?= e2) eqn:E; cbn [CompOpp]; try reflexivity.
    change (PosDef.Pos.compare_cont Eq m2 m1) with (Pos.compare m2 m1).
    change (PosDef.Pos.compare_cont Eq m1 m2) with (Pos.compare m1 m2).
    rewrite (Pos.compare_antisym m1 m2). reflexivity.
  - rewrite (Z.compare_antisym e1 e2).
    destruct (e1 ?= e2) eqn:E; cbn [CompOpp]; try reflexivity.
    change (PosDef.Pos.compare_cont Eq m2 m1) with (Pos.compare m2 m1).
    change (PosDef.Pos.compare_cont Eq m1 m2) with (Pos.compare m1 m2).
    rewrite (Pos.compare_antisym m1 m2). reflexivity.
Qed.

Lemma SFcompare_nan x y :
  SFcompare x y = None ->
  SFcompare x x = None \/ SFcompare y y = None.
Proof.
  destruct x as [s1| s1| |s1 m1 e1], y as [s2|s2| |s2 m2 e2]; cbn;
    try discriminate; auto.
Qed.

Lemma is_nan_spec x :
  is_nan x = match SFcompare (Prim2SF x) (Prim2SF x) with
             | None => true | Some _ => false end.
Proof.
  unfold is_nan. rewrite eqb_spec. unfold SFeqb.
  destruct (Prim2SF x) as [s|s| |s m e]; cbn; try reflexivity.
  - destruct s; reflexivity.
  - rewrite Z.compare_refl.
    change (PosDef.Pos.compare_cont Eq m m) with (Pos.compare m m).
    rewrite Pos.compare_refl. destruct s; reflexivity.
Qed.

(** The order of the doubles is total apart from NaN. *)
Lemma not_ltb x y :
  (x <? y)%float = false ->
  is_nan x = true \/ is_nan y = true \/ (y <=? x)%float = true.
Proof.
  rewrite ltb_spec, leb_spec, !is_nan_spec. unfold SFltb, SFleb.
  rewrite (SFcompare_antisym (Prim2SF x) (Prim2SF y)).
  destruct (SFcompare (Prim2SF x) (Prim2SF y)) as [[]|] eqn:C; cbn;
    try discriminate; auto.
  intros _. apply SFcompare_nan in C as [-> | ->]; auto.
Qed.

Lemma not_eqb_ltb x y :
  (x =? y)%float = false -> (x <? y)%float = false ->
  is_nan x = true \/ is_nan y = true \/ (y <? x)%float = true.
Proof.
  rewrite eqb_spec, !ltb_spec, !is_nan_spec. unfold SFeqb, SFltb.
  rewrite (SFcompare_antisym (Prim2SF x) (Prim2SF y)).
  destruct (SFcompare (Prim2SF x) (Prim2SF y)) as [[]|] eqn:C; cbn;
    try discriminate; auto.
  intros _ _. apply SFcompare_nan in C as [-> | ->]; auto.
Qed.

End FloatFacts.

(** ** The configuration *)

Module GoStringsFacts.
Import GoStrings.
Local Open Scope string_scope.
Local Open Scope list_scope.

Lemma trimLeft_idem s : trimLeft (trimLeft s) = trimLeft s.
Proof.
  induction s as [|c s IH]; cbn [trimLeft]; [reflexivity|].
  destruct (isAsciiSpace c) eqn:E; [exact IH|].
  cbn [trimLeft]. rewrite E. reflexivity.
Qed.

Lemma trimRight_idem s : trimRight (trimRight s) = trimRight s.
Proof.
  induction s as [|c s IH]; cbn [trimRight]; [reflexivity|].
  destruct (trimRight s) as [|c' s'] eqn:E.
  - destruct (isAsciiSpace c) eqn:Ec; cbn [trimRight]; [reflexivity|].
    rewrite Ec. reflexivity.
  - cbn [trimRight]. cbn [trimRight] in IH. rewrite IH. reflexivity.
Qed.

Lemma trimRight_head c s :
  isAsciiSpace c = false -> exists s', trimRight (String c s) = String c s'.
Proof.
  intros E. cbn [trimRight]. destruct (trimRight s); rewrite ?E; eauto.
Qed.

Lemma trimLeft_head s :
  trimLeft s = "" \/ exists c s', trimLeft s = String c s' /\ isAsciiSpace c = false.
Proof.
  induction s as [|c s IH]; cbn [trimLeft]; [left; reflexivity|].
  destruct (isAsciiSpace c) eqn:E; [exact IH|]. right. eauto.
Qed.

Lemma asciiTrimSpace_idem s :
  asciiTrimSpace (asciiTrimSpace s) = asciiTrimSpace s.
Proof.
  unfold asciiTrimSpace.
  destruct (trimLeft_head s) as [->|(c & s' & -> & E)]; [reflexivity|].
  destruct (trimRight_head c s' E) as [s'' H]. rewrite H.
  cbn [trimLeft]. rewrite E, <- H. apply trimRight_idem.
Qed.

End GoStringsFacts.

Module ConfigFacts.
Import GoStrings GoStringsFacts Config.
Local Open Scope string_scope.
Local Open Scope list_scope.
Local Open Scope Z_scope.

Lemma existsb_eqb_In (x : string) (l : list string) :
  existsb (String.eqb x) l = true <-> In x l.
Proof.
  rewrite existsb_exists. split.
  - intros (y & Hy & E). apply String.eqb_eq in E. subst. exact Hy.
  - intros H. exists x. split; [exact H|apply String.eqb_refl].
Qed.

Section Normalize.

Variable TrimSpace : string -> string.

Local Notation "'add'" := (Config.add TrimSpace).
Local Notation "'normalize'" := (Config.normalize TrimSpace).

(** One step of the loop: the accumulator grows by at most the trimmed
    value, and only when that is new and not empty. *)
Lemma add_spec out v :
  add out v =
  if String.eqb (TrimSpace v) "" then out
  else if existsb (String.eqb (TrimSpace v)) out then out
  else out ++ [TrimSpace v].
Proof. reflexivity. Qed.

Lemma fold_add_NoDup l : forall acc,
  NoDup acc -> NoDup (fold_left add l acc).
Proof.
  induction l as [|v l IH]; intros acc H; cbn [fold_left]; [exact H|].
  apply IH. rewrite add_spec.
  destruct (String.eqb (TrimSpace v) ""); [exact H|].
  destruct (existsb (String.eqb (TrimSpace v)) acc) eqn:E; [exact H|].
  apply NoDup_app; [exact H|repeat constructor; intros []|].
  intros x Hx [<-|[]].
  apply existsb_eqb_In in Hx. congruence.
Qed.

Lemma fold_add_In l : forall acc x,
  In x (fold_left add l acc) <->
  In x acc \/ (x <> "" /\ exists v, In v l /\ TrimSpace v = x).
Proof.
  induction l as [|v l IH]; intros acc x; cbn [fold_left].
  - split; [auto|]. intros [H|(_ & v & [] & _)]. exact H.
  - rewrite IH, add_spec.
    destruct (String.eqb_spec (TrimSpace v) "") as [E|E].
    + split.
      * intros [H|(N & w & Hw & T)]; [auto|].
        right. split; [exact N|]. exists w. split; [right; exact Hw|exact T].
      * intros [H|(N & w & [->|Hw] & T)]; [auto|congruence|].
        right. split; [exact N|]. exists w. auto.
    + destruct (existsb (String.eqb (TrimSpace v)) acc) eqn:X.
      * apply existsb_eqb_In in X. split.
        -- intros [H|(N & w & Hw & T)]; [auto|].
           right. split; [exact N|]. exists w. split; [right; exact Hw|exact T].
        -- intros [H|(N & w & [->|Hw] & T)]; [auto|subst; auto|].
           right. split; [exact N|]. exists w. auto.
      * split.
        -- intros [H|(N & w & Hw & T)].
           ++ apply in_app_or in H as [H|[<-|[]]]; [auto|].
              right. split; [exact E|]. exists v. split; [left|]; reflexivity.
           ++ right. split; [exact N|]. exists w. split; [right; exact Hw|exact T].
        -- intros [H|(N & w & [->|Hw] & T)].
           ++ left. apply in_or_app. auto.
           ++ left. apply in_or_app. right. left. exact T.
           ++ right. split; [exact N|]. exists w. auto.
Qed.

(** A list that is already in normal form is left alone. *)
Lemma fold_add_fixed l : forall acc,
  NoDup (acc ++ l) ->
  (forall x, In x l -> x <> "" /\ TrimSpace x = x) ->
  fold_left add l acc = acc ++ l.
Proof.
  induction l as [|v l IH]; intros acc N H; cbn [fold_left].
  - rewrite app_nil_r. reflexivity.
  - destruct (H v (or_introl eq_refl)) as [Hv Tv].
    rewrite add_spec, Tv.
    destruct (String.eqb_spec v "") as [|_]; [contradiction|].
    destruct (existsb (String.eqb v) acc) eqn:X.
    + apply existsb_eqb_In in X. apply NoDup_remove_2 in N.
      exfalso. apply N. apply in_or_app. auto.
    + rewrite IH.
      * rewrite <- app_assoc. reflexivity.
      * rewrite <- app_assoc. exact N.
      * intros x Hx. apply H. right. exact Hx.
Qed.

Lemma normalize_NoDup l : NoDup (normalize l).
Proof. apply fold_add_NoDup. constructor. Qed.

Lemma normalize_In l x :
  In x (normalize l) <-> x <> "" /\ exists v, In v l /\ TrimSpace v = x.
Proof.
  unfold Config.normalize. rewrite fold_add_In. cbn [In]. tauto.
Qed.

Lemma normalize_fixed l :
  NoDup l -> (forall x, In x l -> x <> "" /\ TrimSpace x = x) ->
  normalize l = l.
Proof. intros N H. apply (fold_add_fixed l []); assumption. Qed.

Hypothesis TrimSpace_idem : forall s, TrimSpace (TrimSpace s) = TrimSpace s.

Lemma normalize_trimmed l x :
  In x (normalize l) -> x <> "" /\ TrimSpace x = x.
Proof.
  intros H. apply normalize_In in H as (N & v & _ & <-).
  split; [exact N|apply TrimSpace_idem].
Qed.

Lemma normalize_idem l : normalize (normalize l) = normalize l.
Proof.
  apply normalize_fixed; [apply normalize_NoDup|apply normalize_trimmed].
Qed.

End Normalize.

(** ** Defaults *)

Section Defaults.

Variable TrimSpace : string -> string.
Variable ToLower : string -> string.

Local Notation "'optionKey'" := (Config.optionKey TrimSpace ToLower).
Local Notation "'ensureSSHOption'" := (Config.ensureSSHOption TrimSpace ToLower).
Local Notation "'applyDefaults'" := (Config.applyDefaults TrimSpace ToLower).
Local Notation "'hasKey'" := (Config.hasKey TrimSpace ToLower).

Lemma orString_idem x d : d <> "" -> orString (orString x d) d = orString x d.
Proof.
  intros Hd. unfold orString.
  destruct (String.eqb_spec x "") as [E|E].
  - destruct (String.eqb_spec d ""); [contradiction|reflexivity].
  - destruct (String.eqb_spec x ""); [contradiction|reflexivity].
Qed.

Lemma orInt_idem x d : d <> 0 -> orInt (orInt x d) d = orInt x d.
Proof.
  intros Hd. unfold orInt.
  destruct (Z.eqb_spec x 0) as [E|E].
  - destruct (Z.eqb_spec d 0); [contradiction|reflexivity].
  - destruct (Z.eqb_spec x 0); [contradiction|reflexivity].
Qed.

Lemma orFloat_idem x d :
  (d =? 0)%float = false -> orFloat (orFloat x d) d = orFloat x d.
Proof.
  intros Hd. unfold orFloat.
  destruct (x =? 0)%float eqn:E; [rewrite Hd|rewrite E]; reflexivity.
Qed.

Lemma clamp_idem x :
  (if (if x <? 0 then 0 else x) <? 0 then 0 else (if x <? 0 then 0 else x)) =
  (if x <? 0 then 0 else x).
Proof. destruct (x <? 0) eqn:E; [reflexivity|rewrite E; reflexivity]. Qed.

Lemma defaultRestart_idem r :
  defaultRestart (defaultRestart r) = defaultRestart r.
Proof.
  unfold defaultRestart. cbn [MinDelayMs MaxDelayMs Factor Jitter DebounceMs].
  rewrite !orInt_idem by discriminate.
  rewrite !orFloat_idem by reflexivity. reflexivity.
Qed.

(** [ensureSSHOption] only ever appends its value. *)
Lemma ensure_cases opts v :
  ensureSSHOption opts v = opts \/ ensureSSHOption opts v = opts ++ [v].
Proof.
  unfold Config.ensureSSHOption.
  destruct (String.eqb _ ""); [auto|]. destruct (existsb _ opts); auto.
Qed.

Lemma hasKey_app key opts more :
  hasKey key opts = true -> hasKey key (opts ++ more) = true.
Proof.
  unfold Config.hasKey. destruct (String.eqb key ""); [reflexivity|]. cbn [orb].
  rewrite existsb_app. intros ->. reflexivity.
Qed.

Lemma ensure_keeps key opts v :
  hasKey key opts = true -> hasKey key (ensureSSHOption opts v) = true.
Proof.
  intros H. destruct (ensure_cases opts v) as [->| ->];
    [exact H|apply hasKey_app, H].
Qed.

Lemma ensure_hasKey opts v :
  hasKey (optionKey v) (ensureSSHOption opts v) = true.
Proof.
  unfold Config.ensureSSHOption, hasKey.
  destruct (String.eqb (optionKey v) "") eqn:E; [reflexivity|]. cbn [orb].
  destruct (existsb _ opts) eqn:X; [exact X|].
  rewrite existsb_app. cbn [existsb]. rewrite String.eqb_refl.
  rewrite orb_true_r. reflexivity.
Qed.

Lemma ensure_fixed opts v :
  hasKey (optionKey v) opts = true -> ensureSSHOption opts v = opts.
Proof.
  unfold Config.ensureSSHOption, hasKey.
  destruct (String.eqb (optionKey v) ""); [reflexivity|]. cbn [orb].
  intros ->. reflexivity.
Qed.

(** X1.  applyDefaults is idempotent: applying it to its own result
    changes no field and appends no SSH option a second time. *)
Theorem applyDefaults_idempotent (cfg : Config) :
  applyDefaults (applyDefaults cfg) = applyDefaults cfg.
Proof.
  unfold Config.applyDefaults.
  cbn [Agent Client SSH Logging ClientLogging
       AgentConfig.Name AgentConfig.LaunchdLabel AgentConfig.RestartPolicy
       AgentConfig.Restart AgentConfig.PeriodicRestartSec
       AgentConfig.SleepCheckSec AgentConfig.SleepGapSec
       AgentConfig.NetworkPollSec AgentConfig.PreventSleep
       ClientConfig.Name ClientConfig.LaunchdLabel ClientConfig.RestartPolicy
       ClientConfig.Restart ClientConfig.PeriodicRestartSec
       ClientConfig.SleepCheckSec ClientConfig.SleepGapSec
       ClientConfig.NetworkPollSec ClientConfig.PreventSleep
       ClientConfig.LocalForwards
       User Host Port RemoteForwards IdentityFile Options CheckSec Level Path].
  rewrite !orString_idem by discriminate.
  rewrite !orInt_idem by discriminate.
  rewrite !defaultRestart_idem, !clamp_idem.
  set (o1 := ensureSSHOption (Options (SSH cfg)) "ServerAliveInterval=30").
  set (o2 := ensureSSHOption o1 "ServerAliveCountMax=3").
  set (o3 := ensureSSHOption o2 "StrictHostKeyChecking=accept-new").
  assert (K1 : hasKey (optionKey "ServerAliveInterval=30") o3 = true)
    by (subst o3 o2; do 2 apply ensure_keeps; apply ensure_hasKey).
  assert (K2 : hasKey (optionKey "ServerAliveCountMax=3") o3 = true)
    by (subst o3; apply ensure_keeps, ensure_hasKey).
  assert (K3 : hasKey (optionKey "StrictHostKeyChecking=accept-new") o3 = true)
    by apply ensure_hasKey.
  rewrite (ensure_fixed o3 _ K1), (ensure_fixed o3 _ K2), (ensure_fixed o3 _ K3).
  reflexivity.
Qed.

(** X2.  applyDefaults only appends to ssh.options: the user's options
    stay in front, in their order; every appended entry is one of the
    three default options, appended only if no user option has its key
    (optionKey: the lower-cased text before the first blank or '=');
    afterwards each of the three keys is present. *)
Theorem defaults_keep_user_options (cfg : Config) :
  exists added,
    Options (SSH (applyDefaults cfg)) = Options (SSH cfg) ++ added /\
    (forall d, In d added ->
       In d defaultOptions /\
       hasKey (optionKey d) (Options (SSH cfg)) = false) /\
    (forall d, In d defaultOptions ->
       hasKey (optionKey d) (Options (SSH (applyDefaults cfg))) = true).
Proof.
  unfold Config.applyDefaults. cbn [SSH Options].
  set (o0 := Options (SSH cfg)).
  assert (Step : forall opts v,
            exists a, ensureSSHOption opts v = opts ++ a /\
                      (forall d, In d a -> d = v /\ hasKey (optionKey d) opts = false)).
  { intros opts v. unfold Config.ensureSSHOption.
    destruct (String.eqb (optionKey v) "") eqn:E.
    - exists []. rewrite app_nil_r. split; [reflexivity|intros d []].
    - destruct (existsb _ opts) eqn:X.
      + exists []. rewrite app_nil_r. split; [reflexivity|intros d []].
      + exists [v]. split; [reflexivity|]. intros d [<-|[]].
        split; [reflexivity|]. unfold Config.hasKey. rewrite E, X. reflexivity. }
  assert (Mono : forall key opts more,
            hasKey key (opts ++ more) = false -> hasKey key opts = false).
  { intros key opts more H. destruct (hasKey key opts) eqn:K; [|reflexivity].
    rewrite (hasKey_app _ _ more K) in H. discriminate. }
  destruct (Step o0 "ServerAliveInterval=30") as (a1 & E1 & H1).
  destruct (Step (o0 ++ a1) "ServerAliveCountMax=3") as (a2 & E2 & H2).
  destruct (Step ((o0 ++ a1) ++ a2) "StrictHostKeyChecking=accept-new")
    as (a3 & E3 & H3).
  exists (a1 ++ a2 ++ a3). rewrite E1, E2, E3. split.
  - rewrite <- !app_assoc. reflexivity.
  - split.
    + intros d Hd. apply in_app_or in Hd as [Hd|Hd];
        [|apply in_app_or in Hd as [Hd|Hd]].
      * destruct (H1 d Hd) as [-> K]. split; [left; reflexivity|exact K].
      * destruct (H2 d Hd) as [-> K]. split; [right; left; reflexivity|].
        eapply Mono, K.
      * destruct (H3 d Hd) as [-> K]. split; [right; right; left; reflexivity|].
        eapply Mono, Mono, K.
    + rewrite <- E3, <- E2, <- E1.
      intros d [<-|[<-|[<-|[]]]].
      * do 2 apply ensure_keeps. apply ensure_hasKey.
      * apply ensure_keeps, ensure_hasKey.
      * apply ensure_hasKey.
Qed.

Lemma orInt_pos x d : 0 < d -> (orInt x d <? 0) = false -> 0 < orInt x d.
Proof.
  unfold orInt. destruct (Z.eqb_spec x 0); intros Hd H; [exact Hd|].
  apply Z.ltb_ge in H. lia.
Qed.

Lemma validateSupervisor_ok policy r periodic sleepCheck sleepGap networkPoll label :
  Config.validateSupervisor ToLower policy (defaultRestart r) periodic
    (orInt sleepCheck 5) (orInt sleepGap 30) (orInt networkPoll 5) label = None ->
  let r' := defaultRestart r in
  (ToLower policy = "always" \/ ToLower policy = "on-failure") /\
  0 < MinDelayMs r' <= MaxDelayMs r' /\
  (is_nan (Factor r') = true \/ (1 <=? Factor r')%float = true) /\
  (is_nan (Jitter r') = true \/
   ((0 <? Jitter r')%float = true /\ (Jitter r' <=? 1)%float = true)) /\
  0 < DebounceMs r' /\ 0 <= periodic /\
  0 < orInt sleepCheck 5 /\ 0 < orInt sleepGap 30 /\ 0 < orInt networkPoll 5.
Proof.
  unfold Config.validateSupervisor.
  destruct (String.eqb_spec (ToLower policy) "always") as [P1|P1];
    destruct (String.eqb_spec (ToLower policy) "on-failure") as [P2|P2];
    cbn [orb negb]; try discriminate.
  all: destruct (MinDelayMs (defaultRestart r) <? 0) eqn:M1; [discriminate|];
    destruct (MaxDelayMs (defaultRestart r) <? 0) eqn:M2; [discriminate|];
    cbn [orb];
    destruct ((0 <? MaxDelayMs (defaultRestart r)) &&
              (MaxDelayMs (defaultRestart r) <? MinDelayMs (defaultRestart r)))
      eqn:M3; [discriminate|];
    destruct (Factor (defaultRestart r) <? 1)%float eqn:F1; [discriminate|];
    destruct (Jitter (defaultRestart r) <? 0)%float eqn:J1; [discriminate|];
    destruct (1 <? Jitter (defaultRestart r))%float eqn:J2; [discriminate|];
    cbn [orb];
    destruct (DebounceMs (defaultRestart r) <? 0) eqn:D; [discriminate|];
    destruct (periodic <? 0) eqn:Pe; [discriminate|];
    destruct (orInt sleepCheck 5 <? 0) eqn:S1; [discriminate|];
    destruct (orInt sleepGap 30 <? 0) eqn:S2; [discriminate|];
    destruct (orInt networkPoll 5 <? 0) eqn:S3; [discriminate|];
    intros _; cbn zeta.
  all: (split; [auto|]).
  all: assert (Mn : 0 < MinDelayMs (defaultRestart r))
         by (apply orInt_pos; [lia|exact M1]);
       assert (Mx : 0 < MaxDelayMs (defaultRestart r))
         by (apply orInt_pos; [lia|exact M2]);
       split;
       [ split; [exact Mn|];
         apply andb_false_iff in M3 as [M3|M3];
         [apply Z.ltb_ge in M3; lia|apply Z.ltb_ge in M3; exact M3] |].
  all: split;
       [ destruct (FloatFacts.not_ltb _ _ F1) as [N|[N|L]];
         [left; exact N|discriminate N|right; exact L] |].
  all: split;
       [ destruct (FloatFacts.not_ltb _ _ J2) as [N|[N|L]];
         [discriminate N|left; exact N|];
         assert (J0 : (Jitter (defaultRestart r) =? 0)%float = false)
           by (cbn [defaultRestart Jitter]; unfold orFloat;
               destruct (Jitter r =? 0)%float eqn:E; [reflexivity|exact E]);
         destruct (FloatFacts.not_eqb_ltb _ _ J0 J1) as [N|[N|G]];
         [left; exact N|discriminate N|right; split; assumption] |].
  all: split; [apply orInt_pos; [lia|exact D]|].
  all: split; [apply Z.ltb_ge in Pe; exact Pe|].
  all: repeat split; apply orInt_pos; try lia; assumption.
Qed.

End Defaults.

Section NormalizedForwards.
Variable TrimSpace : string -> string.

Local Notation "'NormalizeRemoteForwards'" :=
  (Config.NormalizeRemoteForwards TrimSpace).
Local Notation "'NormalizeLocalForwards'" :=
  (Config.NormalizeLocalForwards TrimSpace).
Local Notation "'SetRemoteForwards'" := (Config.SetRemoteForwards TrimSpace).
Local Notation "'SetLocalForwards'" := (Config.SetLocalForwards TrimSpace).

(** X3.  NormalizeRemoteForwards and NormalizeLocalForwards return a
    list without duplicates whose members are exactly the non-empty
    results of strings.TrimSpace on the configured entries; for a nil
    config both return nothing. *)
Theorem normalized_forwards (cfg : Config) :
  NoDup (NormalizeRemoteForwards (Some cfg)) /\
  NoDup (NormalizeLocalForwards (Some cfg)) /\
  (forall x, In x (NormalizeRemoteForwards (Some cfg)) <->
     x <> "" /\ exists v, In v (RemoteForwards (SSH cfg)) /\ TrimSpace v = x) /\
  (forall x, In x (NormalizeLocalForwards (Some cfg)) <->
     x <> "" /\
     exists v, In v (ClientConfig.LocalForwards (Client cfg)) /\ TrimSpace v = x) /\
  NormalizeRemoteForwards None = [] /\ NormalizeLocalForwards None = [].
Proof.
  unfold Config.NormalizeRemoteForwards, Config.NormalizeLocalForwards.
  split; [apply normalize_NoDup|]. split; [apply normalize_NoDup|].
  split; [intros x; apply normalize_In|].
  split; [intros x; apply normalize_In|]. split; reflexivity.
Qed.

Hypothesis TrimSpace_idem : forall s, TrimSpace (TrimSpace s) = TrimSpace s.

(** X4.  Given that strings.TrimSpace is idempotent: after
    SetRemoteForwards(cfg, l) (and likewise SetLocalForwards) on a non-
    nil config, the matching Normalize function returns l trimmed,
    without blanks and duplicates; storing again what is read back
    changes nothing; on a nil config the setters do nothing. *)
Theorem set_forwards_roundtrip (cfg : option Config) (l : list string) :
  let r := SetRemoteForwards cfg l in
  let k := SetLocalForwards cfg l in
  (cfg <> None -> NormalizeRemoteForwards r = Config.normalize TrimSpace l) /\
  (cfg <> None -> NormalizeLocalForwards k = Config.normalize TrimSpace l) /\
  SetRemoteForwards r (NormalizeRemoteForwards r) = r /\
  SetLocalForwards k (NormalizeLocalForwards k) = k /\
  (cfg = None -> r = None /\ k = None).
Proof.
  cbv zeta. destruct cfg as [c|]; cbn [Config.SetRemoteForwards
    Config.SetLocalForwards option_map Config.NormalizeRemoteForwards
    Config.NormalizeLocalForwards].
  - unfold Config.setRemoteForwards, Config.setLocalForwards,
      Config.withRemoteForwards, Config.withLocalForwards.
    cbn [SSH Client RemoteForwards ClientConfig.LocalForwards Agent Logging
         ClientLogging User Host Port IdentityFile Options CheckSec
         ClientConfig.Name ClientConfig.LaunchdLabel ClientConfig.RestartPolicy
         ClientConfig.Restart ClientConfig.PeriodicRestartSec
         ClientConfig.SleepCheckSec ClientConfig.SleepGapSec
         ClientConfig.NetworkPollSec ClientConfig.PreventSleep].
    rewrite !(normalize_idem TrimSpace TrimSpace_idem).
    split; [reflexivity|]. split; [reflexivity|].
    split; [reflexivity|]. split; [reflexivity|]. intros X; discriminate X.
  - split; [intros X; contradiction|]. split; [intros X; contradiction|].
    repeat split; reflexivity.
Qed.

End NormalizedForwards.

Section Validate.
Variable TrimSpace : string -> string.
Variable ToLower : string -> string.

Local Notation "'applyDefaults'" := (Config.applyDefaults TrimSpace ToLower).
Local Notation "'ValidateAgent'" := (Config.ValidateAgent TrimSpace ToLower).
Local Notation "'ValidateClient'" := (Config.ValidateClient TrimSpace ToLower).

Lemma validateCommon_ok (cfg : Config) :
  Config.validateCommon TrimSpace (Some (applyDefaults cfg)) = None ->
  TrimSpace (Host (SSH cfg)) <> "" /\ TrimSpace (User (SSH cfg)) <> "" /\
  0 < Port (SSH (applyDefaults cfg)) /\ 0 < CheckSec (SSH (applyDefaults cfg)).
Proof.
  unfold Config.validateCommon, Config.applyDefaults. cbn [SSH Host User Port CheckSec].
  destruct (String.eqb_spec (TrimSpace (Host (SSH cfg))) ""); [discriminate|].
  destruct (String.eqb_spec (TrimSpace (User (SSH cfg))) ""); [discriminate|].
  destruct (Z.leb_spec (orInt (Port (SSH cfg)) 22) 0); [discriminate|].
  destruct (orInt (CheckSec (SSH cfg)) 5 <? 0) eqn:C; [discriminate|].
  intros _. repeat split; try assumption.
  apply orInt_pos; [lia|exact C].
Qed.

(** X5.  If ValidateAgent accepts a configuration after applyDefaults,
    then ssh.host and ssh.user are not blank, ssh.port and ssh.check_sec
    are > 0, there is a remote forward, the policy lower-cases to always
    or on-failure, 0 < min_delay_ms <= max_delay_ms, debounce_ms and the
    three monitor intervals are > 0, periodic_restart_sec >= 0, and
    factor >= 1 and 0 < jitter <= 1 unless that value is NaN, which the
    comparisons of validateSupervisor let through. *)
Theorem validated_settings_are_usable (cfg : Config) :
  let cfg' := applyDefaults cfg in
  ValidateAgent (Some cfg') = None ->
  let r := AgentConfig.Restart (Agent cfg') in
  TrimSpace (Host (SSH cfg')) <> "" /\ TrimSpace (User (SSH cfg')) <> "" /\
  0 < Port (SSH cfg') /\ 0 < CheckSec (SSH cfg') /\
  Config.NormalizeRemoteForwards TrimSpace (Some cfg') <> [] /\
  (ToLower (AgentConfig.RestartPolicy (Agent cfg')) = "always" \/
   ToLower (AgentConfig.RestartPolicy (Agent cfg')) = "on-failure") /\
  0 < MinDelayMs r <= MaxDelayMs r /\
  (is_nan (Factor r) = true \/ (1 <=? Factor r)%float = true) /\
  (is_nan (Jitter r) = true \/
   ((0 <? Jitter r)%float = true /\ (Jitter r <=? 1)%float = true)) /\
  0 < DebounceMs r /\
  0 <= AgentConfig.PeriodicRestartSec (Agent cfg') /\
  0 < AgentConfig.SleepCheckSec (Agent cfg') /\
  0 < AgentConfig.SleepGapSec (Agent cfg') /\
  0 < AgentConfig.NetworkPollSec (Agent cfg').
Proof.
  cbv zeta. unfold Config.ValidateAgent.
  destruct (Config.validateCommon TrimSpace (Some (applyDefaults cfg))) eqn:C;
    [discriminate|].
  apply validateCommon_ok in C. destruct C as (C1 & C2 & C3 & C4).
  destruct (Config.NormalizeRemoteForwards TrimSpace (Some (applyDefaults cfg)))
    eqn:N; [discriminate|].
  intros V.
  split; [exact C1|]. split; [exact C2|]. split; [exact C3|].
  split; [exact C4|]. split; [discriminate|].
  unfold Config.applyDefaults in V |- *.
  cbn [Agent AgentConfig.RestartPolicy AgentConfig.Restart
       AgentConfig.PeriodicRestartSec AgentConfig.SleepCheckSec
       AgentConfig.SleepGapSec AgentConfig.NetworkPollSec] in V |- *.
  apply (validateSupervisor_ok ToLower) in V. exact V.
Qed.

End Validate.

Lemma validated_settings_are_usable_witness :
  0 < MinDelayMs (AgentConfig.Restart (Agent
        (Config.applyDefaults asciiTrimSpace asciiToLower sampleConfig))) <=
      MaxDelayMs (AgentConfig.Restart (Agent
        (Config.applyDefaults asciiTrimSpace asciiToLower sampleConfig))).
Proof.
  apply (validated_settings_are_usable asciiTrimSpace asciiToLower sampleConfig).
  vm_compute. reflexivity.
Defined.

Lemma set_forwards_roundtrip_witness :
  Config.NormalizeRemoteForwards asciiTrimSpace
    (Config.SetRemoteForwards asciiTrimSpace (Some sampleConfig)
       [" a:1:b:2"; ""; "a:1:b:2 "; "c:3:d:4"]) =
  ["a:1:b:2"; "c:3:d:4"].
Proof.
  apply (set_forwards_roundtrip asciiTrimSpace asciiTrimSpace_idem
           (Some sampleConfig) [" a:1:b:2"; ""; "a:1:b:2 "; "c:3:d:4"]).
  discriminate.
Defined.

End ConfigFacts.

(** ** The forwards at run time *)

Module ForwardsFacts.
Import GoStrings GoStringsFacts Config Forwards ConfigFacts.
Local Open Scope string_scope.
Local Open Scope list_scope.
Local Open Scope Z_scope.

Lemma without_spec t l :
  without t l =
  (filter (fun x => negb (String.eqb x t)) l,
   existsb (fun x => String.eqb x t) l).
Proof.
  unfold without.
  assert (G : forall l acc,
            fold_left
              (fun acc existing =>
                 if String.eqb existing t then (fst acc, true)
                 else (fst acc ++ [existing], snd acc)) l acc =
            (fst acc ++ filter (fun x => negb (String.eqb x t)) l,
             snd acc || existsb (fun x => String.eqb x t) l)).
  { clear l. induction l as [|x l IH]; intros [a b]; cbn [fold_left filter existsb fst snd].
    - rewrite app_nil_r, orb_false_r. reflexivity.
    - rewrite IH. destruct (String.eqb x t); cbn [fst snd negb orb].
      + rewrite orb_true_r. reflexivity.
      + rewrite <- app_assoc. reflexivity. }
  rewrite G. reflexivity.
Qed.

Lemma existsb_flip t l :
  existsb (fun x => String.eqb x t) l = existsb (String.eqb t) l.
Proof.
  induction l as [|x l IH]; cbn [existsb]; [reflexivity|].
  rewrite IH, (String.eqb_sym x t). reflexivity.
Qed.

Lemma filter_absent t l :
  ~ In t l -> filter (fun x => negb (String.eqb x t)) l = l.
Proof.
  induction l as [|x l IH]; intros H; cbn [filter]; [reflexivity|].
  destruct (String.eqb_spec x t) as [->|_]; cbn [negb].
  - exfalso. apply H. left. reflexivity.
  - rewrite IH; [reflexivity|]. intros I. apply H. right. exact I.
Qed.

Lemma filter_nil_NoDup t l :
  NoDup l -> In t l ->
  filter (fun x => negb (String.eqb x t)) l = [] -> l = [t].
Proof.
  intros N I F. destruct l as [|x l]; [destruct I|].
  cbn [filter] in F. destruct (String.eqb_spec x t) as [->|_]; cbn [negb] in F;
    [|discriminate].
  destruct l as [|y l]; [reflexivity|].
  cbn [filter] in F. destruct (String.eqb_spec y t) as [->|_]; cbn [negb] in F;
    [|discriminate].
  inversion N as [|? ? H _]. exfalso. apply H. left. reflexivity.
Qed.

Section Strings.

Variable TrimSpace : string -> string.
Hypothesis TrimSpace_idem : forall s, TrimSpace (TrimSpace s) = TrimSpace s.

Local Notation "'normalize'" := (Config.normalize TrimSpace).
Local Notation "'RemoteForwards'" := (Forwards.RemoteForwards TrimSpace).
Local Notation "'LocalForwards'" := (Forwards.LocalForwards TrimSpace).
Local Notation "'AddRemoteForward'" := (Forwards.AddRemoteForward TrimSpace).
Local Notation "'RemoveRemoteForward'" := (Forwards.RemoveRemoteForward TrimSpace).
Local Notation "'ClearRemoteForwards'" := (Forwards.ClearRemoteForwards TrimSpace).
Local Notation "'setRemoteForwards'" := (Config.setRemoteForwards TrimSpace).
Local Notation "'setLocalForwards'" := (Config.setLocalForwards TrimSpace).
Local Notation "'normal'" := (Forwards.normal TrimSpace).

Lemma normal_normalize l : normal (normalize l).
Proof.
  split; [apply normalize_NoDup|].
  intros x. apply (normalize_trimmed TrimSpace TrimSpace_idem).
Qed.

Lemma normal_fixed l : normal l -> normalize l = l.
Proof. intros [N H]. apply normalize_fixed; assumption. Qed.

Lemma normal_snoc l t :
  normal l -> t <> "" -> TrimSpace t = t -> ~ In t l -> normal (l ++ [t]).
Proof.
  intros [N H] Ht Tt I. split.
  - apply NoDup_app; [exact N|repeat constructor; intros []|].
    intros x Hx [<-|[]]. exact (I Hx).
  - intros x Hx. apply in_app_or in Hx as [Hx|[<-|[]]]; auto.
Qed.

Lemma normal_filter f l : normal l -> normal (filter f l).
Proof.
  intros [N H]. split; [apply NoDup_filter, N|].
  intros x Hx. apply filter_In in Hx as [Hx _]. auto.
Qed.

Lemma Remote_set cfg l :
  RemoteForwards (setRemoteForwards cfg l) = normalize l.
Proof.
  unfold Forwards.RemoteForwards, Config.NormalizeRemoteForwards,
    Config.setRemoteForwards, Config.withRemoteForwards.
  cbn [SSH Config.RemoteForwards].
  apply (normalize_idem TrimSpace TrimSpace_idem).
Qed.

Lemma Remote_normal cfg : normal (RemoteForwards cfg).
Proof. apply normal_normalize. Qed.

Lemma Add_eq f cfg :
  AddRemoteForward f cfg =
  let t := TrimSpace f in
  if String.eqb t "" then
    ((false, Some "remote forward is required"), cfg, [])
  else if existsb (String.eqb t) (RemoteForwards cfg) then
    ((false, None), cfg, [])
  else
    ((true, None), setRemoteForwards cfg (RemoteForwards cfg ++ [t]),
     [CallRestart "remote forward added"
        (DebounceMs (AgentConfig.Restart (Agent cfg)))]).
Proof.
  unfold Forwards.AddRemoteForward. cbn zeta.
  rewrite existsb_flip. reflexivity.
Qed.

Lemma Remove_eq f cfg :
  RemoveRemoteForward f cfg =
  let t := TrimSpace f in
  if String.eqb t "" then
    ((false, Some "remote forward is required"), cfg, [])
  else if negb (existsb (String.eqb t) (RemoteForwards cfg)) then
    ((false, None), cfg, [])
  else
    match filter (fun x => negb (String.eqb x t)) (RemoteForwards cfg) with
    | [] => ((false, Some "at least one remote forward is required"), cfg, [])
    | next =>
        ((true, None), setRemoteForwards cfg next,
         [CallRestart "remote forward removed"
            (DebounceMs (AgentConfig.Restart (Agent cfg)))])
    end.
Proof.
  unfold Forwards.RemoveRemoteForward. cbn zeta.
  destruct (String.eqb (TrimSpace f) ""); [reflexivity|].
  rewrite without_spec, existsb_flip.
  destruct (existsb _ _); cbn [negb]; [|reflexivity].
  destruct (filter _ _); reflexivity.
Qed.

Lemma existsb_In_false t l : existsb (String.eqb t) l = false <-> ~ In t l.
Proof.
  rewrite <- existsb_eqb_In. destruct (existsb _ l); split; congruence.
Qed.

(** X6.  Agent.AddRemoteForward with a non-blank forward returns no
    error and leaves the trimmed forward listed. If it reports added,
    the forward was not listed before, is appended at the end, and one
    restart with reason 'remote forward added' is requested; if not,
    nothing changes. A second request for the same forward (up to
    surrounding blanks) returns (false, nil), changes nothing and
    requests no restart. *)
Theorem add_remote_forward_idempotent (f f' : string) (cfg : Config) :
  TrimSpace f <> "" -> TrimSpace f' = TrimSpace f ->
  let '((added, err), cfg1, calls) := AddRemoteForward f cfg in
  err = None /\
  In (TrimSpace f) (RemoteForwards cfg1) /\
  (added = true ->
     ~ In (TrimSpace f) (RemoteForwards cfg) /\
     RemoteForwards cfg1 = RemoteForwards cfg ++ [TrimSpace f] /\
     calls = [CallRestart "remote forward added"
                (DebounceMs (AgentConfig.Restart (Agent cfg)))]) /\
  (added = false -> cfg1 = cfg /\ calls = []) /\
  AddRemoteForward f' cfg1 = ((false, None), cfg1, []).
Proof.
  intros Ht Hf'. rewrite Add_eq. cbn zeta.
  destruct (String.eqb_spec (TrimSpace f) "") as [|_]; [contradiction|].
  destruct (existsb (String.eqb (TrimSpace f)) (RemoteForwards cfg)) eqn:X.
  - apply existsb_eqb_In in X as I.
    split; [reflexivity|]. split; [exact I|].
    split; [discriminate|]. split; [auto|].
    rewrite Add_eq, Hf'. cbn zeta.
    destruct (String.eqb_spec (TrimSpace f) "") as [|_]; [contradiction|].
    rewrite X. reflexivity.
  - apply existsb_In_false in X as I.
    assert (E : RemoteForwards (setRemoteForwards cfg
                   (RemoteForwards cfg ++ [TrimSpace f])) =
                RemoteForwards cfg ++ [TrimSpace f]).
    { rewrite Remote_set. apply normal_fixed, normal_snoc;
        [apply Remote_normal|exact Ht|apply TrimSpace_idem|exact I]. }
    split; [reflexivity|].
    split; [rewrite E; apply in_or_app; right; left; reflexivity|].
    split; [intros _; repeat split; [exact I|exact E]|].
    split; [discriminate|].
    rewrite Add_eq, Hf'. cbn zeta.
    destruct (String.eqb_spec (TrimSpace f) "") as [|_]; [contradiction|].
    rewrite E.
    assert (Y : existsb (String.eqb (TrimSpace f))
                  (RemoteForwards cfg ++ [TrimSpace f]) = true).
    { apply existsb_eqb_In, in_or_app. right. left. reflexivity. }
    rewrite Y. reflexivity.
Qed.

(** X7.  On an agent with at least one remote forward, adding a forward
    that is not listed and then removing it gives back the list of
    remote forwards as it was; the removal reports (true, nil) and
    requests one restart with reason 'remote forward removed'. *)
Theorem add_then_remove_roundtrip (f : string) (cfg : Config) :
  TrimSpace f <> "" ->
  ~ In (TrimSpace f) (RemoteForwards cfg) ->
  RemoteForwards cfg <> [] ->
  let cfg1 := snd (fst (AddRemoteForward f cfg)) in
  let '((removed, err), cfg2, calls) := RemoveRemoteForward f cfg1 in
  removed = true /\ err = None /\
  RemoteForwards cfg2 = RemoteForwards cfg /\
  calls = [CallRestart "remote forward removed"
             (DebounceMs (AgentConfig.Restart (Agent cfg)))].
Proof.
  intros Ht I Ne. rewrite Add_eq. cbn zeta.
  destruct (String.eqb_spec (TrimSpace f) "") as [|_]; [contradiction|].
  apply existsb_In_false in I as X. rewrite X. cbn [fst snd].
  assert (E : RemoteForwards (setRemoteForwards cfg
                 (RemoteForwards cfg ++ [TrimSpace f])) =
              RemoteForwards cfg ++ [TrimSpace f]).
  { rewrite Remote_set. apply normal_fixed, normal_snoc;
      [apply Remote_normal|exact Ht|apply TrimSpace_idem|exact I]. }
  rewrite Remove_eq. cbn zeta.
  destruct (String.eqb_spec (TrimSpace f) "") as [|_]; [contradiction|].
  rewrite E.
  assert (Y : existsb (String.eqb (TrimSpace f))
                (RemoteForwards cfg ++ [TrimSpace f]) = true).
  { apply existsb_eqb_In, in_or_app. right. left. reflexivity. }
  rewrite Y. cbn [negb].
  rewrite filter_app, (filter_absent _ _ I). cbn [filter].
  rewrite String.eqb_refl. cbn [negb]. rewrite app_nil_r.
  destruct (RemoteForwards cfg) as [|x l] eqn:R; [contradiction|].
  repeat split.
  rewrite Remote_set, <- R. apply normal_fixed, Remote_normal.
Qed.

(** X8.  Agent.RemoveRemoteForward of the only remote forward returns
    (false, 'at least one remote forward is required'), leaves the
    configuration as it was and requests no restart. *)
Theorem remove_last_forward_refused (f : string) (cfg : Config) :
  RemoteForwards cfg = [TrimSpace f] ->
  RemoveRemoteForward f cfg =
    ((false, Some "at least one remote forward is required"), cfg, []).
Proof.
  intros R. rewrite Remove_eq. cbn zeta.
  assert (Ht : TrimSpace f <> "").
  { destruct (Remote_normal cfg) as [_ H]. apply H. rewrite R. left. reflexivity. }
  destruct (String.eqb_spec (TrimSpace f) "") as [|_]; [contradiction|].
  rewrite R. cbn [existsb filter]. rewrite String.eqb_refl. reflexivity.
Qed.

Lemma applyOp_nonempty op cfg :
  RemoteForwards cfg <> [] ->
  RemoteForwards (Forwards.applyOp TrimSpace cfg op) <> [].
Proof.
  intros Ne. destruct op as [f|f]; cbn [Forwards.applyOp].
  - rewrite Add_eq. cbn zeta.
    destruct (String.eqb_spec (TrimSpace f) "") as [|Ht]; [exact Ne|].
    destruct (existsb _ _) eqn:X; [exact Ne|]. cbn [fst snd].
    apply existsb_In_false in X.
    rewrite Remote_set, normal_fixed.
    + intros E. apply app_eq_nil in E as [_ E]. discriminate.
    + apply normal_snoc;
        [apply Remote_normal|exact Ht|apply TrimSpace_idem|exact X].
  - rewrite Remove_eq. cbn zeta.
    destruct (String.eqb (TrimSpace f) ""); [exact Ne|].
    destruct (existsb _ _); cbn [negb]; [|exact Ne].
    destruct (filter _ _) as [|x l] eqn:F; [exact Ne|]. cbn [fst snd].
    rewrite Remote_set, normal_fixed; [discriminate|].
    rewrite <- F. apply normal_filter, Remote_normal.
Qed.

(** X9.  No sequence of AddRemoteForward and RemoveRemoteForward calls
    leaves an agent that had a remote forward without one. *)
Theorem forwards_never_emptied (ops : list Forwards.Op) (cfg : Config) :
  RemoteForwards cfg <> [] ->
  RemoteForwards (fold_left (Forwards.applyOp TrimSpace) ops cfg) <> [].
Proof.
  revert cfg. induction ops as [|op ops IH]; intros cfg Ne; cbn [fold_left].
  - exact Ne.
  - apply IH, applyOp_nonempty, Ne.
Qed.

Lemma Local_set cfg l :
  LocalForwards (setLocalForwards cfg l) = normalize l.
Proof.
  unfold Forwards.LocalForwards, Config.NormalizeLocalForwards,
    Config.setLocalForwards, Config.withLocalForwards.
  cbn [Client ClientConfig.LocalForwards].
  apply (normalize_idem TrimSpace TrimSpace_idem).
Qed.

Lemma Local_normal cfg : normal (LocalForwards cfg).
Proof. apply normal_normalize. Qed.

(** X10.  The client's add_local_forward handler answers a blank forward
    with ok=false 'local_forward is required' and changes nothing;
    otherwise it answers ok=true and the trimmed forward is listed
    afterwards; it requests a restart, with reason 'client_add', exactly
    when the forward was new (then it is appended at the end and
    added=true); for a listed forward nothing changes and added=false. *)
Theorem client_add_handler (args : option (list (string * string)))
  (cfg : Config) :
  let t := TrimSpace (Forwards.arg args "local_forward") in
  let '(resp, cfg', calls) := Forwards.handleAddLocalForward TrimSpace args cfg in
  (t = "" ->
     resp = mkResponse false "local_forward is required" [] [] /\
     cfg' = cfg /\ calls = []) /\
  (t <> "" ->
     OK resp = true /\ In t (LocalForwards cfg') /\
     ((In t (LocalForwards cfg) /\ cfg' = cfg /\ calls = [] /\
       Message resp = "local forward already present" /\
       Data resp = [("added", "false")]) \/
      (~ In t (LocalForwards cfg) /\
       LocalForwards cfg' = LocalForwards cfg ++ [t] /\
       calls = [CallRestart "client_add"
                  (DebounceMs (ClientConfig.Restart (Client cfg)))] /\
       Message resp = "local forward added" /\
       Data resp = [("added", "true")]))).
Proof.
  cbn zeta. unfold Forwards.handleAddLocalForward.
  set (t := TrimSpace (Forwards.arg args "local_forward")).
  destruct (String.eqb_spec t "") as [E|E].
  - split; [auto|contradiction].
  - unfold Forwards.EnsureLocalForward.
    assert (T : TrimSpace t = t) by apply TrimSpace_idem.
    rewrite T.
    destruct (String.eqb_spec t "") as [|_]; [contradiction|].
    rewrite existsb_flip.
    fold (LocalForwards cfg).
    destruct (existsb (String.eqb t) (LocalForwards cfg)) eqn:X.
    + apply existsb_eqb_In in X.
      split; [contradiction|]. intros _. cbn [OK Message Data app].
      split; [reflexivity|]. split; [exact X|]. left. auto.
    + apply existsb_In_false in X.
      split; [contradiction|]. intros _. cbn [OK Message Data app].
      assert (R : LocalForwards (setLocalForwards cfg (LocalForwards cfg ++ [t])) =
                  LocalForwards cfg ++ [t]).
      { rewrite Local_set. apply normal_fixed, normal_snoc;
          [apply Local_normal|exact E|exact T|exact X]. }
      split; [reflexivity|].
      split; [rewrite R; apply in_or_app; right; left; reflexivity|].
      right. repeat split; [exact X|exact R].
Qed.

End Strings.

Section Clear.

Variable TrimSpace : string -> string.
Variable ToLower : string -> string.

(** X11.  Agent.ClearRemoteForwards leaves no remote forward; it returns
    true exactly when there was one and then calls RequestStop once
    (otherwise it calls nothing and changes nothing); the configuration
    it leaves is one that ValidateAgent rejects. *)
Theorem clear_forwards_stops (cfg : Config) :
  let '(cleared, cfg', calls) := Forwards.ClearRemoteForwards TrimSpace cfg in
  Forwards.RemoteForwards TrimSpace cfg' = [] /\
  cleared = negb (List.length (Forwards.RemoteForwards TrimSpace cfg) =? 0)%nat /\
  calls = (if cleared then [CallStop] else []) /\
  (cleared = false -> cfg' = cfg) /\
  Config.ValidateAgent TrimSpace ToLower (Some cfg') <> None.
Proof.
  unfold Forwards.ClearRemoteForwards. fold (Forwards.RemoteForwards TrimSpace cfg).
  assert (V : forall c, Forwards.RemoteForwards TrimSpace c = [] ->
                        Config.ValidateAgent TrimSpace ToLower (Some c) <> None).
  { intros c H. unfold Config.ValidateAgent.
    destruct (Config.validateCommon TrimSpace (Some c)); [discriminate|].
    unfold Forwards.RemoteForwards in H. rewrite H. discriminate. }
  destruct (Forwards.RemoteForwards TrimSpace cfg) as [|x l] eqn:R;
    cbn [List.length Nat.eqb negb].
  - repeat split; [exact R|apply V, R].
  - repeat split; [discriminate|apply V; reflexivity].
Qed.

End Clear.

Lemma add_remote_forward_idempotent_witness :
  AddRemoteForward asciiTrimSpace "0.0.0.0:9000:localhost:9000 "
    (snd (fst (AddRemoteForward asciiTrimSpace " 0.0.0.0:9000:localhost:9000"
                 sampleConfig))) =
  ((false, None),
   snd (fst (AddRemoteForward asciiTrimSpace " 0.0.0.0:9000:localhost:9000"
               sampleConfig)), []).
Proof.
  pose proof (add_remote_forward_idempotent asciiTrimSpace asciiTrimSpace_idem
                " 0.0.0.0:9000:localhost:9000" "0.0.0.0:9000:localhost:9000 "
                sampleConfig) as H.
  destruct (AddRemoteForward asciiTrimSpace " 0.0.0.0:9000:localhost:9000"
              sampleConfig) as [[[added err] cfg1] calls].
  apply H; [vm_compute; discriminate|vm_compute; reflexivity].
Defined.

Lemma add_then_remove_roundtrip_witness :
  Forwards.RemoteForwards asciiTrimSpace
    (snd (fst (RemoveRemoteForward asciiTrimSpace "0.0.0.0:9000:localhost:9000"
       (snd (fst (AddRemoteForward asciiTrimSpace "0.0.0.0:9000:localhost:9000"
                    sampleConfig)))))) =
  Forwards.RemoteForwards asciiTrimSpace sampleConfig.
Proof.
  pose proof (add_then_remove_roundtrip asciiTrimSpace asciiTrimSpace_idem
                "0.0.0.0:9000:localhost:9000" sampleConfig) as H.
  cbv zeta in H.
  destruct (RemoveRemoteForward asciiTrimSpace "0.0.0.0:9000:localhost:9000"
       (snd (fst (AddRemoteForward asciiTrimSpace "0.0.0.0:9000:localhost:9000"
                    sampleConfig)))) as [[[removed err] cfg2] calls].
  apply H.
  - vm_compute. discriminate.
  - vm_compute. intros [E|[]]. discriminate E.
  - vm_compute. discriminate.
Defined.

Lemma remove_last_forward_refused_witness :
  RemoveRemoteForward asciiTrimSpace " 0.0.0.0:2222:localhost:22" sampleConfig =
  ((false, Some "at least one remote forward is required"), sampleConfig, []).
Proof.
  apply (remove_last_forward_refused asciiTrimSpace asciiTrimSpace_idem).
  vm_compute. reflexivity.
Defined.

Lemma forwards_never_emptied_witness :
  Forwards.RemoteForwards asciiTrimSpace
    (fold_left (applyOp asciiTrimSpace)
       [OpRemove "0.0.0.0:2222:localhost:22"; OpAdd "x:1:y:2";
        OpRemove "0.0.0.0:2222:localhost:22"; OpRemove "x:1:y:2"]
       sampleConfig) <> [].
Proof.
  apply (forwards_never_emptied asciiTrimSpace asciiTrimSpace_idem).
  vm_compute. discriminate.
Defined.

Lemma client_add_handler_witness :
  snd (handleAddLocalForward asciiTrimSpace
         (Some [("local_forward", " 127.0.0.1:5432:db:5432 ")]) sampleConfig) =
  [CallRestart "client_add" 0].
Proof.
  pose proof (client_add_handler asciiTrimSpace asciiTrimSpace_idem
                (Some [("local_forward", " 127.0.0.1:5432:db:5432 ")])
                sampleConfig) as H.
  cbv zeta in H.
  destruct (handleAddLocalForward asciiTrimSpace
              (Some [("local_forward", " 127.0.0.1:5432:db:5432 ")])
              sampleConfig) as [[resp cfg'] calls].
  destruct H as [_ H].
  destruct H as (_ & _ & [(I & _)|(_ & _ & C & _)]).
  - vm_compute. discriminate.
  - exfalso. vm_compute in I. destruct I as [E|[]]. discriminate E.
  - exact C.
Defined.

End ForwardsFacts.

(** ** The log ring, the watchers and the probe *)

Module LoggingFacts.
Import Logging.
Local Open Scope string_scope.
Local Open Scope list_scope.
Local Open Scope Z_scope.

(** The ring after one more line, when it holds the tail of everything
    added so far. *)
Lemma Add_tail (n : nat) (all : list string) (line : string) :
  (0 < n)%nat ->
  Add (mkLogBuffer (Z.of_nat n) (skipn (List.length all - n) all)) line =
  Some (mkLogBuffer (Z.of_nat n)
          (skipn (List.length (all ++ [line]) - n) (all ++ [line]))).
Proof.
  intros Hn. unfold Add. cbn [size lines].
  rewrite length_skipn, length_app. cbn [List.length].
  destruct (Z.leb_spec (Z.of_nat n) (Z.of_nat (List.length all - (List.length all - n)))) as [L|L].
  - assert (Hge : (n <= List.length all)%nat) by lia.
    destruct (skipn (List.length all - n) all) as [|x rest] eqn:E.
    + apply (f_equal (@List.length _)) in E. rewrite length_skipn in E.
      cbn in E. lia.
    + f_equal. f_equal.
      replace (List.length all + 1 - n)%nat with (S (List.length all - n)) by lia.
      rewrite skipn_app.
      replace (S (List.length all - n) - List.length all)%nat with 0%nat by lia.
      change (S (List.length all - n)) with (1 + (List.length all - n))%nat.
      rewrite <- skipn_skipn, E. reflexivity.
  - assert (Hlt : (List.length all < n)%nat) by lia.
    replace (List.length all - n)%nat with 0%nat by lia.
    replace (List.length all + 1 - n)%nat with 0%nat by lia.
    reflexivity.
Qed.

Lemma AddAll_tail (n : nat) (ls : list string) : forall all,
  (0 < n)%nat ->
  AddAll (mkLogBuffer (Z.of_nat n) (skipn (List.length all - n) all)) ls =
  Some (mkLogBuffer (Z.of_nat n)
          (skipn (List.length (all ++ ls) - n) (all ++ ls))).
Proof.
  induction ls as [|line ls IH]; intros all Hn; cbn [AddAll].
  - rewrite app_nil_r. reflexivity.
  - rewrite Add_tail by exact Hn. rewrite IH by exact Hn.
    rewrite <- app_assoc. reflexivity.
Qed.

(** X12.  After any sequence of Add calls on a fresh ring of size n > 0,
    List returns the last n lines added, oldest first (all of them while
    there are fewer than n); on a ring of size <= 0 the first Add panics
    (slice bounds out of range at r.lines[1:]). *)
Theorem ring_keeps_last_lines (n : Z) (ls : list string) :
  AddAll (newRingBuffer n) ls =
  match ls with
  | [] => Some (newRingBuffer n)
  | _ :: _ =>
      if n <=? 0 then None
      else Some (mkLogBuffer n (skipn (List.length ls - Z.to_nat n) ls))
  end.
Proof.
  destruct ls as [|l ls]; [reflexivity|].
  destruct (Z.leb_spec n 0) as [H|H].
  - cbn [AddAll]. unfold Add, newRingBuffer. cbn [size lines List.length].
    destruct (Z.leb_spec n (Z.of_nat 0)) as [_|C]; [reflexivity|lia].
  - unfold newRingBuffer.
    pose proof (AddAll_tail (Z.to_nat n) (l :: ls) [] ltac:(lia)) as E.
    rewrite Z2Nat.id in E by lia. cbn [List.length skipn app Nat.sub] in E.
    exact E.
Qed.

End LoggingFacts.

Module SleepMonitorFacts.
Import GoTime SleepMonitor.
Local Open Scope string_scope.
Local Open Scope list_scope.
Local Open Scope Z_scope.

Lemma ticks_length gap nows : forall last,
  List.length (ticks gap last nows) = List.length nows.
Proof.
  induction nows as [|now rest IH]; intros last; cbn [ticks List.length];
    [reflexivity|rewrite IH; reflexivity].
Qed.

Lemma ticks_nth gap nows : forall last k,
  (k < List.length nows)%nat ->
  nth k (ticks gap last nows) [] =
  tick gap (nth k (last :: nows) 0) (nth k nows 0).
Proof.
  induction nows as [|now rest IH]; intros last k Hk; cbn [List.length] in Hk;
    [lia|].
  destruct k as [|k]; cbn [ticks nth]; [reflexivity|].
  rewrite IH by lia. reflexivity.
Qed.

(** X13.  With a positive interval, sleepWatcher handles every tick, and
    at a tick it logs 'wake detected' (the gap truncated to seconds) and
    calls onEvent("wake") exactly when the time since the reading of the
    previous tick (of start-up, for the first tick) exceeds the gap; a
    gap <= 0 stands for twice the interval. *)
Theorem sleep_watcher_reports_gaps
  (interval gap : Duration) (start : Time) (nows : list Time) (k : nat) :
  0 < interval -> (k < List.length nows)%nat ->
  List.length (sleepWatcher interval gap start nows) = List.length nows /\
  nth k (sleepWatcher interval gap start nows) [] =
    (let elapsed := Sub (nth k nows 0) (nth k (start :: nows) 0) in
     if (if gap <=? 0 then wrap64 (interval * 2) else gap) <? elapsed
     then [InfoGap (Truncate elapsed Second); OnEvent "wake"]
     else []).
Proof.
  intros Hi Hk. unfold sleepWatcher.
  destruct (Z.leb_spec interval 0) as [C|_]; [lia|].
  split; [apply ticks_length|].
  rewrite ticks_nth by exact Hk. reflexivity.
Qed.

Lemma sleep_watcher_reports_gaps_witness :
  nth 1 (sleepWatcher (5 * Second) 0 (100 * Second)
           [105 * Second; 170 * Second; 175 * Second]) [] =
  [InfoGap (65 * Second); OnEvent "wake"].
Proof.
  apply (sleep_watcher_reports_gaps (5 * Second) 0 (100 * Second)
           [105 * Second; 170 * Second; 175 * Second] 1).
  - reflexivity.
  - cbn. lia.
Defined.

End SleepMonitorFacts.

Module MonitorMoreFacts.
Import Monitor MonitorMore MonitorFacts.
Local Open Scope string_scope.
Local Open Scope list_scope.
Local Open Scope Z_scope.

Lemma tick_fail prev : tick prev None = (prev, [LogError "network fingerprint failed"]).
Proof. reflexivity. Qed.

(** X14.  In networkWatcher a failed poll logs one error and leaves the
    remembered fingerprint as it is: the number of 'network change'
    triggers equals the number of changes among the successful polls,
    counted from the fingerprint taken at start-up (the empty string if
    that poll failed), and the number of errors logged equals the number
    of failed polls. *)
Theorem watcher_skips_failed_polls
  (first : option string) (polls : list (option string)) :
  List.length (flat_map triggers (networkWatcher first polls)) =
    changes (firstFingerprint first) (successes polls) /\
  errors (List.concat (networkWatcher first polls)) =
    (List.length polls - List.length (successes polls))%nat.
Proof.
  unfold networkWatcher. generalize (firstFingerprint first) as prev.
  induction polls as [|p polls IH]; intros prev.
  - split; reflexivity.
  - cbn [ticks flat_map List.concat successes].
    destruct p as [fp|].
    + destruct (IH (fst (tick prev (Some fp)))) as [IH1 IH2].
      rewrite tick_prev in IH1, IH2.
      rewrite length_app, tick_triggers, tick_prev. cbn [app changes List.length].
      fold (successes polls). split.
      * rewrite IH1. destruct (String.eqb fp prev); reflexivity.
      * unfold errors in *. rewrite filter_app, length_app, IH2.
        unfold tick.
        destruct (negb (String.eqb fp prev)); cbn [snd filter List.length]; lia.
    + destruct (IH prev) as [IH1 IH2]. rewrite tick_fail. cbn [fst snd app].
      fold (successes polls). split.
      * cbn [triggers flat_map app]. exact IH1.
      * unfold errors in *. cbn [filter List.length app]. rewrite IH2.
        assert (List.length (successes polls) <= List.length polls)%nat.
        { clear. induction polls as [|p l IHl]; [cbn; lia|].
          destruct p; cbn [successes flat_map app List.length];
            fold (successes l); lia. }
        lia.
Qed.

End MonitorMoreFacts.

Module TCPCheckFacts.
Import GoTime StateMachine TCPCheck.
Local Open Scope string_scope.
Local Open Scope list_scope.
Local Open Scope Z_scope.

Lemma fold_idle ticks : forall s,
  lastProbe ticks = None -> fold_left tcpCheckTick ticks s = s.
Proof.
  induction ticks as [|t ticks IH]; intros s H; cbn [fold_left]; [reflexivity|].
  cbn [lastProbe] in H. destruct (lastProbe ticks); [discriminate|].
  destruct (State_eqb (shown t) StateConnected) eqn:E; [discriminate|].
  unfold tcpCheckTick at 2. rewrite E. cbn [negb]. apply IH. reflexivity.
Qed.

Lemma fold_last ticks : forall s t,
  lastProbe ticks = Some t ->
  fold_left tcpCheckTick ticks s = recordTCPCheck (probe t) (at_ t) s.
Proof.
  induction ticks as [|t0 ticks IH]; intros s t H; cbn [lastProbe] in H;
    [discriminate|].
  cbn [fold_left].
  destruct (lastProbe ticks) as [t'|] eqn:L.
  - injection H as <-. rewrite (IH _ t' eq_refl).
    unfold recordTCPCheck. destruct (probe t'); reflexivity.
  - destruct (State_eqb (shown t0) StateConnected) eqn:E; [|discriminate].
    injection H as <-. rewrite fold_idle by exact L.
    unfold tcpCheckTick. rewrite E. reflexivity.
Qed.

(** X15.  TCPCheckStatus reports the outcome of the latest probe:
    tcpCheckLoop probes only at ticks at which the state is Connected
    and records 'ok' with an empty error, or 'failed' with the error's
    text, and the time; with an interval <= 0, or while no tick has
    found the state Connected, the status stays as it was. *)
Theorem tcp_status_is_last_probe
  (interval : Duration) (ticks : list Tick) (s : Status) :
  TCPCheckStatus (tcpCheckLoop interval ticks s) =
  if interval <=? 0 then TCPCheckStatus s
  else
    match lastProbe ticks with
    | None => TCPCheckStatus s
    | Some t =>
        match probe t with
        | Some msg => ("failed", msg, at_ t)
        | None => ("ok", "", at_ t)
        end
    end.
Proof.
  unfold tcpCheckLoop. destruct (interval <=? 0); [reflexivity|].
  destruct (lastProbe ticks) as [t|] eqn:L.
  - rewrite (fold_last _ _ _ L). unfold recordTCPCheck.
    destruct (probe t); reflexivity.
  - rewrite fold_idle by exact L. reflexivity.
Qed.

End TCPCheckFacts.

(** ** The Android manager and key store *)

Module AndroidTunnelFacts.
Import AndroidTunnel.
Local Open Scope string_scope.
Local Open Scope list_scope.
Local Open Scope Z_scope.

Lemma wrapLong_id z : - 2 ^ 63 <= z < 2 ^ 63 -> wrapLong z = z.
Proof. intros H. unfold wrapLong. rewrite Z.mod_small; lia. Qed.

(** X16.  SshTunnelManager.requestRestart, for a time difference that
    fits a Long: a request less than debounceMs after the last accepted
    one only logs 'restart skipped: debounced' and changes nothing; any
    other request records its time and reason, sets restartRequested and
    disconnects the client if there is one. *)
Theorem android_trigger_gate (m : Manager) (reason : string) (now : Z) :
  - 2 ^ 63 <= now - lastTriggerAtMs m < 2 ^ 63 ->
  let '(m', eff) := requestRestart reason now m in
  (now - lastTriggerAtMs m < debounceMs m ->
     m' = m /\ eff = [Log "INFO" "restart skipped: debounced"]) /\
  (debounceMs m <= now - lastTriggerAtMs m ->
     m' = mkManager (connected m) true (debounceMs m) now /\
     eff = OnLastTrigger reason :: (if connected m then [Disconnect] else [])).
Proof.
  intros H. unfold requestRestart. rewrite wrapLong_id by exact H.
  destruct (Z.ltb_spec (now - lastTriggerAtMs m) (debounceMs m)) as [L|L].
  - split; [auto|lia].
  - split; [lia|auto].
Qed.

Lemma android_trigger_gate_witness :
  requestRestart "network change" 1700000000500
    (mkManager true false 2000 1700000000000) =
  (mkManager true false 2000 1700000000000,
   [Log "INFO" "restart skipped: debounced"]).
Proof.
  pose proof (android_trigger_gate (mkManager true false 2000 1700000000000)
                "network change" 1700000000500) as H.
  cbv zeta in H.
  destruct (requestRestart "network change" 1700000000500
              (mkManager true false 2000 1700000000000)) as [m' eff].
  destruct H as [[-> ->] _]; [cbn; lia|cbn; lia|reflexivity].
Defined.

End AndroidTunnelFacts.

Module AndroidMoreFacts.
Import Android.
Local Open Scope Z_scope.

(** X17.  Android Backoff: when the current delay is 0 and the jitter is
    not <= 0 (it is positive or NaN), nextDelayMs throws, because the
    range handed to Random.nextDouble is empty. *)
Theorem backoff_empty_range_throws (b : Backoff) (rand : float) :
  currentDelay b = 0 -> (jitter b <=? 0)%float = false ->
  nextDelayMs b rand = None.
Proof.
  intros Hc Hj. unfold nextDelayMs, applyJitter. rewrite Hj, Hc.
  replace (toDouble 0) with 0%float by (vm_compute; reflexivity).
  assert (E : ((0 - 0 * jitter b) <? (0 + 0 * jitter b))%float = false).
  { rewrite ltb_spec, sub_spec, add_spec, mul_spec.
    replace (Prim2SF 0) with (S754_zero false) by (vm_compute; reflexivity).
    destruct (Prim2SF (jitter b)) as [s|s| |s m e];
      try destruct s; vm_compute; reflexivity. }
  rewrite E. reflexivity.
Qed.

Lemma backoff_empty_range_throws_witness :
  nextDelayMs (newBackoff 0 30000 2 0.5) 0 = None.
Proof.
  apply (backoff_empty_range_throws (newBackoff 0 30000 2 0.5) 0);
    reflexivity.
Defined.

End AndroidMoreFacts.

Module AndroidKeysFacts.
Import AndroidKeys.
Local Open Scope string_scope.
Local Open Scope list_scope.
Local Open Scope Z_scope.

(** The four length bytes, read back as a big-endian number. *)
Lemma length_bytes_decode (len : Z) :
  0 <= len < 2 ^ 31 ->
  (toByte (ushr len 24) mod 256) * 2 ^ 24 +
  (toByte (ushr len 16) mod 256) * 2 ^ 16 +
  (toByte (ushr len 8) mod 256) * 2 ^ 8 +
  toByte len mod 256 = len.
Proof.
  intros H. unfold toByte, ushr.
  rewrite (Z.mod_small len (2 ^ 32)) by lia.
  rewrite !Z.shiftr_div_pow2 by lia.
  change (2 ^ 24) with 16777216. change (2 ^ 16) with 65536.
  change (2 ^ 8) with 256. change (2 ^ 31) with 2147483648 in H.
  assert (forall x, ((x + 128) mod 256 - 128) mod 256 = x mod 256) as E.
  { intros x.
    pose proof (Z.mod_pos_bound (x + 128) 256 ltac:(lia)).
    pose proof (Z.mod_pos_bound x 256 ltac:(lia)).
    pose proof (Z.div_mod (x + 128) 256 ltac:(lia)).
    pose proof (Z.div_mod x 256 ltac:(lia)).
    pose proof (Z.div_mod ((x + 128) mod 256 - 128) 256 ltac:(lia)).
    pose proof (Z.mod_pos_bound ((x + 128) mod 256 - 128) 256 ltac:(lia)).
    lia. }
  rewrite !E.
  pose proof (Z.div_mod len 16777216 ltac:(lia)).
  pose proof (Z.mod_pos_bound len 16777216 ltac:(lia)).
  pose proof (Z.div_mod len 65536 ltac:(lia)).
  pose proof (Z.mod_pos_bound len 65536 ltac:(lia)).
  pose proof (Z.div_mod len 256 ltac:(lia)).
  pose proof (Z.mod_pos_bound len 256 ltac:(lia)).
  pose proof (Z.div_mod (len / 16777216) 256 ltac:(lia)).
  pose proof (Z.mod_pos_bound (len / 16777216) 256 ltac:(lia)).
  pose proof (Z.div_mod (len / 65536) 256 ltac:(lia)).
  pose proof (Z.mod_pos_bound (len / 65536) 256 ltac:(lia)).
  pose proof (Z.div_mod (len / 256) 256 ltac:(lia)).
  pose proof (Z.mod_pos_bound (len / 256) 256 ltac:(lia)).
  lia.
Qed.

Lemma app_same_length {A} (a b r r' : list A) :
  List.length a = List.length b -> a ++ r = b ++ r' -> a = b /\ r = r'.
Proof.
  revert b. induction a as [|x a IH]; intros [|y b] L E; cbn in L;
    try discriminate.
  - split; [reflexivity|exact E].
  - cbn [app] in E. injection E as -> E. injection L as L.
    destruct (IH b L E) as [-> ->]. split; reflexivity.
Qed.

Lemma writeString_app out v : writeString out v = out ++ writeString [] v.
Proof. reflexivity. Qed.

Lemma payload_app fields : forall out,
  fold_left writeString fields out =
  out ++ List.concat (map (writeString []) fields).
Proof.
  induction fields as [|f fields IH]; intros out; cbn [fold_left map List.concat].
  - rewrite app_nil_r. reflexivity.
  - rewrite IH, writeString_app, <- app_assoc. reflexivity.
Qed.

(** A field can be split off the front of what follows it. *)
Lemma frame_inj (v v' rest rest' : list Z) :
  Z.of_nat (List.length v) < 2 ^ 31 -> Z.of_nat (List.length v') < 2 ^ 31 ->
  writeString [] v ++ rest = writeString [] v' ++ rest' ->
  v = v' /\ rest = rest'.
Proof.
  intros Hv Hv' E. unfold writeString in E. cbn [app] in E.
  injection E as E3 E2 E1 E0 E.
  assert (L : Z.of_nat (List.length v) = Z.of_nat (List.length v')).
  { rewrite <- (length_bytes_decode (Z.of_nat (List.length v))) by lia.
    rewrite <- (length_bytes_decode (Z.of_nat (List.length v'))) by lia.
    rewrite E3, E2, E1, E0. reflexivity. }
  apply Nat2Z.inj in L.
  apply app_same_length; assumption.
Qed.

Lemma frames_inj (fs : list (list Z)) : forall fs',
  Forall (fun f => Z.of_nat (List.length f) < 2 ^ 31) fs ->
  Forall (fun f => Z.of_nat (List.length f) < 2 ^ 31) fs' ->
  List.concat (map (writeString []) fs) =
  List.concat (map (writeString []) fs') ->
  fs = fs'.
Proof.
  induction fs as [|f fs IH]; intros [|f' fs'] H H' E;
    cbn [map List.concat] in E.
  - reflexivity.
  - discriminate E.
  - discriminate E.
  - inversion H as [|? ? Hf Hfs]. inversion H' as [|? ? Hf' Hfs']. subst.
    apply frame_inj in E as [-> E]; [|assumption|assumption].
    f_equal. apply IH; assumption.
Qed.

(** X18.  buildSshPayload writes length-prefixed fields: for lengths
    below 2^31 the payload is 4 + len(type) bytes plus 4 + len(field)
    for every field, and two payloads are equal only if the ASCII bytes
    of their types and all their fields are equal. *)
Theorem ssh_payload_framing (type type' : string) (fields fields' : list (list Z)) :
  Z.of_nat (String.length type) < 2 ^ 31 ->
  Z.of_nat (String.length type') < 2 ^ 31 ->
  Forall (fun f => Z.of_nat (List.length f) < 2 ^ 31) fields ->
  Forall (fun f => Z.of_nat (List.length f) < 2 ^ 31) fields' ->
  List.length (buildSshPayload type fields) =
    (4 + String.length type +
     list_sum (map (fun f => 4 + List.length f) fields))%nat /\
  (buildSshPayload type fields = buildSshPayload type' fields' ->
   asciiBytes type = asciiBytes type' /\ fields = fields').
Proof.
  intros Ht Ht' Hf Hf'.
  assert (La : forall s, List.length (asciiBytes s) = String.length s).
  { intros s. unfold asciiBytes. rewrite length_map.
    induction s as [|c s IHs]; cbn; [reflexivity|rewrite IHs; reflexivity]. }
  unfold buildSshPayload. rewrite !payload_app. split.
  - assert (Lf : List.length (List.concat (map (writeString []) fields)) =
                 list_sum (map (fun f => 4 + List.length f) fields)%nat).
    { clear. induction fields as [|f fields IH]; cbn [map List.concat list_sum];
        [reflexivity|].
      rewrite length_app, IH. unfold writeString. cbn [app List.length].
      change (list_sum (?x :: ?l)) with (x + list_sum l)%nat. lia. }
    rewrite length_app, Lf. unfold writeString.
    cbn [app List.length]. rewrite La. lia.
  - intros E. apply frame_inj in E as [E1 E2]; rewrite ?La; try assumption.
    split; [exact E1|]. apply frames_inj; assumption.
Qed.

Lemma ssh_payload_framing_witness :
  List.length (buildSshPayload "ssh-rsa" [[1; 0; 1]; [0; -61; 17]]) = 25%nat.
Proof.
  apply (ssh_payload_framing "ssh-rsa" "ssh-rsa"
           [[1; 0; 1]; [0; -61; 17]] [[1; 0; 1]; [0; -61; 17]]).
  - cbn. lia.
  - cbn. lia.
  - repeat constructor.
  - repeat constructor.
Defined.

(** X19.  extractEd25519PublicKey accepts exactly the encodings of at
    least 33 bytes and returns their last 32 bytes; the OpenSSH payload
    of such a key is the bytes 0,0,0,11, 'ssh-ed25519', 0,0,0,32 and
    those 32 bytes; a shorter encoding is rejected with an exception. *)
Theorem ed25519_payload_shape (encoded : list Z) :
  match extractEd25519PublicKey encoded with
  | Some raw =>
      (33 <= List.length encoded)%nat /\
      List.length raw = 32%nat /\
      (exists header, encoded = header ++ raw) /\
      ed25519Payload encoded =
        Some ([0; 0; 0; 11] ++ asciiBytes "ssh-ed25519" ++ [0; 0; 0; 32] ++ raw)
  | None => (List.length encoded <= 32)%nat /\ ed25519Payload encoded = None
  end.
Proof.
  unfold ed25519Payload, extractEd25519PublicKey.
  destruct (List.length encoded =? 0)%nat eqn:Z0; cbn [negb andb].
  - apply Nat.eqb_eq in Z0. split; [lia|reflexivity].
  - apply Nat.eqb_neq in Z0.
    destruct (Z.leb_spec 32 (Z.of_nat (List.length encoded) - 1)) as [L|L].
    + assert (R : List.length (skipn (List.length encoded - 32) encoded) = 32%nat)
        by (rewrite length_skipn; lia).
      split; [lia|]. split; [exact R|]. split.
      * exists (firstn (List.length encoded - 32) encoded).
        symmetry. apply firstn_skipn.
      * unfold buildSshPayload, writeString. cbn [fold_left app].
        rewrite R. reflexivity.
    + split; [lia|reflexivity].
Qed.

End AndroidKeysFacts.

(** ** The supervisor loop, turn by turn *)

Module SupervisorMoreFacts.

Import GoTime StateMachine Supervisor SupervisorFacts SupervisorMore.
Local Open Scope string_scope.
Local Open Scope list_scope.
Local Open Scope Z_scope.

Section More.
Variable ClassifyExit : option LineBuffer -> Z -> option WaitErr -> string.
Variable FormatExit : Z -> option WaitErr -> string.
Variable PolicyName : Policy -> string.

Local Notation "'handleExit'" :=
  (Supervisor.handleExit ClassifyExit FormatExit PolicyName).
Local Notation "'iteration'" :=
  (Supervisor.iteration ClassifyExit FormatExit PolicyName).
Local Notation "'loop'" :=
  (Supervisor.loop ClassifyExit FormatExit PolicyName).
Local Notation "'RunWithLogger'" :=
  (Supervisor.RunWithLogger ClassifyExit FormatExit PolicyName).
Local Notation "'classOf'" := (Supervisor.classOf ClassifyExit).
Local Notation "'policyStop'" := (Supervisor.policyStop PolicyName).
Local Notation "'turnStops'" := (SupervisorMore.turnStops ClassifyExit).

(** Closed forms for the symbolic execution of the loop body. *)
Lemma prepend_tuple {A} t (a : A) r t' : prepend t (a, r, t') = (a, r, t ++ t').
Proof. reflexivity. Qed.

Lemma pollStop_eq requested r :
  pollStop requested r =
  (requested || stopCh r, if requested then set_stopCh true r else r, []).
Proof.
  unfold pollStop, bind, modify, get, ret. destruct requested; reflexivity.
Qed.

(** [sleepWithBackoff] when no stop arrives: the delay is announced and
    slept, unless it is not positive. *)
Lemma sleepWithBackoff_eq delay stop f3 f1 r :
  stopCh r = false -> stop = false ->
  sleepWithBackoff delay stop f3 f1 r =
  (None, r,
   EBackoffNext delay ::
   if delay <=? 0 then []
   else [ELog "INFO" "restart_scheduled"
               [("delay_ms", AInt (Milliseconds (Round delay Millisecond)))];
         ESleep delay]).
Proof.
  intros Hs ->. unfold sleepWithBackoff.
  mstep. destruct (delay <=? 0).
  - mdone. reflexivity.
  - mstep. erewrite bind_step by apply pollStop_eq. cbv beta.
    rewrite Hs. cbn [orb]. mstep. mdone. reflexivity.
Qed.

Lemma shouldRestart_stops r r' class :
  policy r' = policy r ->
  negb (shouldRestart r' (exitCodeOf (waitErr r)) (waitErr r) class) = stops r class.
Proof.
  intros P. unfold shouldRestart, stops. rewrite P.
  destruct (isAuthOrHostkey class); [reflexivity|]. cbn [orb].
  destruct (policy r); [reflexivity|].
  destruct (waitErr r) as [[]|]; reflexivity.
Qed.

Ltac finish_exit :=
  unfold ret; rewrite !prepend_tuple; cbn [app]; rewrite ?app_nil_r;
  do 5 eexists; split; [unfold backoffTrace; cbn [app]; reflexivity|];
  cbn; repeat split; try assumption; reflexivity.

(** The exit handling, in closed form: its result, its trace and the
    fields of the runner afterwards. *)
Lemma handleExit_eq env r :
  stopCh r = false -> stop_in_backoff env = false ->
  let err := waitErr r in
  let class := ClassifyExit (errLines r) (exitCodeOf err) err in
  exists s1 s2 lvl fields rfin,
    handleExit env r =
      (if stops r class then Return None else Continue, rfin,
       snapshotOf s1 ++ snapshotOf s2 ++ [ELog lvl "ssh_exited" fields] ++
       (if stops r class then [policyStop r class]
        else match err with None => [EBackoffReset] | Some _ => [] end ++
             backoffTrace (backoff_delay env))) /\
    restartCount rfin =
      (if stops r class then restartCount r else incr (restartCount r)) /\
    startSuccessCount rfin = startSuccessCount r /\
    startFailureCount rfin = startFailureCount r /\
    exitSuccessCount rfin = exitSuccessCount (exitCounters r) /\
    exitFailureCount rfin = exitFailureCount (exitCounters r) /\
    sm rfin = fst (Transition (sm r) StateStopped) /\
    cmd rfin = None /\ stopCh rfin = false /\ policy rfin = policy r /\
    lastClass rfin = class /\ stateWriter rfin = stateWriter r /\
    logger rfin = logger r.
Proof.
  intros Hs Hb. cbv zeta.
  unfold Supervisor.handleExit, Supervisor.policyStop, exitCounters.
  set (class := ClassifyExit (errLines r) (exitCodeOf (waitErr r)) (waitErr r)) in *.
  mstep.
  destruct (waitErr r) as [e|] eqn:E.
  - mstep. mstep. cbn [errLines set_counters]. fold class.
    mstep. mstep. mstep.
    match goal with
    | |- context [stderrSummary ?x] =>
        destruct (negb (String.eqb (stderrSummary x) ""))
    end.
    + mstep. mstep. mstep. mstep.
      unfold shouldRestart, stops. rewrite E.
      cbn [policy set_child set_sm set_lastExit set_lastClass set_counters].
      destruct (isAuthOrHostkey class) eqn:A; cbn [negb orb];
        [mstep; finish_exit|].
      destruct (policy r) eqn:P; cbn [negb orb];
        mstep; mstep;
        (erewrite bind_step by (apply sleepWithBackoff_eq; [exact Hs|exact Hb]));
        cbv beta iota; finish_exit.
    + mstep. mstep. mstep. mstep.
      unfold shouldRestart, stops. rewrite E.
      cbn [policy set_child set_sm set_lastExit set_lastClass set_counters].
      destruct (isAuthOrHostkey class) eqn:A; cbn [negb orb];
        [mstep; finish_exit|].
      destruct (policy r) eqn:P; cbn [negb orb];
        mstep; mstep;
        (erewrite bind_step by (apply sleepWithBackoff_eq; [exact Hs|exact Hb]));
        cbv beta iota; finish_exit.
  - mstep. mstep. cbn [errLines set_counters]. fold class.
    mstep. mstep. mstep. mstep. mstep. mstep. mstep.
    unfold shouldRestart, stops. rewrite E.
    cbn [policy set_child set_sm set_lastExit set_lastClass set_counters].
    destruct (isAuthOrHostkey class) eqn:A; cbn [negb orb];
      [mstep; finish_exit|].
    destruct (policy r) eqn:P; cbn [negb orb exitCodeOf Z.eqb].
    + mstep. mstep.
      erewrite bind_step by (apply sleepWithBackoff_eq; [exact Hs|exact Hb]).
      cbv beta iota. finish_exit.
    + mstep. finish_exit.
Qed.

(** ** The counters across a turn *)

Lemma sleepWithBackoff_counters delay stop f3 f1 r :
  counters (final (sleepWithBackoff delay stop f3 f1 r)) = counters r /\
  restartCount (final (sleepWithBackoff delay stop f3 f1 r)) = restartCount r.
Proof.
  unfold sleepWithBackoff. mstep. destruct (delay <=? 0).
  - mdone. split; reflexivity.
  - mstep. erewrite bind_step by apply pollStop_eq. cbv beta.
    destruct (stop || stopCh r).
    + mstep. rewrite Stop_eq. mdone. destruct stop; split; reflexivity.
    + mstep. mdone. destruct stop; split; reflexivity.
Qed.

(** The exit handling counts the exit once, and nothing else. *)
Lemma handleExit_counters env r :
  counters (final (handleExit env r)) = counters (exitCounters r).
Proof.
  unfold Supervisor.handleExit, exitCounters.
  set (class := ClassifyExit (errLines r) (exitCodeOf (waitErr r)) (waitErr r)) in *.
  mstep.
  assert (tail : forall (m : M unit) rX t,
    (forall r0, m r0 = (tt, r0, t r0)) ->
    counters (final (bind m (fun _ =>
      bind (modify (fun r => set_restartCount (incr (restartCount r)) r))
       (fun _ => bind (sleepWithBackoff (backoff_delay env) (stop_in_backoff env)
                         (fst (stop_reap env)) (snd (stop_reap env)))
          (fun e => match e with
                    | Some err' => ret (Return (Some err'))
                    | None => ret Continue
                    end))) rX)) = counters rX).
  { intros m rX t Hm. erewrite bind_step by apply Hm. cbv beta.
    mstep. rewrite bind_split. rewrite !final_prepend.
    match goal with |- context [sleepWithBackoff ?d ?s ?a ?b ?x] =>
      destruct (sleepWithBackoff_counters d s a b x) as [Hc _];
      destruct (value (sleepWithBackoff d s a b x));
      unfold ret; cbn [final fst snd]; rewrite Hc; reflexivity
    end. }
  destruct (waitErr r) as [e|] eqn:E.
  - mstep. mstep. cbn [errLines set_counters]. fold class.
    mstep. mstep. mstep.
    match goal with
    | |- context [stderrSummary ?x] =>
        destruct (negb (String.eqb (stderrSummary x) ""))
    end;
      mstep; mstep; mstep; mstep;
      (match goal with |- context [shouldRestart ?a ?b ?c ?d] =>
         destruct (shouldRestart a b c d) end; cbn [negb];
       [|mstep; mdone; reflexivity]);
      (destruct (isAuthOrHostkey class); [mstep; mdone; reflexivity|]);
      rewrite !final_prepend;
      (rewrite (tail _ _ (fun _ => [])) by reflexivity); reflexivity.
  - mstep. mstep. cbn [errLines set_counters]. fold class.
    mstep. mstep. mstep. mstep. mstep. mstep. mstep.
    (match goal with |- context [shouldRestart ?a ?b ?c ?d] =>
       destruct (shouldRestart a b c d) end; cbn [negb];
     [|mstep; mdone; reflexivity]).
    (destruct (isAuthOrHostkey class); [mstep; mdone; reflexivity|]).
    rewrite !final_prepend.
    rewrite (tail _ _ (fun _ => [EBackoffReset])) by reflexivity. reflexivity.
Qed.

(** A turn in which the child runs, up to the moment it is reaped. *)
Lemma iteration_child opts env r :
  childRuns env r ->
  exists c ch rX,
    iteration opts env r = prepend (startedTrace opts c ch) (handleExit env rX) /\
    waitErr rX = child_exit env /\
    errLines rX = Some (fold_left Add (child_stderr env) (NewLineBuffer 10)) /\
    stopCh rX = false /\ policy rX = policy r /\
    restartCount rX = restartCount r /\
    counters rX = (incr (startSuccessCount r), startFailureCount r,
                   exitSuccessCount r, exitFailureCount r).
Proof.
  intros (Hs & Hq & HS).
  destruct (Start_success _ _ HS) as (c0 & pid & ES).
  unfold Supervisor.iteration. rewrite Hq.
  mstep. rewrite Hs. cbv beta iota.
  erewrite bind_step by exact ES. cbv beta iota.
  mstep. mstep.
  cbn [cmd waitDone recordStartSuccess modify final fst snd set_counters
       set_sm set_errLines set_child].
  mstep.
  erewrite bind_step by (apply waitTask_eq; reflexivity). cbv beta iota.
  mstep. rewrite !prepend_prepend. cbn [app].
  do 3 eexists. split; [reflexivity|].
  cbn. repeat split; try assumption; reflexivity.
Qed.

Lemma Stopped_reached s : fst (Transition s StateStopped) = StateStopped.
Proof. destruct s; reflexivity. Qed.

(** What the trace of a turn can contain. *)
Lemma In_snapshotOf e s :
  In e (snapshotOf s) -> exists x, e = ESnapshot x.
Proof.
  unfold snapshotOf. destruct (stateWriter s); cbn; [|tauto].
  intros [<-|[]]. eexists; reflexivity.
Qed.

Lemma turn_trace_tail e opts c ch s1 s2 lvl fields tail :
  (forall x, e <> ESnapshot x) -> (forall l n f, e <> ELog l n f) ->
  e <> EBuild -> (forall c, e <> ESpawn c) -> (forall c ch, e <> EGoWait c ch) ->
  (forall c, e <> EGrace c) -> (forall ch, e <> ERecv ch) ->
  In e (startedTrace opts c ch ++ snapshotOf s1 ++ snapshotOf s2 ++
        [ELog lvl "ssh_exited" fields] ++ tail) <-> In e tail.
Proof.
  intros N1 N2 N3 N4 N5 N6 N7. split.
  - unfold startedTrace. rewrite !in_app_iff.
    intros [H|[H|[H|[H|H]]]]; [| | | |exact H]; exfalso.
    + cbn in H.
      destruct H as [H|[H|[H|[H|[H|[H|[]]]]]]]; symmetry in H;
        [ exact (N3 H) | exact (N4 _ H) | exact (N5 _ _ H) | exact (N6 _ H)
        | exact (N2 _ _ _ H) | exact (N7 _ H) ].
    + apply In_snapshotOf in H. destruct H as [x H]. exact (N1 _ H).
    + apply In_snapshotOf in H. destruct H as [x H]. exact (N1 _ H).
    + destruct H as [H|[]]. symmetry in H. exact (N2 _ _ _ H).
  - intros H. rewrite !in_app_iff. do 4 right. exact H.
Qed.

(** X20.  In a turn of RunWithLogger's loop whose child was started and
    reaped, with no stop arriving during the backoff: the loop returns
    nil exactly when the exit class is auth or hostkey, or the policy is
    on-failure and Wait returned nil; otherwise it goes on, restartCount
    grows by one and the backoff is advanced, after a reset only when
    Wait returned nil. Either way the state ends Stopped, the child is
    forgotten and lastClass is the class. *)
Theorem restart_decision opts env r :
  childRuns env r -> stop_in_backoff env = false ->
  let out := iteration opts env r in
  value out = (if turnStops env r then Return None else Continue) /\
  restartCount (final out) =
    (if turnStops env r then restartCount r else incr (restartCount r)) /\
  (In EBackoffReset (trace out) <->
     turnStops env r = false /\ child_exit env = None) /\
  (In (EBackoffNext (backoff_delay env)) (trace out) <->
     turnStops env r = false) /\
  sm (final out) = StateStopped /\ cmd (final out) = None /\
  lastClass (final out) = classOf env.
Proof.
  intros HR Hb. cbv zeta.
  destruct (iteration_child opts env r HR)
    as (c & ch & rX & -> & Hw & He & Hs & Hp & Hrc & Hc).
  destruct (handleExit_eq env rX Hs Hb)
    as (s1 & s2 & lvl & fields & rfin & -> & Rc & _ & _ & _ & _ & Sm & Cm & _ & _ & Lc & _).
  rewrite Hw, He in *. fold (classOf env) in *.
  assert (St : stops rX (classOf env) = turnStops env r).
  { unfold stops, SupervisorMore.turnStops. rewrite Hp, Hw. reflexivity. }
  rewrite St in *. rewrite Hrc in Rc. unfold prepend.
  cbn [value final trace fst snd].
  split; [reflexivity|]. split; [exact Rc|].
  split; [|split; [|split; [rewrite Sm; apply Stopped_reached|split; assumption]]].
  - rewrite turn_trace_tail by (intros; discriminate).
    unfold Supervisor.policyStop, backoffTrace.
    destruct (turnStops env r), (child_exit env), (backoff_delay env <=? 0);
      cbn; intuition (discriminate || congruence).
  - rewrite turn_trace_tail by (intros; discriminate).
    unfold Supervisor.policyStop, backoffTrace.
    destruct (turnStops env r), (child_exit env), (backoff_delay env <=? 0);
      cbn; intuition (discriminate || congruence).
Qed.

(** ** The counters over the whole loop *)

(** Arithmetic of [int] counters. *)
Lemma wrap64_shift z : exists k, wrap64 z = z + k * 2 ^ 64.
Proof.
  unfold wrap64. exists (- ((z + 2 ^ 63) / 2 ^ 64)).
  rewrite Z.mod_eq by lia. lia.
Qed.

Lemma wrap64_plus z k : wrap64 (z + k * 2 ^ 64) = wrap64 z.
Proof.
  unfold wrap64. replace (z + k * 2 ^ 64 + 2 ^ 63) with (z + 2 ^ 63 + k * 2 ^ 64) by lia.
  rewrite Z_mod_plus_full. reflexivity.
Qed.

Lemma balance_exit_ok a b c :
  wrap64 (incr a - incr b - c) = wrap64 (a - b - c).
Proof.
  unfold incr. destruct (wrap64_shift (a + 1)) as [k ->].
  destruct (wrap64_shift (b + 1)) as [k' ->].
  replace (a + 1 + k * 2 ^ 64 - (b + 1 + k' * 2 ^ 64) - c)
    with (a - b - c + (k - k') * 2 ^ 64) by lia.
  apply wrap64_plus.
Qed.

Lemma balance_exit_failed a b c :
  wrap64 (incr a - b - incr c) = wrap64 (a - b - c).
Proof.
  unfold incr. destruct (wrap64_shift (a + 1)) as [k ->].
  destruct (wrap64_shift (c + 1)) as [k' ->].
  replace (a + 1 + k * 2 ^ 64 - b - (c + 1 + k' * 2 ^ 64))
    with (a - b - c + (k - k') * 2 ^ 64) by lia.
  apply wrap64_plus.
Qed.

Lemma balance_counters r r' :
  startSuccessCount r' = startSuccessCount r ->
  exitSuccessCount r' = exitSuccessCount r ->
  exitFailureCount r' = exitFailureCount r -> balance r' = balance r.
Proof. unfold balance. intros -> -> ->. reflexivity. Qed.

(** A [Start] that fails leaves every field the loop reads afterwards,
    but the state and the failure counter, as it was. *)
Lemma Start_failure env r err :
  value (Start env r) = Some err ->
  exists s sf c w e el,
    final (Start env r) =
      set_errLines el (set_child c w e (set_sm s
        (set_counters (startSuccessCount r) sf (exitSuccessCount r)
                      (exitFailureCount r) r))) /\
    forall e, In e (trace (Start env r)) ->
      (forall ch, e <> ERecv ch) /\ (forall l n f, e <> ELog l n f) /\
      (forall x, e <> ESnapshot x) /\ (forall d, e <> EBackoffNext d) /\
      e <> EBackoffReset /\ (forall d, e <> ESleep d).
Proof.
  rewrite Start_eq. unfold failed, reapTrace.
  assert (same : forall r : Runner,
    r = set_errLines (errLines r) (set_child (cmd r) (waitDone r) (waitErr r)
          (set_sm (sm r) (set_counters (startSuccessCount r) (startFailureCount r)
             (exitSuccessCount r) (exitFailureCount r) r)))).
  { intros []. reflexivity. }
  destruct (legal (sm r) StateConnecting).
  2:{ intros _. do 6 eexists. split; [apply same|]. intros e []. }
  unfold recordStartFailure, modify.
  destruct (build env) as [c0|e0];
    [destruct (StdoutPipe env);
      [|destruct (StderrPipe env); [|destruct (cmdStart env) as [pid|e1]]]|];
    cbv zeta;
    try (intros _; cbn [final trace fst snd];
         exists StateStopped, (incr (startFailureCount r)), (cmd r),
                (waitDone r), (waitErr r), (errLines r);
         split; [destruct r; reflexivity|];
         intros x [<-|[]]; repeat split; intros; discriminate).
  destruct (legal (raced StateConnecting (racing env)) StateConnected);
    [intros H; discriminate H|].
  intros _. cbn [final trace fst snd].
  exists (raced StateConnecting (racing env)), (startFailureCount r),
         None, None, None, (Some (NewLineBuffer 10)).
  split; [destruct r; reflexivity|].
  intros x H. cbn in H.
  destruct (reaped3 env); cbn in H;
    repeat (destruct H as [<-|H]; [repeat split; intros; discriminate|]);
    destruct H.
Qed.

(** A [Start] that fails after it has spawned a child (the rollback of a
    rejected transition) has sent it SIGTERM, has awaited it and has
    forgotten it; one that fails earlier has spawned none. *)
Lemma Start_failure_spawn env r err c :
  value (Start env r) = Some err ->
  In (ESpawn c) (trace (Start env r)) ->
  In (ESignal c SIGTERM) (trace (Start env r)) /\
  In (EAwait (newChan env) (scale 3 Second) (reaped3 env))
     (trace (Start env r)) /\
  cmd (final (Start env r)) = None.
Proof.
  rewrite Start_eq. unfold failed, reapTrace.
  destruct (legal (sm r) StateConnecting); [|intros _ []].
  destruct (build env) as [c0|e0];
    [destruct (StdoutPipe env);
      [|destruct (StderrPipe env); [|destruct (cmdStart env) as [pid|e1]]]|];
    cbv zeta;
    try (intros _ [X|[]]; discriminate X).
  destruct (legal (raced StateConnecting (racing env)) StateConnected);
    [intros X; discriminate X|].
  intros _ H. cbn [trace final fst snd app] in *.
  destruct H as [X|[X|H]]; [discriminate X| |].
  - injection X as <-. repeat split.
    + do 3 right. left. reflexivity.
    + do 4 right. left. reflexivity.
  - exfalso. destruct H as [X|[X|[X|H]]]; try discriminate X.
    destruct (reaped3 env); cbn in H;
      repeat (destruct H as [X|H]; [discriminate X|]); destruct H.
Qed.

(** A turn whose [Start] fails, in closed form. *)
Lemma iteration_start_failed opts env r err :
  stopCh r = false -> stop_requested env = false ->
  value (Start (start_env env) r) = Some err ->
  stop_in_backoff env = false ->
  exists s1 s2 rfin,
    iteration opts env r =
      (Continue, rfin,
       trace (Start (start_env env) r) ++ snapshotOf s1 ++ snapshotOf s2 ++
       [ELog "ERROR" "ssh_start_failed" [("error", AStr err)]] ++
       backoffTrace (backoff_delay env)) /\
    lastExit rfin = ("start failed: " ++ err)%string /\
    lastTriggerReason rfin = "start failed" /\
    restartCount rfin = incr (restartCount r) /\
    startSuccessCount rfin = startSuccessCount r /\
    exitSuccessCount rfin = exitSuccessCount r /\
    exitFailureCount rfin = exitFailureCount r /\
    cmd rfin = cmd (final (Start (start_env env) r)).
Proof.
  intros Hs Hq HS Hb.
  destruct (Start_failure _ _ _ HS) as (s & sf & c & w & e & el & HF & _).
  unfold Supervisor.iteration. rewrite Hq.
  mstep. rewrite Hs. cbv beta iota.
  rewrite bind_split. rewrite HS, HF.
  mstep. mstep. mstep. mstep.
  erewrite bind_step by (apply sleepWithBackoff_eq; [exact Hs|exact Hb]).
  cbv beta iota. unfold ret. rewrite !prepend_tuple. cbn [app].
  rewrite ?app_nil_r.
  do 3 eexists. split; [unfold backoffTrace; reflexivity|].
  cbn. repeat split; reflexivity.
Qed.

(** X21.  In a turn whose Start fails, with no stop pending or arriving:
    the loop goes on; lastExit is 'start failed: ' followed by the
    error, lastTriggerReason is overwritten with 'start failed',
    restartCount grows by one, ssh_start_failed is logged at ERROR with
    the error, the backoff is advanced and not reset, and the loop does
    not wait on a completion channel. A child spawned in such a turn (by
    a Start that failed in its rollback, after a rejected transition)
    has been sent SIGTERM and awaited by Start itself, and its handle is
    cleared. *)
Theorem start_failure_turn opts env r err :
  stopCh r = false -> stop_requested env = false ->
  value (Start (start_env env) r) = Some err ->
  stop_in_backoff env = false ->
  let out := iteration opts env r in
  value out = Continue /\
  lastExit (final out) = ("start failed: " ++ err)%string /\
  lastTriggerReason (final out) = "start failed" /\
  restartCount (final out) = incr (restartCount r) /\
  In (ELog "ERROR" "ssh_start_failed" [("error", AStr err)]) (trace out) /\
  In (EBackoffNext (backoff_delay env)) (trace out) /\
  ~ In EBackoffReset (trace out) /\
  (forall ch, ~ In (ERecv ch) (trace out)) /\
  (forall c, In (ESpawn c) (trace out) ->
     In (ESignal c SIGTERM) (trace out) /\
     In (EAwait (newChan (start_env env)) (scale 3 Second)
                (reaped3 (start_env env))) (trace out) /\
     cmd (final out) = None).
Proof.
  intros Hs Hq HS Hb. cbv zeta.
  destruct (Start_failure _ _ _ HS) as (_ & _ & _ & _ & _ & _ & _ & HT).
  destruct (iteration_start_failed opts env r err Hs Hq HS Hb)
    as (s1 & s2 & rfin & -> & HE & HL & HR & _ & _ & _ & HC).
  cbn [value final trace fst snd].
  assert (tail : forall x, (forall y, x <> ESnapshot y) ->
    (forall l n f, x <> ELog l n f) -> (forall d, x <> EBackoffNext d) ->
    (forall d, x <> ESleep d) ->
    In x (trace (Start (start_env env) r) ++ snapshotOf s1 ++ snapshotOf s2 ++
          [ELog "ERROR" "ssh_start_failed" [("error", AStr err)]] ++
          backoffTrace (backoff_delay env)) ->
    In x (trace (Start (start_env env) r))).
  { intros x N1 N2 N3 N4. rewrite !in_app_iff.
    intros [H|[H|[H|[H|H]]]]; [exact H| | | |]; exfalso.
    - apply In_snapshotOf in H. destruct H as [y H]. exact (N1 _ H).
    - apply In_snapshotOf in H. destruct H as [y H]. exact (N1 _ H).
    - destruct H as [H|[]]. symmetry in H. exact (N2 _ _ _ H).
    - unfold backoffTrace in H. destruct (backoff_delay env <=? 0); cbn in H.
      + destruct H as [H|[]]. symmetry in H. exact (N3 _ H).
      + destruct H as [H|[H|[H|[]]]]; symmetry in H;
          [exact (N3 _ H)|exact (N2 _ _ _ H)|exact (N4 _ H)]. }
  repeat split; try assumption.
  - rewrite !in_app_iff. do 3 right. left. left. reflexivity.
  - rewrite !in_app_iff. do 4 right. left. reflexivity.
  - intros H. apply tail in H; try (intros; discriminate).
    apply HT in H. destruct H as (_ & _ & _ & _ & H & _). apply H. reflexivity.
  - intros ch H. apply tail in H; try (intros; discriminate).
    apply HT in H. destruct H as (H & _). apply (H ch). reflexivity.
  - apply in_or_app. left. apply tail in H; try (intros; discriminate).
    apply (Start_failure_spawn _ _ _ _ HS H).
  - apply in_or_app. left. apply tail in H; try (intros; discriminate).
    apply (Start_failure_spawn _ _ _ _ HS H).
  - rewrite HC. apply tail in H; try (intros; discriminate).
    apply (Start_failure_spawn _ _ _ _ HS H).
Qed.

Lemma final_tuple {A} (a : A) r t : final (a, r, t) = r.
Proof. reflexivity. Qed.

Lemma counters_inv a b :
  counters a = counters b ->
  startSuccessCount a = startSuccessCount b /\
  startFailureCount a = startFailureCount b /\
  exitSuccessCount a = exitSuccessCount b /\
  exitFailureCount a = exitFailureCount b.
Proof. unfold counters. intros H. injection H as -> -> -> ->. tauto. Qed.

Lemma pollStop_counters q r :
  counters (final (pollStop q r)) = counters r.
Proof. rewrite pollStop_eq. destruct q; reflexivity. Qed.

(** One turn, whatever the world answers, keeps the balance. *)
Lemma iteration_balance opts env r :
  balance (final (iteration opts env r)) = balance r.
Proof.
  destruct (stop_requested env || stopCh r) eqn:Q.
  - unfold Supervisor.iteration.
    erewrite bind_step by apply pollStop_eq. cbv beta. rewrite Q.
    mstep. erewrite bind_step by apply Stop_eq. cbv beta. mdone.
    destruct (stop_requested env); reflexivity.
  - apply orb_false_iff in Q. destruct Q as [Hq Hs].
    destruct (value (Start (start_env env) r)) as [err|] eqn:HS.
    + unfold Supervisor.iteration.
      erewrite bind_step by apply pollStop_eq. cbv beta.
      rewrite Hq, Hs. cbn [orb]. cbv iota.
      rewrite bind_split. rewrite !final_prepend. rewrite HS.
      destruct (Start_failure _ _ _ HS) as (s & sf & c & w & e & el & HF & _).
      rewrite HF. mstep. mstep. mstep. mstep. rewrite !final_prepend.
      rewrite bind_split, final_prepend.
      match goal with |- context [sleepWithBackoff ?d ?s ?a ?b ?x] =>
        destruct (sleepWithBackoff_counters d s a b x) as [Hc _];
        destruct (value (sleepWithBackoff d s a b x));
        unfold ret; cbv beta; rewrite final_tuple;
        destruct (counters_inv _ _ Hc) as (H1 & H2 & H3 & H4);
        apply balance_counters; rewrite ?H1, ?H3, ?H4; reflexivity
      end.
    + assert (HR : childRuns env r) by (repeat split; assumption).
      destruct (iteration_child opts env r HR)
        as (c & ch & rX & -> & Hw & _ & _ & _ & _ & Hc).
      rewrite final_prepend.
      pose proof (handleExit_counters env rX) as HX.
      unfold exitCounters in HX. rewrite Hw in HX.
      destruct (counters_inv _ _ HX) as (X1 & _ & X3 & X4).
      unfold counters in Hc. injection Hc as H1 H2 H3 H4.
      unfold balance. rewrite X1, X3, X4.
      destruct (child_exit env);
        cbn [recordExitFailure recordExitSuccess modify final fst snd
             set_counters startSuccessCount startFailureCount exitSuccessCount
             exitFailureCount];
        rewrite H1, H3, H4.
      * apply balance_exit_failed.
      * apply balance_exit_ok.
Qed.

Lemma loop_balance opts script : forall r,
  balance (final (loop opts script r)) = balance r.
Proof.
  induction script as [|env rest IH]; intros r.
  - reflexivity.
  - rewrite loop_cons, final_prepend.
    destruct (value (iteration opts env r)).
    + rewrite IH. apply iteration_balance.
    + cbn [final fst snd]. apply iteration_balance.
Qed.

(** X22.  Over any run of RunWithLogger, whatever its turns meet,
    startSuccessCount - exitSuccessCount - exitFailureCount (as an int)
    ends as it began: every start counted as a success is matched by
    exactly one counted exit before the next turn, and failed starts,
    stops and backoffs touch neither side. *)
Theorem starts_balance_exits opts script r :
  balance (final (RunWithLogger opts script r)) = balance r.
Proof.
  rewrite RunWithLogger_eq, final_prepend.
  destruct (value (loop opts script (set_logger true r))).
  - cbn [final fst snd]. unfold balance at 1.
    cbn [set_logger startSuccessCount exitSuccessCount exitFailureCount].
    fold (balance (final (loop opts script (set_logger true r)))).
    rewrite loop_balance. reflexivity.
  - rewrite loop_balance. reflexivity.
Qed.

(** [Stop] and the prologue spawn nothing. *)
Lemma spawns_reapTrace ch c f3 f1 : spawns (reapTrace ch c f3 f1) = 0%nat.
Proof. unfold reapTrace. destruct f3; reflexivity. Qed.

Lemma spawns_Stop f3 f1 r : spawns (trace (Stop f3 f1 r)) = 0%nat.
Proof.
  rewrite Stop_eq. cbn [trace snd].
  destruct (cmd r) as [c|]; [|reflexivity].
  destruct (Process c); [|reflexivity].
  destruct (waitDone r); [|reflexivity].
  change (ESignal c Interrupt :: ?l) with ([ESignal c Interrupt] ++ l).
  rewrite spawns_app, spawns_reapTrace. reflexivity.
Qed.

Lemma spawns_prologue opts : spawns (prologue opts) = 0%nat.
Proof. unfold prologue. destruct (BuildInfo opts); reflexivity. Qed.

(** X23.  If a stop has been requested when RunWithLogger reaches the
    head of its loop, it spawns no child and ignores what would follow:
    after the start events it logs <kind>_stop_requested, runs Stop
    (which interrupts the current child, if any), returns Stop's result
    and logs <kind>_stop; the state ends Stopped and the logger is
    cleared. *)
Theorem stop_request_ends_run opts env rest r :
  stop_requested env || stopCh r = true ->
  let out := RunWithLogger opts (env :: rest) r in
  let f3 := fst (stop_reap env) in
  let f1 := snd (stop_reap env) in
  value out = Some (value (Stop f3 f1 r)) /\
  trace out =
    prologue opts ++ [ELog "INFO" (eventName opts "stop_requested") []] ++
    trace (Stop f3 f1 r) ++ [ELog "INFO" (eventName opts "stop") []] /\
  spawns (trace out) = 0%nat /\
  sm (final out) = StateStopped /\ logger (final out) = false /\
  stopCh (final out) = true.
Proof.
  intros Q. cbv zeta.
  assert (I : iteration opts env (set_logger true r) =
    (Return (value (Stop (fst (stop_reap env)) (snd (stop_reap env)) r)),
     set_sm StateStopped
       (if stop_requested env then set_stopCh true (set_logger true r)
        else set_logger true r),
     ELog "INFO" (eventName opts "stop_requested") [] ::
     trace (Stop (fst (stop_reap env)) (snd (stop_reap env)) r))).
  { unfold Supervisor.iteration.
    erewrite bind_step by apply pollStop_eq. cbv beta.
    cbn [stopCh set_logger]. rewrite Q.
    mstep. erewrite bind_step by apply Stop_eq. cbv beta.
    unfold ret. rewrite !prepend_tuple. rewrite !Stop_eq.
    cbn [value trace fst snd app]. rewrite app_nil_r.
    rewrite Stopped_reached.
    destruct (stop_requested env); reflexivity. }
  rewrite RunWithLogger_eq.
  erewrite loop_returns by (rewrite I; reflexivity).
  rewrite I. cbn [value final trace fst snd]. rewrite prepend_tuple.
  cbn [value final trace fst snd].
  split; [reflexivity|]. split; [cbn [app]; reflexivity|].
  split.
  { rewrite !spawns_app, spawns_prologue.
    change (ELog "INFO" (eventName opts "stop_requested") [] :: ?l)
      with ([ELog "INFO" (eventName opts "stop_requested") []] ++ l).
    rewrite spawns_app, spawns_Stop. reflexivity. }
  split; [reflexivity|]. split; [reflexivity|].
  destruct (stop_requested env); [reflexivity|].
  cbn [orb] in Q. exact Q.
Qed.
End More.

(** ** [stderrSummary] *)

(** Slices and the last two elements. *)
Lemma substring_length n : forall s,
  (n <= String.length s)%nat -> String.length (substring 0 n s) = n.
Proof.
  induction n as [|n IH]; intros s H.
  - destruct s; reflexivity.
  - destruct s as [|a s]; cbn in H; [lia|].
    cbn. rewrite IH by lia. reflexivity.
Qed.

Lemma skipn_last_two {A} (l : list A) x y :
  skipn (List.length (l ++ [x; y]) - 2) (l ++ [x; y]) = [x; y].
Proof.
  rewrite length_app. cbn [List.length].
  replace (List.length l + 2 - 2)%nat with (List.length l + 0)%nat by lia.
  rewrite skipn_app, Nat.add_0_r, skipn_all.
  replace (List.length l - List.length l)%nat with 0%nat by lia.
  reflexivity.
Qed.

(** X24.  stderrSummary never returns more than 200 bytes; it is empty
    for a buffer without lines, the line itself for a single line of at
    most 200 bytes, and the last two lines joined by ' | ' when that is
    at most 200 bytes. *)
Theorem stderr_summary_shape (lines : option LineBuffer) :
  (String.length (stderrSummary lines) <= 200)%nat /\
  (forall b, lines = Some b -> Lines b = [] -> stderrSummary lines = "") /\
  (forall b x, lines = Some b -> Lines b = [x] ->
     (String.length x <= 200)%nat -> stderrSummary lines = x) /\
  (forall b l x y, lines = Some b -> Lines b = l ++ [x; y] ->
     (String.length (x ++ " | " ++ y) <= 200)%nat ->
     stderrSummary lines = (x ++ " | " ++ y)%string).
Proof.
  split; [|split; [|split]].
  - unfold stderrSummary. destruct lines as [b|]; [|cbn; lia].
    destruct (Lines b) as [|x l]; [cbn; lia|].
    cbv zeta.
    destruct (200 <? _)%nat eqn:E.
    + apply Nat.ltb_lt in E. rewrite substring_length by lia. lia.
    + apply Nat.ltb_ge in E. exact E.
  - intros b -> E. unfold stderrSummary. rewrite E. reflexivity.
  - intros b x -> E H. unfold stderrSummary. rewrite E.
    cbn [List.length Nat.sub skipn String.concat].
    destruct (200 <? String.length x)%nat eqn:L; [|reflexivity].
    apply Nat.ltb_lt in L. lia.
  - intros b l x y -> E H. unfold stderrSummary. rewrite E.
    destruct (l ++ [x; y]) as [|z l'] eqn:E'.
    { destruct l; discriminate E'. }
    rewrite <- E'. cbv zeta. rewrite skipn_last_two.
    cbn [String.concat].
    destruct (200 <? _)%nat eqn:L; [|reflexivity].
    apply Nat.ltb_lt in L. lia.
Qed.

Lemma restart_decision_witness :
  value (Supervisor.iteration sampleClassify sampleFormat sampleName
           sampleOptions cleanTurn (New PolicyOnFailure)) = Return None.
Proof.
  assert (R : childRuns cleanTurn (New PolicyOnFailure))
    by (repeat split; reflexivity).
  pose proof (restart_decision sampleClassify sampleFormat sampleName
                sampleOptions cleanTurn (New PolicyOnFailure) R eq_refl) as H.
  cbv zeta in H. destruct H as [H _]. exact H.
Defined.

Lemma start_failure_turn_witness :
  lastTriggerReason
    (final (Supervisor.iteration sampleClassify sampleFormat sampleName
              sampleOptions rolledBackTurn (New PolicyAlways))) = "start failed" /\
  In (ESignal (mkCmd 1%nat (Some 4242%nat)) SIGTERM)
     (trace (Supervisor.iteration sampleClassify sampleFormat sampleName
               sampleOptions rolledBackTurn (New PolicyAlways))).
Proof.
  pose proof (start_failure_turn sampleClassify sampleFormat sampleName
                sampleOptions rolledBackTurn (New PolicyAlways)
                invalid_transition eq_refl eq_refl eq_refl eq_refl) as H.
  cbv zeta in H. destruct H as (_ & _ & H1 & _ & _ & _ & _ & _ & H2).
  split; [exact H1|].
  apply (H2 (mkCmd 1%nat (Some 4242%nat))).
  vm_compute. right. left. reflexivity.
Defined.

Lemma stop_request_ends_run_witness :
  spawns (trace (Supervisor.RunWithLogger sampleClassify sampleFormat
                   sampleName sampleOptions [stopTurn; refusedTurn] session0))
  = 0%nat.
Proof.
  pose proof (stop_request_ends_run sampleClassify sampleFormat sampleName
                sampleOptions stopTurn [refusedTurn] session0 eq_refl) as H.
  cbv zeta in H. destruct H as (_ & _ & H & _). exact H.
Defined.

Lemma stderr_summary_shape_witness :
  stderrSummary
    (Some (mkLineBuffer 10
             ["debug1: connecting"; "Permission denied (publickey)."; "Connection closed"])) =
  "Permission denied (publickey). | Connection closed".
Proof.
  destruct (stderr_summary_shape
              (Some (mkLineBuffer 10
                       ["debug1: connecting"; "Permission denied (publickey).";
                        "Connection closed"]))) as (_ & _ & _ & H).
  exact (H _ ["debug1: connecting"] "Permission denied (publickey)."
           "Connection closed" eq_refl eq_refl ltac:(cbn; lia)).
Defined.

End SupervisorMoreFacts.
